(** * Consolidation backend: FX resolution, category sync, de-duplication,
      amount parsing and upload validation.

    A shallow embedding of the reconciliation core of the consolidation
    backend (routes/structure_data.py, routes/forex.py, routes/upload_data.py,
    routes/financial_year_master.py) together with the properties its
    specification states about it.

    Conventions of the embedding
    - Python [str] values and MySQL text columns are [string]s of bytes; case
      mapping, white space and decimal digits are the ASCII ones.
    - Python [float] is the primitive binary64 [float]; a numeric column read
      from the database is carried as the value [float(...)] gives it.
    - [None] / SQL [NULL] is [None] of an [option].
    - A dictionary keyed by strings is a [gmap string _]; a Python [set] is a
      [gset]; a database table is the list of its rows, in the order in which
      a query without [ORDER BY] returns them.
    - Database failures are not modelled: every query succeeds. *)

From Stdlib Require Import ZArith String Ascii List Bool Floats.
From Stdlib Require Import DecimalString DecimalZ DecimalPos.
From stdpp Require Import gmap strings list.

Local Open Scope Z_scope.

(** ** Python and SQL string primitives *)

Module PyStr.

Definition code (c : ascii) : N := N_of_ascii c.

Definition is_upper (c : ascii) : bool := (65 <=? code c)%N && (code c <=? 90)%N.
Definition is_lower (c : ascii) : bool := (97 <=? code c)%N && (code c <=? 122)%N.
Definition is_digit (c : ascii) : bool := (48 <=? code c)%N && (code c <=? 57)%N.

(** [str.isspace] on ASCII: tab, LF, VT, FF, CR, FS, GS, RS, US and space. *)
Definition is_space (c : ascii) : bool :=
  ((9 <=? code c)%N && (code c <=? 13)%N)
  || ((28 <=? code c)%N && (code c <=? 32)%N).

Definition lower_char (c : ascii) : ascii :=
  if is_upper c then ascii_of_N (code c + 32) else c.
Definition upper_char (c : ascii) : ascii :=
  if is_lower c then ascii_of_N (code c - 32) else c.

Fixpoint map_chars (f : ascii -> ascii) (s : string) : string :=
  match s with
  | EmptyString => EmptyString
  | String c t => String (f c) (map_chars f t)
  end.

(** [s.lower()], [s.upper()], SQL [LOWER], [UPPER]. *)
Definition lower : string -> string := map_chars lower_char.
Definition upper : string -> string := map_chars upper_char.

Fixpoint drop_while (p : ascii -> bool) (s : string) : string :=
  match s with
  | EmptyString => EmptyString
  | String c t => if p c then drop_while p t else s
  end.

(** Removes the longest suffix of characters satisfying [p]. *)
Fixpoint drop_while_end (p : ascii -> bool) (s : string) : string :=
  match s with
  | EmptyString => EmptyString
  | String c t =>
      match drop_while_end p t with
      | EmptyString => if p c then EmptyString else String c EmptyString
      | t' => String c t'
      end
  end.

(** [s.strip()]: Python removes every kind of white space. *)
Definition strip (s : string) : string :=
  drop_while_end is_space (drop_while is_space s).

Definition is_blank_char (c : ascii) : bool := (code c =? 32)%N.

(** SQL [TRIM(s)]: MySQL removes space characters only. *)
Definition sql_trim (s : string) : string :=
  drop_while_end is_blank_char (drop_while is_blank_char s).

(** [needle in hay]. *)
Fixpoint contains (needle hay : string) : bool :=
  if String.prefix needle hay then true
  else match hay with
       | EmptyString => false
       | String _ t => contains needle t
       end.

Definition eqb (a b : string) : bool := bool_decide (a = b).

(** [str(n)] and the [{n}] of an f-string, for an [int]. *)
Definition of_Z (n : Z) : string := NilZero.string_of_int (Z.to_int n).

(** [s[-2:]]. *)
Definition last2 (s : string) : string :=
  let n := String.length s in
  String.substring (n - 2) 2 s.

Definition digit_value (c : ascii) : Z := Z.of_N (code c) - 48.

(** The digits part of Python's [int(s)]: a non-empty run of decimal
    digits in which single underscores may separate digits. *)
Fixpoint int_digits (acc : Z) (after_digit : bool) (s : string) : option Z :=
  match s with
  | EmptyString => if after_digit then Some acc else None
  | String c t =>
      if is_digit c then int_digits (10 * acc + digit_value c) true t
      else if (code c =? 95)%N && after_digit then int_digits acc false t
      else None
  end.

(** The white space that [int()] skips around a number: tab, LF, VT, FF,
    CR and space.  FS, GS, RS and US, which [str.strip] removes, are not
    skipped. *)
Definition is_int_space (c : ascii) : bool :=
  ((9 <=? code c)%N && (code c <=? 13)%N) || (code c =? 32)%N.

(** [int(s)] for a string: surrounding white space and one sign are
    accepted; [None] stands for [ValueError]. *)
Definition to_int (s : string) : option Z :=
  match drop_while_end is_int_space (drop_while is_int_space s) with
  | String "-" t => Z.opp <$> int_digits 0 false t
  | String "+" t => int_digits 0 false t
  | t => int_digits 0 false t
  end.

(** [s.split(sep)] for a one-character separator. *)
Fixpoint split_on (sep : ascii) (s : string) : list string :=
  match s with
  | EmptyString => [EmptyString]
  | String c t =>
      if Ascii.eqb c sep then EmptyString :: split_on sep t
      else match split_on sep t with
           | w :: ws => String c w :: ws
           | [] => [String c EmptyString]
           end
  end.

End PyStr.

(** ** Python truthiness and [or] *)

Module Py.

Definition truthy_str (v : option string) : bool :=
  match v with Some (String _ _) => true | _ => false end.

Definition truthy_Z (v : option Z) : bool :=
  match v with Some n => negb (n =? 0)%Z | None => false end.

Definition truthy_float (v : option float) : bool :=
  match v with Some x => negb (PrimFloat.eqb x 0%float) | None => false end.

(** [a or b]. *)
Definition or_str (a b : option string) : option string :=
  if truthy_str a then a else b.
Definition or_Z (a b : option Z) : option Z :=
  if truthy_Z a then a else b.
Definition or_float (a b : option float) : option float :=
  if truthy_float a then a else b.

(** [(v or "")] for a text value. *)
Definition str_or_empty (v : option string) : string :=
  match or_str v (Some EmptyString) with Some s => s | None => EmptyString end.

End Py.

(** ** SQL three-valued conditions *)

Module Sql.

(** A condition evaluates to TRUE, FALSE or NULL ([None]); a [WHERE] or
    [ON] clause keeps a row only when it evaluates to TRUE. *)
Definition cond := option bool.

Definition holds (c : cond) : bool :=
  match c with Some true => true | _ => false end.

Definition and_ (a b : cond) : cond :=
  match a, b with
  | Some false, _ | _, Some false => Some false
  | Some true, Some true => Some true
  | _, _ => None
  end.

Definition or_ (a b : cond) : cond :=
  match a, b with
  | Some true, _ | _, Some true => Some true
  | Some false, Some false => Some false
  | _, _ => None
  end.

Definition not_ (a : cond) : cond := negb <$> a.

Definition is_null {A} (v : option A) : cond :=
  Some (match v with None => true | Some _ => false end).

Definition is_not_null {A} (v : option A) : cond :=
  Some (match v with None => false | Some _ => true end).

(** [a = b] on text, under a binary collation. *)
Definition eq_str (a b : option string) : cond :=
  match a, b with
  | Some x, Some y => Some (PyStr.eqb x y)
  | _, _ => None
  end.

Definition eq_Z (a b : option Z) : cond :=
  match a, b with
  | Some x, Some y => Some (x =? y)%Z
  | _, _ => None
  end.

Definition gt_Z (a b : option Z) : cond :=
  match a, b with
  | Some x, Some y => Some (y <? x)%Z
  | _, _ => None
  end.

(** [LOWER(TRIM(v))]. *)
Definition lower_trim (v : option string) : option string :=
  (fun s => PyStr.lower (PyStr.sql_trim s)) <$> v.

(** [TRIM(v)]. *)
Definition trim (v : option string) : option string := PyStr.sql_trim <$> v.

(** [v != ''] and [v = '']. *)
Definition ne_empty (v : option string) : cond :=
  not_ (eq_str v (Some EmptyString)).

End Sql.

(** ** Tables *)

Module Db.

(** [entity_master]: the columns the core reads. *)
Record entity_master_row := {
  ent_id : Z;
  ent_code : option string;
  parent_entity_id : option Z
}.

(** [entity_forex_rates]: one row per (entity, currency, financial year). *)
Record entity_forex_rate := {
  efr_entity_id : Z;
  efr_currency : option string;
  efr_financial_year : option string;
  efr_opening_rate : option float;
  efr_closing_rate : option float
}.

(** [forex_master]: the legacy, append-only rate history.  [updated_at] is
    counted in seconds from 1900-01-01 00:00:00. *)
Record forex_master_row := {
  fx_id : Z;
  fm_currency : option string;
  fm_initial_rate : option float;
  fm_latest_rate : option float;
  fm_month : option string;
  fm_updated_at : option Z
}.

(** [code_master]: the category mapping. *)
Record code_master_row := {
  code_id : Z;
  RawParticulars : option string;
  cm_mainCategory : option string;
  cm_category1 : option string;
  cm_category2 : option string;
  cm_category3 : option string;
  cm_category4 : option string;
  cm_category5 : option string
}.

(** [final_structured]: the derived ledger. *)
Record final_structured_row := {
  sl_no : Z;
  Particular : option string;
  entityName : option string;
  entityCode : option string;
  localCurrencyCode : option string;
  transactionAmount : option float;
  Month : option string;
  selectedMonth : option string;
  mainCategory : option string;
  category1 : option string;
  category2 : option string;
  category3 : option string;
  category4 : option string;
  category5 : option string;
  Year : option Z;
  financial_year : option string;
  Avg_Fx_Rt : option float;
  transactionAmountUSD : option float
}.

(** [financial_year_master]; a date is the triple (year, month, day). *)
Definition date := (Z * Z * Z)%type.

Record financial_year_period := {
  fy_id : Z;
  fy_label : option string;
  start_date : date;
  end_date : date;
  is_active : bool
}.

Record database := {
  entity_master : list entity_master_row;
  entity_forex_rates : list entity_forex_rate;
  forex_master : list forex_master_row;
  code_master : list code_master_row;
  final_structured : list final_structured_row;
  financial_year_master : list financial_year_period
}.

Definition with_final_structured (db : database)
    (t : list final_structured_row) : database :=
  {| entity_master := entity_master db;
     entity_forex_rates := entity_forex_rates db;
     forex_master := forex_master db;
     code_master := code_master db;
     final_structured := t;
     financial_year_master := financial_year_master db |}.

End Db.

(** ** routes/forex.py *)

Module Forex.
Import Db.

(** [format_financial_year]: ending year 2024 gives "2024-25". *)
Definition format_financial_year (ending_year : Z) : string :=
  let next_year := ending_year + 1 in
  PyStr.of_Z ending_year +:+ "-" +:+ PyStr.last2 (PyStr.of_Z next_year).

(** [parse_financial_year] on a string: "2024-25" gives 2024; a string
    that is a plain integer gives that integer; anything else [None]. *)
Definition parse_financial_year (fy_string : string) : option Z :=
  let first_part :=
    if PyStr.contains "-" fy_string then
      match PyStr.split_on "-" fy_string with
      | [a; _] => PyStr.to_int a
      | _ => None
      end
    else None in
  match first_part with
  | Some n => Some n
  | None => PyStr.to_int fy_string
  end.

(** The result dictionary of [get_entity_fy_forex_rate]. *)
Record fy_rates := {
  opening_rate : option float;
  closing_rate : option float
}.

(** [get_entity_fy_forex_rate] for an integer financial year: the first
    row of the entity and (upper-cased) currency whose financial year is
    stored either as "2024-25" or as "2024". *)
Definition get_entity_fy_forex_rate (t : list entity_forex_rate)
    (entity_id : Z) (currency : string) (financial_year : Z) : option fy_rates :=
  let financial_year_str := format_financial_year financial_year in
  let hit (r : entity_forex_rate) :=
    Sql.holds
      (Sql.and_ (Some (efr_entity_id r =? entity_id))
         (Sql.and_ (Sql.eq_str (efr_currency r) (Some (PyStr.upper currency)))
            (Sql.or_ (Sql.eq_str (efr_financial_year r) (Some financial_year_str))
               (Sql.eq_str (efr_financial_year r)
                  (Some (PyStr.of_Z financial_year)))))) in
  (fun r => {| opening_rate := efr_opening_rate r;
               closing_rate := efr_closing_rate r |})
    <$> List.find hit t.

(** [COALESCE(updated_at, '1900-01-01')]. *)
Definition stamp (r : forex_master_row) : Z :=
  match fm_updated_at r with Some t => t | None => 0 end.

(** [a] comes before [b] under
    [ORDER BY COALESCE(updated_at, '1900-01-01') DESC, fx_id DESC]. *)
Definition newer (a b : forex_master_row) : bool :=
  (stamp b <? stamp a) || ((stamp a =? stamp b) && (fx_id b <? fx_id a)).

Definition pick_newer (best : option forex_master_row) (r : forex_master_row)
    : option forex_master_row :=
  match best with
  | None => Some r
  | Some b => if newer r b then Some r else Some b
  end.

(** [_get_latest_row_for_currency]: of the rows of the currency, the one
    that sorts first ([LIMIT 1]). *)
Definition _get_latest_row_for_currency (t : list forex_master_row)
    (currency : string) : option forex_master_row :=
  foldl pick_newer None
    (List.filter (fun r => Sql.holds (Sql.eq_str (fm_currency r) (Some currency))) t).

End Forex.

(** ** routes/structure_data.py: the FX cache and the rate computation *)

Module StructureData.
Import Db Forex.

(** A result row as the Python code sees it: a dictionary from column
    names to values.  A key that the query did not select reads as [None]
    through [row.get(key)], like a NULL value; only for
    ["transactionAmount"] does the code tell the two apart, so that field
    is [None] when the key is absent and [Some v] when it is present. *)
Record row := {
  row_sl_no : option Z;
  row_localCurrencyCode : option string;
  row_entity_id : option Z;
  row_EntityID : option Z;
  row_entityCode : option string;
  row_entity_code : option string;
  row_financial_year : option string;
  row_Year : option Z;
  row_year : option Z;
  row_mainCategory : option string;
  row_category1 : option string;
  row_transactionAmount : option (option float);
  row_amount : option float;
  row_Avg_Fx_Rt : option float;
  row_transactionAmountUSD : option float
}.

(** [row["Avg_Fx_Rt"] = rate] followed, when [usd] is a number, by
    [row["transactionAmountUSD"] = usd]. *)
Definition set_rate (r : row) (rate : float) (usd : option float) : row :=
  {| row_sl_no := row_sl_no r;
     row_localCurrencyCode := row_localCurrencyCode r;
     row_entity_id := row_entity_id r;
     row_EntityID := row_EntityID r;
     row_entityCode := row_entityCode r;
     row_entity_code := row_entity_code r;
     row_financial_year := row_financial_year r;
     row_Year := row_Year r;
     row_year := row_year r;
     row_mainCategory := row_mainCategory r;
     row_category1 := row_category1 r;
     row_transactionAmount := row_transactionAmount r;
     row_amount := row_amount r;
     row_Avg_Fx_Rt := Some rate;
     row_transactionAmountUSD :=
       match usd with Some u => Some u | None => row_transactionAmountUSD r end |}.

(** One entry of the cache dictionary. *)
Record fx_entry := {
  fx_source : string;
  fx_entity_id : option Z;
  fx_currency : string;
  fx_currency_used : option string;
  fx_financial_year : option Z;
  fx_opening_rate : option float;
  fx_closing_rate : option float;
  fx_initial_rate : option float;
  fx_latest_rate : option float
}.

Abbreviation forex_cache := (gmap string fx_entry).

(** [f"{entity_id}_{curr}_{fy}"] and [f"legacy_{curr}"]. *)
Definition entity_key (entity_id : Z) (curr : string) (fy : Z) : string :=
  PyStr.of_Z entity_id +:+ "_" +:+ curr +:+ "_" +:+ PyStr.of_Z fy.
Definition legacy_key (curr : string) : string := "legacy_" +:+ curr.

(** [SELECT ent_id FROM entity_master WHERE ent_code = %s LIMIT 1]. *)
Definition entity_id_of_code (em : list entity_master_row) (entity_code : string)
    : option Z :=
  ent_id <$> List.find
    (fun e => Sql.holds (Sql.eq_str (ent_code e) (Some entity_code))) em.

(** The entity id of a row: the row's own, else the one its entity code
    resolves to. *)
Definition row_entity (em : list entity_master_row) (r : row) : option Z :=
  let entity_id := Py.or_Z (row_entity_id r) (row_EntityID r) in
  let entity_code := Py.or_str (row_entityCode r) (row_entity_code r) in
  if Py.truthy_str entity_code && negb (Py.truthy_Z entity_id) then
    match entity_id_of_code em (default EmptyString entity_code) with
    | Some i => Some i
    | None => entity_id
    end
  else entity_id.

(** The financial year of a row: the "financial_year" text parsed, else
    the "Year" (or "year") column. *)
Definition row_fy (r : row) : option Z :=
  let financial_year :=
    if Py.truthy_str (row_financial_year r)
    then parse_financial_year (default EmptyString (row_financial_year r))
    else None in
  if negb (Py.truthy_Z financial_year)
  then Py.or_Z (row_Year r) (row_year r)
  else financial_year.

(** [(row.get("localCurrencyCode") or "").strip()]. *)
Definition row_curr (r : row) : string :=
  PyStr.strip (Py.str_or_empty (row_localCurrencyCode r)).

Definition nonempty (s : string) : bool :=
  match s with EmptyString => false | String _ _ => true end.

(** First loop of [_build_forex_cache]: the set of (entity, currency,
    financial year) triples and the set of currencies of the batch. *)
Definition collect_row (em : list entity_master_row)
    (acc : gset (Z * string * Z) * gset string) (r : row)
    : gset (Z * string * Z) * gset string :=
  let '(entity_currency_fy, currencies) := acc in
  let curr := row_curr r in
  let currencies :=
    if nonempty curr then {[PyStr.upper curr]} ∪ currencies else currencies in
  let entity_id := row_entity em r in
  let financial_year := row_fy r in
  let entity_currency_fy :=
    match entity_id, financial_year with
    | Some e, Some fy =>
        if negb (e =? 0) && negb (fy =? 0) && nonempty curr
        then {[(e, PyStr.upper curr, fy)]} ∪ entity_currency_fy
        else entity_currency_fy
    | _, _ => entity_currency_fy
    end in
  (entity_currency_fy, currencies).

Definition collect (em : list entity_master_row) (rows : list row)
    : gset (Z * string * Z) * gset string :=
  foldl (collect_row em) (∅, ∅) rows.

(** Body of the second loop: the lookup for the exact year, then for the
    next year, then for the previous one; the year that answered names the
    cache entry. *)
Definition lookup_fy (t : list entity_forex_rate) (entity_id : Z) (curr : string)
    (fy : Z) : option fy_rates * string * Z :=
  let cache_key := entity_key entity_id curr fy in
  let fy_rates := get_entity_fy_forex_rate t entity_id curr fy in
  let '(fy_rates, cache_key, fy) :=
    if negb (bool_decide (is_Some fy_rates)) then
      let try_next_fy := fy + 1 in
      let fy_rates := get_entity_fy_forex_rate t entity_id curr try_next_fy in
      if bool_decide (is_Some fy_rates)
      then (fy_rates, entity_key entity_id curr try_next_fy, try_next_fy)
      else (fy_rates, cache_key, fy)
    else (fy_rates, cache_key, fy) in
  if negb (bool_decide (is_Some fy_rates)) then
    let try_prev_fy := fy - 1 in
    let fy_rates := get_entity_fy_forex_rate t entity_id curr try_prev_fy in
    if bool_decide (is_Some fy_rates)
    then (fy_rates, entity_key entity_id curr try_prev_fy, try_prev_fy)
    else (fy_rates, cache_key, fy)
  else (fy_rates, cache_key, fy).

Definition entity_entry (entity_id : Z) (curr : string) (fy : Z) (fr : fy_rates)
    : fx_entry :=
  {| fx_source := "entity_forex_rates";
     fx_entity_id := Some entity_id;
     fx_currency := curr;
     fx_currency_used := None;
     fx_financial_year := Some fy;
     fx_opening_rate := opening_rate fr;
     fx_closing_rate := closing_rate fr;
     fx_initial_rate := opening_rate fr;
     fx_latest_rate := closing_rate fr |}.

Definition entity_step (t : list entity_forex_rate)
    (acc : forex_cache * gset string) (k : Z * string * Z)
    : forex_cache * gset string :=
  let '(cache, found_entity_rates) := acc in
  let '(entity_id, curr, fy) := k in
  match lookup_fy t entity_id curr fy with
  | (Some fr, cache_key, fy) =>
      (<[cache_key := entity_entry entity_id curr fy fr]> cache,
       {[PyStr.upper curr]} ∪ found_entity_rates)
  | (None, _, _) => (cache, found_entity_rates)
  end.

(** The codes tried in the legacy table for a currency. *)
Definition variants (curr : string) : list string :=
  [curr]
  ++ (if (String.length curr =? 3)%nat then [curr +:+ "IN"] else [])
  ++ ["USDIN"; "USD"].

(** The inner loop over the variants: codes already seen are skipped, the
    first code with a row ends the loop. *)
Fixpoint first_legacy (t : list forex_master_row) (codes : list string)
    (seen : gset string) : option (string * forex_master_row) :=
  match codes with
  | [] => None
  | code :: rest =>
      if bool_decide (code ∈ seen) then first_legacy t rest seen
      else match _get_latest_row_for_currency t code with
           | Some fx_row => Some (code, fx_row)
           | None => first_legacy t rest ({[code]} ∪ seen)
           end
  end.

Definition legacy_entry (curr code : string) (fx_row : forex_master_row) : fx_entry :=
  {| fx_source := "forex_master";
     fx_entity_id := None;
     fx_currency := curr;
     fx_currency_used := Some code;
     fx_financial_year := None;
     fx_opening_rate := fm_initial_rate fx_row;
     fx_closing_rate := fm_latest_rate fx_row;
     fx_initial_rate := fm_initial_rate fx_row;
     fx_latest_rate := fm_latest_rate fx_row |}.

Definition legacy_step (t : list forex_master_row) (cache : forex_cache)
    (curr : string) : forex_cache :=
  match first_legacy t (variants curr) ∅ with
  | Some (code, fx_row) => <[legacy_key curr := legacy_entry curr code fx_row]> cache
  | None => cache
  end.

(** The second loop of [_build_forex_cache]: the FY-specific entries and
    [found_entity_rates]. *)
Definition entity_pass (db : database) (rows : list row) : forex_cache * gset string :=
  foldl (entity_step (entity_forex_rates db)) (∅, ∅)
    (elements (collect (entity_master db) rows).1).

(** [_build_forex_cache]. *)
Definition _build_forex_cache (db : database) (rows : list row) : forex_cache :=
  let currencies := (collect (entity_master db) rows).2 in
  let '(cache, found_entity_rates) := entity_pass db rows in
  let currencies_needing_fallback := currencies ∖ found_entity_rates in
  foldl (legacy_step (forex_master db)) cache
    (elements currencies_needing_fallback).

(** The cache entry of a row: the entity key for the row's year, for the
    next year, for the previous year, then the legacy key, then the bare
    currency code. *)
Definition find_fx (em : list entity_master_row) (forex_cache : forex_cache)
    (r : row) : option fx_entry :=
  let curr := PyStr.upper (row_curr r) in
  let entity_id := row_entity em r in
  let financial_year := row_fy r in
  let fx :=
    match entity_id, financial_year with
    | Some e, Some fy =>
        if negb (e =? 0) && negb (fy =? 0) then
          let fx := forex_cache !! entity_key e curr fy in
          let fx :=
            match fx with
            | Some _ => fx
            | None => let try_next_fy := fy + 1 in
                      forex_cache !! entity_key e curr try_next_fy
            end in
          match fx with
          | Some _ => fx
          | None => let try_prev_fy := fy - 1 in
                    forex_cache !! entity_key e curr try_prev_fy
          end
        else None
    | _, _ => None
    end in
  match fx with
  | Some _ => fx
  | None =>
      match forex_cache !! legacy_key curr with
      | Some e => Some e
      | None => forex_cache !! curr
      end
  end.

(** [(row.get("mainCategory") or "").strip()]. *)
Definition main_category (r : row) : string :=
  PyStr.strip (Py.str_or_empty (row_mainCategory r)).

Definition is_balance_sheet (r : row) : bool :=
  let brd_cls := PyStr.lower (PyStr.strip (Py.str_or_empty (row_category1 r))) in
  let main_category_lower := PyStr.lower (main_category r) in
  PyStr.contains "balance sheet" brd_cls
  || PyStr.contains "balance sheet" main_category_lower.

Definition is_pl (r : row) : bool :=
  let brd_cls := PyStr.lower (PyStr.strip (Py.str_or_empty (row_category1 r))) in
  let main_category_lower := PyStr.lower (main_category r) in
  PyStr.contains "profit and loss" brd_cls
  || PyStr.contains "profit & loss" brd_cls
  || PyStr.contains "p&l" brd_cls
  || PyStr.contains "profit and loss" main_category_lower
  || PyStr.contains "profit & loss" main_category_lower
  || PyStr.contains "p&l" main_category_lower.

(** The rate of a row under a cache entry; [None] is the [continue] of
    the loop. *)
Definition fx_rate (r : row) (fx : fx_entry) : option float :=
  let opening_rate := Py.or_float (fx_opening_rate fx) (fx_initial_rate fx) in
  let closing_rate := Py.or_float (fx_closing_rate fx) (fx_latest_rate fx) in
  if is_pl r then
    match opening_rate, closing_rate with
    | Some o, Some c => Some ((o + c) / 2)%float
    | None, Some c => Some c
    | _, None => None
    end
  else
    match closing_rate with
    | Some c => Some c
    | None => None
    end.

(** The rate a row receives, if any: the gate on [mainCategory], the
    cache entry, the rate. *)
Definition row_rate (em : list entity_master_row) (forex_cache : forex_cache)
    (r : row) : option float :=
  if negb (nonempty (main_category r)) then None
  else match find_fx em forex_cache r with
       | None => None
       | Some fx => fx_rate r fx
       end.

(** One iteration of the loop of [_apply_forex_rates]. *)
Definition apply_row (em : list entity_master_row) (forex_cache : forex_cache)
    (r : row) : row * Z :=
  match row_rate em forex_cache r with
  | None => (r, 0)
  | Some rate =>
      let amt :=
        match row_transactionAmount r with
        | Some v => v
        | None => row_amount r
        end in
      (set_rate r rate ((fun a => (a * rate)%float) <$> amt), 1)
  end.

(** [_apply_forex_rates]: the rows as the loop leaves them, and the count
    it returns. *)
Definition _apply_forex_rates (em : list entity_master_row) (rows : list row)
    (forex_cache : forex_cache) : list row * Z :=
  foldr (fun r '(out, updated) =>
           let '(r', n) := apply_row em forex_cache r in (r' :: out, updated + n))
        ([], 0) rows.

(** An element of [updates_to_save]. *)
Record fx_update := {
  upd_sl_no : Z;
  upd_avg_fx_rt : float;
  upd_transaction_amount_usd : option float
}.

(** One iteration of the loop of [_calculate_and_save_forex_rates]. *)
Definition calculate_row (em : list entity_master_row) (forex_cache : forex_cache)
    (save_to_db : bool) (r : row) : row * list fx_update * Z :=
  match row_rate em forex_cache r with
  | None => (r, [], 0)
  | Some rate =>
      let amt := match row_transactionAmount r with Some v => v | None => None end in
      let transaction_amount_usd := (fun a => (a * rate)%float) <$> amt in
      let r' := set_rate r rate transaction_amount_usd in
      let saved :=
        if save_to_db then
          match row_sl_no r with
          | Some sl => if negb (sl =? 0)
                       then [{| upd_sl_no := sl; upd_avg_fx_rt := rate;
                                upd_transaction_amount_usd := transaction_amount_usd |}]
                       else []
          | None => []
          end
        else [] in
      (r', saved, 1)
  end.

(** The row with [Avg_Fx_Rt] and [transactionAmountUSD] assigned. *)
Definition with_fx (f : final_structured_row) (rate : option float)
    (usd : option float) : final_structured_row :=
  {| sl_no := sl_no f; Particular := Particular f;
     entityName := entityName f; entityCode := entityCode f;
     localCurrencyCode := localCurrencyCode f;
     transactionAmount := transactionAmount f;
     Month := Month f; selectedMonth := selectedMonth f;
     mainCategory := mainCategory f;
     category1 := category1 f; category2 := category2 f;
     category3 := category3 f; category4 := category4 f;
     category5 := category5 f;
     Year := Year f; financial_year := financial_year f;
     Avg_Fx_Rt := rate;
     transactionAmountUSD := usd |}.

(** The row with its six category columns assigned. *)
Definition with_categories (f : final_structured_row)
    (m c1 c2 c3 c4 c5 : option string) : final_structured_row :=
  {| sl_no := sl_no f; Particular := Particular f;
     entityName := entityName f; entityCode := entityCode f;
     localCurrencyCode := localCurrencyCode f;
     transactionAmount := transactionAmount f;
     Month := Month f; selectedMonth := selectedMonth f;
     mainCategory := m;
     category1 := c1; category2 := c2; category3 := c3;
     category4 := c4; category5 := c5;
     Year := Year f; financial_year := financial_year f;
     Avg_Fx_Rt := Avg_Fx_Rt f;
     transactionAmountUSD := transactionAmountUSD f |}.

(** [UPDATE final_structured SET Avg_Fx_Rt = %s, transactionAmountUSD = %s
    WHERE sl_no = %s]. *)
Definition save_update (u : fx_update) (t : list final_structured_row)
    : list final_structured_row :=
  (fun f =>
     if sl_no f =? upd_sl_no u
     then with_fx f (Some (upd_avg_fx_rt u)) (upd_transaction_amount_usd u)
     else f) <$> t.

(** The loop of [_calculate_and_save_forex_rates]: the rows as it leaves
    them, [updates_to_save] and [updated_count]. *)
Definition calc_loop (em : list entity_master_row) (forex_cache : forex_cache)
    (save_to_db : bool) (rows : list row) : list row * list fx_update * Z :=
  foldr (fun r '(out, ups, n) =>
           let '(r', u, k) := calculate_row em forex_cache save_to_db r in
           (r' :: out, u ++ ups, n + k))
        ([], [], 0) rows.

(** [_calculate_and_save_forex_rates]: the rows as the loop leaves them,
    the database after the batch update, and the count returned. *)
Definition _calculate_and_save_forex_rates (db : database) (rows : list row)
    (forex_cache : forex_cache) (save_to_db : bool)
    : list row * database * Z :=
  let '(rows', updates_to_save, updated_count) :=
    calc_loop (entity_master db) forex_cache save_to_db rows in
  (rows',
   with_final_structured db
     (foldl (fun t u => save_update u t) (final_structured db) updates_to_save),
   updated_count).

(** The dictionary of a row selected as
    [SELECT sl_no, Particular, mainCategory, category1, localCurrencyCode,
    Avg_Fx_Rt, transactionAmount FROM final_structured]. *)
Definition select_fx_columns (f : final_structured_row) : row :=
  {| row_sl_no := Some (sl_no f);
     row_localCurrencyCode := localCurrencyCode f;
     row_entity_id := None;
     row_EntityID := None;
     row_entityCode := None;
     row_entity_code := None;
     row_financial_year := None;
     row_Year := None;
     row_year := None;
     row_mainCategory := mainCategory f;
     row_category1 := category1 f;
     row_transactionAmount := Some (transactionAmount f);
     row_amount := None;
     row_Avg_Fx_Rt := Avg_Fx_Rt f;
     row_transactionAmountUSD := None |}.

(** *** [_sync_final_structured_with_code_master] *)

(** [fs.col IS NULL OR TRIM(fs.col) = '']. *)
Definition null_or_blank (v : option string) : Sql.cond :=
  Sql.or_ (Sql.is_null v) (Sql.eq_str (Sql.trim v) (Some EmptyString)).

(** The [WHERE] clause of the sync. *)
Definition some_category_missing (f : final_structured_row) : Sql.cond :=
  Sql.or_ (null_or_blank (mainCategory f))
    (Sql.or_ (null_or_blank (category1 f))
       (Sql.or_ (null_or_blank (category2 f))
          (Sql.or_ (null_or_blank (category3 f))
             (Sql.or_ (null_or_blank (category4 f))
                (null_or_blank (category5 f)))))).

(** The [ON] clause of the sync. *)
Definition particular_matches (f : final_structured_row) (cm : code_master_row)
    : Sql.cond :=
  Sql.eq_str (Sql.lower_trim (Particular f)) (Sql.lower_trim (RawParticulars cm)).

(** The join gives a ledger row the first mapping with its particular;
    the row is updated once. *)
Definition sync_row (cms : list code_master_row) (f : final_structured_row)
    : final_structured_row :=
  if Sql.holds (some_category_missing f) then
    match List.find (fun cm => Sql.holds (particular_matches f cm)) cms with
    | Some cm =>
        with_categories f (cm_mainCategory cm) (cm_category1 cm)
          (cm_category2 cm) (cm_category3 cm) (cm_category4 cm) (cm_category5 cm)
    | None => f
    end
  else f.

Definition _sync_final_structured_with_code_master (db : database) : database :=
  with_final_structured db (sync_row (code_master db) <$> final_structured db).

(** *** [recalculate_avg_fx_rate] *)

(** [s.endswith("IN")] and [s[:-2]]. *)
Definition ends_with_IN (s : string) : bool :=
  PyStr.eqb (PyStr.last2 s) "IN".
Definition drop_last2 (s : string) : string :=
  String.substring 0 (String.length s - 2) s.

Definition matching_currencies (currency : string) : list string :=
  if ends_with_IN currency then [drop_last2 currency; currency]
  else [currency] ++ (if (String.length currency =? 3)%nat
                      then [currency +:+ "IN"] else []).

(** [UPPER(TRIM(localCurrencyCode)) = %s OR ...], one disjunct per
    parameter. *)
Definition currency_conditions (params : list string) (f : final_structured_row)
    : Sql.cond :=
  match params with
  | [] => Some false
  | p :: ps =>
      foldl (fun c q =>
               Sql.or_ c (Sql.eq_str (PyStr.upper <$> Sql.trim (localCurrencyCode f))
                                     (Some q)))
            (Sql.eq_str (PyStr.upper <$> Sql.trim (localCurrencyCode f)) (Some p))
            ps
  end.

(** [col IS NOT NULL AND (LOWER(TRIM(col)) = 'profit and loss' OR
    LOWER(TRIM(col)) = 'profit & loss' OR LOWER(TRIM(col)) = 'p&l')]. *)
Definition names_pl (v : option string) : Sql.cond :=
  Sql.and_ (Sql.is_not_null v)
    (Sql.or_ (Sql.eq_str (Sql.lower_trim v) (Some "profit and loss"))
       (Sql.or_ (Sql.eq_str (Sql.lower_trim v) (Some "profit & loss"))
          (Sql.eq_str (Sql.lower_trim v) (Some "p&l")))).

Definition sql_is_pl (f : final_structured_row) : Sql.cond :=
  Sql.or_ (names_pl (category1 f)) (names_pl (mainCategory f)).

(** The part of the two [WHERE] clauses that selects categorised rows of
    the currency. *)
Definition recalc_scope (params : list string) (f : final_structured_row)
    : Sql.cond :=
  Sql.and_ (Sql.is_not_null (mainCategory f))
    (Sql.and_ (Sql.ne_empty (Sql.trim (mainCategory f)))
       (Sql.and_ (Sql.is_not_null (transactionAmount f))
          (currency_conditions params f))).

(** [SET Avg_Fx_Rt = %s, transactionAmountUSD = transactionAmount * %s]. *)
Definition set_rate_sql (rate : float) (f : final_structured_row)
    : final_structured_row :=
  with_fx f (Some rate) ((fun a => (a * rate)%float) <$> transactionAmount f).

Definition update_bs (params : list string) (latest_rate : float)
    (t : list final_structured_row) : list final_structured_row :=
  (fun f => if Sql.holds (Sql.and_ (recalc_scope params f) (Sql.not_ (sql_is_pl f)))
            then set_rate_sql latest_rate f else f) <$> t.

Definition update_pl (params : list string) (avg_rate_pl : float)
    (t : list final_structured_row) : list final_structured_row :=
  (fun f => if Sql.holds (Sql.and_ (recalc_scope params f) (sql_is_pl f))
            then set_rate_sql avg_rate_pl f else f) <$> t.

(** [recalculate_avg_fx_rate] (and [recalculate_avg_fx_rate_internal] of
    routes/forex.py, which runs the same two statements): the HTTP status
    and the database it leaves. *)
Definition recalculate_avg_fx_rate (db : database) (payload_currency : option string)
    : Z * database :=
  let currency :=
    PyStr.strip (PyStr.upper
      (default EmptyString (Py.or_str payload_currency (Some "USDIN")))) in
  match _get_latest_row_for_currency (forex_master db) currency with
  | None => (404, db)
  | Some forex_row =>
      let initial_rate := fm_initial_rate forex_row in
      let latest_rate := fm_latest_rate forex_row in
      match initial_rate, latest_rate with
      | None, None => (400, db)
      | _, _ =>
          let avg_rate_pl :=
            match initial_rate, latest_rate with
            | Some i, Some l => Some ((i + l) / 2)%float
            | _, _ => None
            end in
          let currency_params := PyStr.upper <$> matching_currencies currency in
          let t := final_structured db in
          let t := match latest_rate with
                   | Some l => update_bs currency_params l t
                   | None => t
                   end in
          let t := match avg_rate_pl with
                   | Some a => update_pl currency_params a t
                   | None => t
                   end in
          (200, with_final_structured db t)
      end
  end.

(** *** [update_by_particular] *)

(** [v or None] on a text value. *)
Definition or_none (v : option string) : option string := Py.or_str v None.

(** [... WHERE LOWER(TRIM(RawParticulars)) = LOWER(TRIM(%s))
    ORDER BY code_id DESC LIMIT 1]. *)
Definition latest_code (cms : list code_master_row) (particular : string)
    : option code_master_row :=
  foldl (fun best cm =>
           match best with
           | None => Some cm
           | Some b => if code_id b <? code_id cm then Some cm else Some b
           end)
        None
        (List.filter
           (fun cm => Sql.holds (Sql.eq_str (Sql.lower_trim (RawParticulars cm))
                                            (Sql.lower_trim (Some particular))))
           cms).

Definition has_particular (particular : string) (f : final_structured_row) : bool :=
  Sql.holds (Sql.eq_str (Sql.lower_trim (Particular f))
                        (Sql.lower_trim (Some particular))).

Definition update_by_particular (db : database) (payload_particular : option string)
    : Z * database :=
  let particular := PyStr.strip (Py.str_or_empty payload_particular) in
  if negb (nonempty particular) then (400, db)
  else
    match latest_code (code_master db) particular with
    | None => (404, db)
    | Some code_result =>
        let t :=
          (fun f =>
             if has_particular particular f
             then with_categories f
                    (or_none (cm_mainCategory code_result))
                    (or_none (cm_category1 code_result))
                    (or_none (cm_category2 code_result))
                    (or_none (cm_category3 code_result))
                    (or_none (cm_category4 code_result))
                    (or_none (cm_category5 code_result))
             else f) <$> final_structured db in
        let db := with_final_structured db t in
        let updated_rows :=
          select_fx_columns <$> List.filter (has_particular particular) t in
        let rows_with_main_category :=
          List.filter (fun r => nonempty (main_category r)) updated_rows in
        match rows_with_main_category with
        | [] => (200, db)
        | _ =>
            let forex_cache := _build_forex_cache db rows_with_main_category in
            let '(_, db, _) :=
              _calculate_and_save_forex_rates db rows_with_main_category
                forex_cache true in
            (200, db)
        end
    end.

(** *** The entity hierarchy *)

(** [SELECT ent_id FROM entity_master WHERE parent_entity_id = %s]. *)
Definition children_of (t : list entity_master_row) (entity_id : Z)
    : list entity_master_row :=
  List.filter (fun r => Sql.holds (Sql.eq_Z (parent_entity_id r) (Some entity_id))) t.

(** One iteration of the loop over the children: a child with a truthy id
    contributes its own descendants.  [None] stands for the
    [RecursionError] of a call that ran out of stack. *)
Definition extend_with_child (descend : Z -> option (list Z))
    (descendant_ids : option (list Z)) (child : entity_master_row)
    : option (list Z) :=
  match descendant_ids with
  | None => None
  | Some ids =>
      let child_id := ent_id child in
      if Py.truthy_Z (Some child_id) then
        match descend child_id with
        | Some child_descendants => Some (ids ++ child_descendants)
        | None => None
        end
      else Some ids
  end.

(** The loop that removes duplicates and keeps the first occurrences. *)
Fixpoint unique_ids (seen : gset Z) (descendant_ids : list Z) : list Z :=
  match descendant_ids with
  | [] => []
  | eid :: rest =>
      if bool_decide (eid ∈ seen) then unique_ids seen rest
      else eid :: unique_ids ({[eid]} ∪ seen) rest
  end.

(** [_get_all_descendant_entity_ids]; [depth] is the number of nested
    calls the interpreter still allows. *)
Fixpoint _get_all_descendant_entity_ids (depth : nat) (t : list entity_master_row)
    (entity_id : Z) : option (list Z) :=
  match depth with
  | O => None
  | S depth' =>
      unique_ids ∅
        <$> foldl (extend_with_child (_get_all_descendant_entity_ids depth' t))
              (Some [entity_id]) (children_of t entity_id)
  end.

(** [_get_all_descendant_entity_codes]. *)
Definition _get_all_descendant_entity_codes (depth : nat) (t : list entity_master_row)
    (entity_id : Z) : option (list string) :=
  match _get_all_descendant_entity_ids depth t entity_id with
  | None => None
  | Some descendant_ids =>
      match descendant_ids with
      | [] => Some []
      | _ =>
          let results :=
            List.filter (fun r => bool_decide (ent_id r ∈ descendant_ids)) t in
          Some (omap (fun r => if Py.truthy_str (ent_code r) then ent_code r else None)
                  results)
      end
  end.

End StructureData.

(** ** routes/forex.py: the route that writes the legacy table *)

Module ForexRoutes.
Import Db Forex StructureData.

(** A rate field of a payload: absent (or empty), a value that is not a
    number, or a number. *)
Inductive rate_field :=
| No_rate
| Bad_rate
| Rate (x : float).

(** [_to_decimal]; the outer [None] stands for [ValueError]. *)
Definition _to_decimal (val : rate_field) : option (option float) :=
  match val with
  | No_rate => Some None
  | Bad_rate => None
  | Rate x => Some (Some x)
  end.

Definition with_forex_master (db : database) (t : list forex_master_row) : database :=
  {| entity_master := entity_master db;
     entity_forex_rates := entity_forex_rates db;
     forex_master := t;
     code_master := code_master db;
     final_structured := final_structured db;
     financial_year_master := financial_year_master db |}.

(** [INSERT INTO forex_master (currency, initial_rate, latest_rate, month,
    updated_at) VALUES (%s, %s, %s, %s, CURDATE())]; a column the
    statement leaves out is NULL.  [new_id] is the id AUTO_INCREMENT gives
    the row and [today] the current date. *)
Definition insert_forex (db : database) (new_id today : Z) (currency : string)
    (initial_rate latest_rate : option float) (month : option string) : database :=
  with_forex_master db
    (forex_master db ++
       [ {| fx_id := new_id; fm_currency := Some currency;
            fm_initial_rate := initial_rate; fm_latest_rate := latest_rate;
            fm_month := month; fm_updated_at := Some today |} ]).

(** [recalculate_avg_fx_rate_internal]: the database it leaves. *)
Definition recalculate_avg_fx_rate_internal (db : database) (currency : string)
    : database :=
  (recalculate_avg_fx_rate db (Some currency)).2.

(** [upsert_forex] for an authenticated caller: the HTTP status and the
    database it leaves. *)
Definition upsert_forex (db : database) (new_id today : Z) (currency : string)
    (initial_rate latest_rate : rate_field) (month : option string) : Z * database :=
  let currency := PyStr.strip (PyStr.upper currency) in
  if negb (nonempty currency) then (400, db)
  else
    match _to_decimal initial_rate, _to_decimal latest_rate with
    | Some initial_rate_dec, Some latest_rate_dec =>
        let month_stripped := PyStr.strip (Py.str_or_empty month) in
        if bool_decide (is_Some latest_rate_dec) && negb (nonempty month_stripped)
        then (400, db)
        else
          let current_latest := _get_latest_row_for_currency (forex_master db) currency in
          let inserted :=
            match initial_rate_dec, latest_rate_dec with
            | Some i, None =>
                let copy_latest_rate := current_latest ≫= fm_latest_rate in
                let copy_month := current_latest ≫= fm_month in
                match copy_latest_rate, copy_month with
                | Some l, Some m =>
                    Some (insert_forex db new_id today currency (Some i) (Some l) (Some m))
                | Some l, None =>
                    Some (insert_forex db new_id today currency (Some i) (Some l) None)
                | None, Some m =>
                    Some (insert_forex db new_id today currency (Some i) None (Some m))
                | None, None =>
                    Some (insert_forex db new_id today currency (Some i) None None)
                end
            | _, Some l =>
                let final_initial_rate :=
                  match initial_rate_dec with
                  | Some i => Some i
                  | None => current_latest ≫= fm_initial_rate
                  end in
                match final_initial_rate with
                | Some i =>
                    Some (insert_forex db new_id today currency (Some i) (Some l)
                            (Some month_stripped))
                | None =>
                    Some (insert_forex db new_id today currency None (Some l)
                            (Some month_stripped))
                end
            | None, None => None
            end in
          match inserted with
          | None => (400, db)
          | Some db => (200, recalculate_avg_fx_rate_internal db currency)
          end
    | _, _ => (400, db)
    end.

End ForexRoutes.

(** ** routes/financial_year_master.py *)

Module FinancialYearMaster.
Import Db.

Definition date_leb (a b : date) : bool :=
  let '(ya, ma, da) := a in
  let '(yb, mb, db) := b in
  (ya <? yb) || ((ya =? yb) && ((ma <? mb) || ((ma =? mb) && (da <=? db)))).

Definition date_ltb (a b : date) : bool := negb (date_leb b a).

(** [is_active = 1 AND %s >= start_date AND %s <= end_date]. *)
Definition covers (d : date) (p : financial_year_period) : bool :=
  is_active p && date_leb (start_date p) d && date_leb d (end_date p).

(** [validate_date_against_fy_master]: the active period the date falls
    in ([valid] with its [financial_year]), if there is one. *)
Definition validate_date_against_fy_master (t : list financial_year_period)
    (check_date : date) : option financial_year_period :=
  List.find (covers check_date) t.

(** [... WHERE is_active = 1 ORDER BY start_date ASC LIMIT 1]. *)
Definition earliest_active (t : list financial_year_period)
    : option financial_year_period :=
  foldl (fun best p =>
           match best with
           | None => Some p
           | Some b => if date_ltb (start_date p) (start_date b) then Some p else Some b
           end)
        None (List.filter is_active t).

(** The label suggested for a date: January to March belong to the year
    that started the calendar year before. *)
Definition suggested_fy_of (check_date : date) : string :=
  let '(year, month, _) := check_date in
  if month <=? 3
  then PyStr.of_Z (year - 1) +:+ "-" +:+ PyStr.last2 (PyStr.of_Z year)
  else PyStr.of_Z year +:+ "-" +:+ PyStr.last2 (PyStr.of_Z (year + 1)).

(** [check_if_previous_fy]: [is_previous] and [suggested_fy]. *)
Definition check_if_previous_fy (t : list financial_year_period)
    (check_date : date) : bool * option string :=
  match earliest_active t with
  | None => (true, Some (suggested_fy_of check_date))
  | Some earliest_fy =>
      if date_ltb check_date (start_date earliest_fy)
      then (true, Some (suggested_fy_of check_date))
      else (false, None)
  end.

(** [get_current_financial_year]: the active period today falls in
    ([found]), if there is one. *)
Definition get_current_financial_year (t : list financial_year_period)
    (today : date) : option financial_year_period :=
  List.find (covers today) t.

(** *** [check_overlapping_dates] and the routes that call it *)

(** [x BETWEEN a AND b]. *)
Definition between (x a b : date) : bool := date_leb a x && date_leb x b.

(** The [WHERE] clause of the overlap query. *)
Definition overlap_hit (start_date' end_date' : date) (exclude_id : option Z)
    (p : financial_year_period) : bool :=
  is_active p
  && negb (fy_id p =? default 0 exclude_id)
  && (between start_date' (start_date p) (end_date p)
      || between end_date' (start_date p) (end_date p)
      || between (start_date p) start_date' end_date'
      || between (end_date p) start_date' end_date').

Inductive overlap_message :=
| End_date_must_be_after_start_date
| Date_range_overlaps_with_existing_FY (fy : option string)
| No_overlap_found.

(** The dictionary [check_overlapping_dates] returns. *)
Record overlap_check := {
  overlaps : bool;
  overlapping_fy : option string;
  message : overlap_message
}.

Definition check_overlapping_dates (t : list financial_year_period)
    (start_date' end_date' : date) (exclude_id : option Z) : overlap_check :=
  if date_leb end_date' start_date' then
    {| overlaps := true; overlapping_fy := None;
       message := End_date_must_be_after_start_date |}
  else
    match List.find (overlap_hit start_date' end_date' exclude_id) t with
    | Some result =>
        {| overlaps := true; overlapping_fy := fy_label result;
           message := Date_range_overlaps_with_existing_FY (fy_label result) |}
    | None =>
        {| overlaps := false; overlapping_fy := None; message := No_overlap_found |}
    end.

(** A date field of a payload: absent (or empty), a text that is not a
    date, or a date. *)
Inductive date_field :=
| No_date
| Bad_date
| Good_date (d : date).

(** [create_financial_year] for an authenticated caller: the HTTP status
    and the table it leaves.  [new_id] is the id AUTO_INCREMENT gives the
    row. *)
Definition create_financial_year (t : list financial_year_period) (new_id : Z)
    (payload_financial_year : option string) (start_date_str end_date_str : date_field)
    (is_active' : bool) : Z * list financial_year_period :=
  let financial_year := PyStr.strip (Py.str_or_empty payload_financial_year) in
  match StructureData.nonempty financial_year, start_date_str, end_date_str with
  | false, _, _ | _, No_date, _ | _, _, No_date => (400, t)
  | true, Bad_date, _ | true, _, Bad_date => (400, t)
  | true, Good_date start_date', Good_date end_date' =>
      if date_leb end_date' start_date' then (400, t)
      else if overlaps (check_overlapping_dates t start_date' end_date' None)
      then (400, t)
      else if existsb (fun p => Sql.holds (Sql.eq_str (fy_label p) (Some financial_year))) t
      then (400, t)
      else (201, t ++ [ {| fy_id := new_id; fy_label := Some financial_year;
                           start_date := start_date'; end_date := end_date';
                           is_active := is_active' |} ])
  end.

(** The fields of the payload of [update_financial_year] that reach the
    table; [None] is a key the payload does not have. *)
Record update_payload := {
  upd_financial_year : option (option string);
  upd_start_date : date_field;
  upd_end_date : date_field;
  upd_is_active : option bool
}.

(** [update_financial_year]. *)
Definition update_financial_year (t : list financial_year_period) (fy_id' : Z)
    (payload : update_payload) : Z * list financial_year_period :=
  match List.find (fun p => fy_id p =? fy_id') t with
  | None => (404, t)
  | Some current =>
      let financial_year := default (fy_label current) (upd_financial_year payload) in
      let is_active' := default (is_active current) (upd_is_active payload) in
      let start_date' :=
        match upd_start_date payload with
        | No_date => Some (start_date current)
        | Bad_date => None
        | Good_date d => Some d
        end in
      let end_date' :=
        match upd_end_date payload with
        | No_date => Some (end_date current)
        | Bad_date => None
        | Good_date d => Some d
        end in
      match start_date', end_date' with
      | Some start_date', Some end_date' =>
          if date_leb end_date' start_date' then (400, t)
          else if overlaps (check_overlapping_dates t start_date' end_date' (Some fy_id'))
          then (400, t)
          else (200,
                (fun p => if fy_id p =? fy_id'
                          then {| fy_id := fy_id p; fy_label := financial_year;
                                  start_date := start_date'; end_date := end_date';
                                  is_active := is_active' |}
                          else p) <$> t)
      | _, _ => (400, t)
      end
  end.

(** [delete_financial_year]: the row is kept and marked inactive. *)
Definition delete_financial_year (t : list financial_year_period) (fy_id' : Z)
    : Z * list financial_year_period :=
  if existsb (fun p => fy_id p =? fy_id') t then
    (200, (fun p => if fy_id p =? fy_id'
                    then {| fy_id := fy_id p; fy_label := fy_label p;
                            start_date := start_date p; end_date := end_date p;
                            is_active := false |}
                    else p) <$> t)
  else (404, t).

End FinancialYearMaster.

(** ** routes/upload_data.py *)

Module UploadData.
Import Db FinancialYearMaster.

(** *** Amount cells *)

Inductive amount_type := Dr | Cr.

Definition is_digit_or_comma (c : ascii) : bool :=
  PyStr.is_digit c || (PyStr.code c =? 44)%N.

(** The longest prefix of characters satisfying [p], and the rest. *)
Fixpoint span (p : ascii -> bool) (s : string) : string * string :=
  match s with
  | EmptyString => (EmptyString, EmptyString)
  | String c t =>
      if p c then let '(a, b) := span p t in (String c a, b)
      else (EmptyString, s)
  end.

(** [ch?] at the start of [s]: the character is taken when it is there. *)
Definition optional_char (ch : ascii) (s : string) : string * string :=
  match s with
  | String c t => if Ascii.eqb c ch then (String ch EmptyString, t) else (EmptyString, s)
  | EmptyString => (EmptyString, s)
  end.

(** The match of [-?[\d,]+\.?\d*] at the start of [s], if any.  Every
    quantifier is greedy and nothing follows the group that could force
    it to give characters back, so the first attempt decides.  Cells are
    ASCII text here and [\d] is a digit from 0 to 9: a cell written with
    the decimal digits of another script, which [\d] and [float] read as
    well, is outside the embedding. *)
Definition match_here (s : string) : option string :=
  let '(sign, s1) := optional_char "-" s in
  let '(group, s2) := span is_digit_or_comma s1 in
  match group with
  | EmptyString => None
  | _ =>
      let '(dot, s3) := optional_char "." s2 in
      let '(frac, _) := span PyStr.is_digit s3 in
      Some (sign +:+ group +:+ dot +:+ frac)
  end.

(** [re.search(r'-?[\d,]+\.?\d*', s).group()]: the leftmost match. *)
Fixpoint re_search (s : string) : option string :=
  match match_here s with
  | Some m => Some m
  | None => match s with
            | EmptyString => None
            | String _ t => re_search t
            end
  end.

(** [s.replace(',', '')]. *)
Fixpoint remove_commas (s : string) : string :=
  match s with
  | EmptyString => EmptyString
  | String c t => if (PyStr.code c =? 44)%N then remove_commas t
                  else String c (remove_commas t)
  end.

Fixpoint digits_to_Z (acc : Z) (s : string) : Z :=
  match s with
  | EmptyString => acc
  | String c t => digits_to_Z (10 * acc + PyStr.digit_value c) t
  end.

(** The binary64 number nearest to [m / 10^k] (ties to even), with the
    sign [neg]: the quotient is taken with 70 extra bits and a sticky bit
    before it is rounded. *)
Definition float_of_decimal (neg : bool) (m k : Z) : float :=
  match m with
  | Zpos _ =>
      let s := Z.log2_up (10 ^ k) + 70 in
      let q := (m * 2 ^ s) / (10 ^ k) in
      let sticky := if ((m * 2 ^ s) mod (10 ^ k) =? 0) then 0 else 1 in
      SF2Prim (SpecFloat.binary_round prec emax neg (Z.to_pos (2 * q + sticky))
                 (- s - 1))
  | _ => if neg then neg_zero else zero
  end.

(** [float(s)] for the strings the pattern can leave once the commas are
    gone: an optional minus sign, digits, an optional point, digits.
    Python wants a digit somewhere; [None] stands for [ValueError]. *)
Definition py_float (s : string) : option float :=
  let '(neg, s1) :=
    match s with
    | String "-" t => (true, t)
    | _ => (false, s)
    end in
  let '(ip, s2) := span PyStr.is_digit s1 in
  let '(fp, s3) :=
    match s2 with
    | String "." t => span PyStr.is_digit t
    | _ => (EmptyString, s2)
    end in
  match s3, (String.length ip + String.length fp)%nat with
  | EmptyString, S _ =>
      Some (float_of_decimal neg (digits_to_Z 0 (ip +:+ fp))
              (Z.of_nat (String.length fp)))
  | _, _ => None
  end.

Definition is_na_text (s : string) : bool :=
  let l := PyStr.lower s in
  PyStr.eqb l "nan" || PyStr.eqb l "none" || PyStr.eqb l "null" || PyStr.eqb l "".

(** The sign test of [parse_amount_and_type] on the number read. *)
Definition amount_and_type (amount : float) : float * amount_type :=
  if (amount <? 0)%float then (abs amount, Cr)
  else if (0 <? amount)%float then (amount, Dr)
  else (amount, Dr).

(** The number [parse_amount_and_type] reads in a cell, before it looks at
    its sign: [None] when the function returns [(None, None)]. *)
Definition cell_number (cell_value : option string) : option float :=
  match cell_value with
  | None => None
  | Some v =>
      let cell_str := PyStr.strip v in
      if PyStr.eqb cell_str "" || is_na_text cell_str then None
      else match re_search cell_str with
           | Some m =>
               let amount_str := remove_commas m in
               py_float amount_str
           | None => None
           end
  end.

(** [parse_amount_and_type]; the pair [(None, None)] is [None]. *)
Definition parse_amount_and_type (cell_value : option string)
    : option (float * amount_type) :=
  amount_and_type <$> cell_number cell_value.

(** [calculate_amt_tb_lc]: Dr positive, Cr negative. *)
Definition calculate_amt_tb_lc (amount : option float) (ty : option amount_type)
    : option float :=
  match amount, ty with
  | Some a, Some Dr => Some (abs a)
  | Some a, Some Cr => Some (- abs a)%float
  | _, _ => None
  end.

(** The [transactionAmount] of the derived row that the upload loop
    writes for a "Transaction" (or, on a first upload, "Opening") cell;
    [None] when the cell yields no row. *)
Definition derived_transaction_amount (cell_value : option string) : option float :=
  match parse_amount_and_type cell_value with
  | Some (amount, ty) => calculate_amt_tb_lc (Some amount) (Some ty)
  | None => None
  end.

(** *** [deduplicate_final_structured_for_entity_month_year] *)

(** [ABS(a - b) < 0.01]. *)
Definition amounts_close (a b : option float) : Sql.cond :=
  match a, b with
  | Some x, Some y => Some (abs (x - y) <? 0x1.47ae147ae147bp-7)%float
  | _, _ => None
  end.

(** The [ON] clause without its last conjunct: [fs1] and [fs2] agree on
    the normalised key. *)
Definition same_key (fs1 fs2 : final_structured_row) : Sql.cond :=
  Sql.and_ (Sql.eq_str (Sql.lower_trim (Particular fs1)) (Sql.lower_trim (Particular fs2)))
    (Sql.and_ (Sql.eq_str (Sql.lower_trim (entityCode fs1)) (Sql.lower_trim (entityCode fs2)))
       (Sql.and_ (Sql.eq_str (Sql.lower_trim (selectedMonth fs1))
                             (Sql.lower_trim (selectedMonth fs2)))
          (Sql.and_ (Sql.eq_Z (Year fs1) (Year fs2))
             (Sql.and_ (Sql.eq_str (Sql.lower_trim (Month fs1)) (Sql.lower_trim (Month fs2)))
                (amounts_close (transactionAmount fs1) (transactionAmount fs2)))))).

(** The whole [ON] clause: [fs2] is a row of the same key with a lower
    [sl_no]. *)
Definition older_twin (fs1 fs2 : final_structured_row) : Sql.cond :=
  Sql.and_ (same_key fs1 fs2) (Some (sl_no fs2 <? sl_no fs1)).

(** The [WHERE] clause. *)
Definition in_scope (entity_code month_name : string) (year : Z)
    (fs1 : final_structured_row) : Sql.cond :=
  Sql.and_ (Sql.eq_str (Sql.lower_trim (entityCode fs1)) (Sql.lower_trim (Some entity_code)))
    (Sql.and_ (Sql.eq_str (Sql.lower_trim (selectedMonth fs1))
                          (Sql.lower_trim (Some month_name)))
       (Sql.eq_Z (Year fs1) (Some year))).

(** [DELETE fs1 FROM final_structured fs1 JOIN final_structured fs2 ON ...
    WHERE ...]: a row goes when the join pairs it with some row. *)
Definition deleted_by_dedup (t : list final_structured_row)
    (entity_code month_name : string) (year : Z) (fs1 : final_structured_row) : bool :=
  Sql.holds (in_scope entity_code month_name year fs1)
  && existsb (fun fs2 => Sql.holds (older_twin fs1 fs2)) t.

Definition dedup_table (t : list final_structured_row)
    (entity_code month_name : string) (year : Z) : list final_structured_row :=
  List.filter (fun fs1 => negb (deleted_by_dedup t entity_code month_name year fs1)) t.

(** What [Database.execute_query] returns for a [DELETE]: called without
    [fetch_one] or [fetch_all] it commits and returns [cursor.lastrowid],
    the AUTO_INCREMENT value the statement generated.  A [DELETE] generates
    none and the server reports 0. *)
Definition lastrowid_of_delete : option Z := Some 0.

(** The ['deleted'] field of the answer, and the database left.  The field
    is [deleted or 0] where [deleted] is what [execute_query] returned for
    the [DELETE]: it does not count the rows that went. *)
Definition deduplicate_final_structured_for_entity_month_year (db : database)
    (entity_code month_name : string) (year : Z) : Z * database :=
  let t' := dedup_table (final_structured db) entity_code month_name year in
  let deleted := lastrowid_of_delete in
  (default 0 (Py.or_Z deleted (Some 0)), with_final_structured db t').

(** *** The FX pass that ends an upload *)

(** [WHERE entityCode = %s AND selectedMonth = %s AND Year = %s
    AND mainCategory IS NOT NULL AND TRIM(mainCategory) != ''
    AND (Avg_Fx_Rt IS NULL OR Avg_Fx_Rt = '')]; against a number, [''] is
    zero. *)
Definition needs_rate (ent_code month_name : string) (year : Z)
    (f : final_structured_row) : Sql.cond :=
  Sql.and_ (Sql.eq_str (entityCode f) (Some ent_code))
    (Sql.and_ (Sql.eq_str (selectedMonth f) (Some month_name))
       (Sql.and_ (Sql.eq_Z (Year f) (Some year))
          (Sql.and_ (Sql.is_not_null (mainCategory f))
             (Sql.and_ (Sql.ne_empty (Sql.trim (mainCategory f)))
                (Sql.or_ (Sql.is_null (Avg_Fx_Rt f))
                   ((fun x => PrimFloat.eqb x 0%float) <$> Avg_Fx_Rt f)))))).

(** The block of [upload_file] that follows the hard de-duplication. *)
Definition upload_fx_pass (db : database) (records_inserted : Z)
    (ent_code month_name : string) (year : Z) : database :=
  if 0 <? records_inserted then
    let new_rows :=
      StructureData.select_fx_columns
        <$> List.filter (fun f => Sql.holds (needs_rate ent_code month_name year f))
              (final_structured db) in
    match new_rows with
    | [] => db
    | _ =>
        let forex_cache := StructureData._build_forex_cache db new_rows in
        let '(_, db, _) :=
          StructureData._calculate_and_save_forex_rates db new_rows forex_cache true in
        db
    end
  else db.

(** *** The period checks of [upload_file] *)

Definition month_map (month_name_lower : string) : option Z :=
  if PyStr.eqb month_name_lower "january" then Some 1
  else if PyStr.eqb month_name_lower "february" then Some 2
  else if PyStr.eqb month_name_lower "march" then Some 3
  else if PyStr.eqb month_name_lower "april" then Some 4
  else if PyStr.eqb month_name_lower "may" then Some 5
  else if PyStr.eqb month_name_lower "june" then Some 6
  else if PyStr.eqb month_name_lower "july" then Some 7
  else if PyStr.eqb month_name_lower "august" then Some 8
  else if PyStr.eqb month_name_lower "september" then Some 9
  else if PyStr.eqb month_name_lower "october" then Some 10
  else if PyStr.eqb month_name_lower "november" then Some 11
  else if PyStr.eqb month_name_lower "december" then Some 12
  else None.

(** The first day of the month the upload is filed under,
    [datetime(year, month_num, 1).date()]; [year] is the integer that
    [int(financial_year)] gave or that the month table holds.  [None]
    stands for the [ValueError] of a year outside [MINYEAR .. MAXYEAR]. *)
Definition upload_date (month_name : option string) (year : Z) : option date :=
  let month_name_lower := PyStr.strip (PyStr.lower (Py.str_or_empty month_name)) in
  let month_num := default 1 (month_map month_name_lower) in
  if (1 <=? year) && (year <=? 9999) then Some (year, month_num, 1) else None.

(** The ['error'] field of the three rejections, with what they carry. *)
Inductive period_error :=
| PREVIOUS_FINANCIAL_YEAR_NOT_CONFIGURED (suggested_fy : string)
| FINANCIAL_YEAR_VALIDATION_FAILED
| NOT_CURRENT_FINANCIAL_YEAR (selected_fy current_fy : option string).

(** The outcome of the period checks: a rejection with status 400 and an
    ['error'] code; the answer of the handler that catches every exception
    of the route, with status 500 and no ['error'] code; or the upload goes
    on to delete and write rows. *)
Inductive period_check :=
| Rejected (e : period_error)
| Failed
| Proceeds.

Definition check_upload_period (t : list financial_year_period) (today : date)
    (month_name : option string) (year : Z) : period_check :=
  match upload_date month_name year with
  | None => Failed
  | Some upload_date =>
      match validate_date_against_fy_master t upload_date with
      | None =>
          match check_if_previous_fy t upload_date with
          | (true, suggested) =>
              Rejected (PREVIOUS_FINANCIAL_YEAR_NOT_CONFIGURED
                          (default EmptyString suggested))
          | (false, _) => Rejected FINANCIAL_YEAR_VALIDATION_FAILED
          end
      | Some validation_result =>
          match get_current_financial_year t today with
          | Some current_fy_result =>
              let selected_fy := fy_label validation_result in
              let current_fy := fy_label current_fy_result in
              if bool_decide (selected_fy = current_fy) then Proceeds
              else Rejected (NOT_CURRENT_FINANCIAL_YEAR selected_fy current_fy)
          | None => Proceeds
          end
      end
  end.

(** *** [parse_plain_number] *)

(** [parse_plain_number]: the number of a cell with its sign, as it is
    stored in [rawData]. *)
Definition parse_plain_number (cell_value : option string) : option float :=
  match cell_value with
  | None => None
  | Some v =>
      let cell_str := PyStr.strip v in
      if PyStr.eqb cell_str ""
         || (PyStr.eqb (PyStr.lower cell_str) "nan"
             || PyStr.eqb (PyStr.lower cell_str) "none"
             || PyStr.eqb (PyStr.lower cell_str) "null")
      then None
      else match re_search cell_str with
           | Some m => py_float (remove_commas m)
           | None => None
           end
  end.

(** *** [delete_existing_data_for_entity_month_year] *)

(** [rawData]: the spreadsheet rows as uploaded. *)
Record raw_data_row := {
  RecordID : Z;
  EntityID : option Z;
  raw_Month : option string;
  raw_Year : option Z;
  raw_financial_year : option string;
  raw_Particular : option string;
  OpeningBalance : option float;
  Transactions : option float;
  ClosingBalance : option float;
  newCompany : option Z
}.

(** [WHERE EntityID = %s AND LOWER(TRIM(Month)) = LOWER(TRIM(%s)) AND Year = %s]. *)
Definition raw_in_scope (entity_id : Z) (month_name : string) (year : Z)
    (r : raw_data_row) : Sql.cond :=
  Sql.and_ (Sql.eq_Z (EntityID r) (Some entity_id))
    (Sql.and_ (Sql.eq_str (Sql.lower_trim (raw_Month r)) (Sql.lower_trim (Some month_name)))
       (Sql.eq_Z (raw_Year r) (Some year))).

(** [SELECT COUNT( * ) ... WHERE c] and [DELETE ... WHERE c]. *)
Definition count_where {A} (c : A -> Sql.cond) (t : list A) : Z :=
  Z.of_nat (length (List.filter (fun r => Sql.holds (c r)) t)).
Definition delete_where {A} (c : A -> Sql.cond) (t : list A) : list A :=
  List.filter (fun r => negb (Sql.holds (c r))) t.

(** The dictionary the function returns. *)
Record deletion_result := {
  success : bool;
  raw_data_deleted : Z;
  structured_data_deleted : Z;
  total_deleted : Z
}.

(** The function on the two tables: each is counted, emptied of the rows
    counted, and counted again; [rawData] is deleted from a second time
    when rows remain. *)
Definition delete_existing_data_for_entity_month_year
    (raw : list raw_data_row) (structured : list final_structured_row)
    (entity_id : Z) (entity_code month_name : string) (year : Z)
    : deletion_result * list raw_data_row * list final_structured_row :=
  let raw_where := raw_in_scope entity_id month_name year in
  let raw_deleted_count := count_where raw_where raw in
  let raw :=
    if 0 <? raw_deleted_count then
      let raw := delete_where raw_where raw in
      let remaining := count_where raw_where raw in
      if remaining =? 0 then raw else delete_where raw_where raw
    else raw in
  let structured_where := in_scope entity_code month_name year in
  let structured_deleted_count := count_where structured_where structured in
  let structured :=
    if 0 <? structured_deleted_count
    then delete_where structured_where structured
    else structured in
  ({| success := true;
      raw_data_deleted := raw_deleted_count;
      structured_data_deleted := structured_deleted_count;
      total_deleted := raw_deleted_count + structured_deleted_count |},
   raw, structured).

(** *** [upload_file], from the period checks on *)

(** [upload_file] for a request that passed the checks of its fields.  Up
    to the period checks the route has only read: the entity and the month
    are looked up, and the progress of the operation is kept in memory.
    [process] stands for the rest of the route, which begins with
    [delete_existing_data_for_entity_month_year] and then stores the file
    and writes its rows; a rejection and the answer of the exception
    handler return before it.  The result is the outcome of the checks,
    what the rest of the route answered if it ran, and the tables [rawData]
    and the database as the request leaves them. *)
Definition upload_file {A : Type}
    (process : list raw_data_row -> database -> A * list raw_data_row * database)
    (raw : list raw_data_row) (db : database) (today : date)
    (month_name : option string) (year : Z)
    : period_check * option A * list raw_data_row * database :=
  match check_upload_period (financial_year_master db) today month_name year with
  | Proceeds =>
      let '(answer, raw, db) := process raw db in
      (Proceeds, Some answer, raw, db)
  | outcome => (outcome, None, raw, db)
  end.

(** *** [get_coa_mapping] *)

Record coa_mapping := {
  std_code : option string;
  brd_cls : option string;
  brd_cls_2 : option string;
  ctg_code : option string;
  cafl_fnfl : option string;
  cat_5 : option string
}.

(** [get_coa_mapping]: the first row of [code_master] whose
    [RawParticulars] is the particular, compared lower-cased and trimmed. *)
Definition get_coa_mapping (cms : list code_master_row)
    (particular_name : option string) : option coa_mapping :=
  let clean_particular := PyStr.strip (Py.str_or_empty particular_name) in
  match List.find
          (fun cm => Sql.holds (Sql.eq_str (Sql.lower_trim (RawParticulars cm))
                                           (Sql.lower_trim (Some clean_particular))))
          cms with
  | None => None
  | Some result =>
      Some {| std_code := cm_mainCategory result;
              brd_cls := cm_category1 result;
              brd_cls_2 := cm_category2 result;
              ctg_code := cm_category3 result;
              cafl_fnfl := cm_category4 result;
              cat_5 := cm_category5 result |}
  end.

(** *** The progress tracker *)

(** A value of the [meta] dictionary of an upload: a text or a number. *)
Inductive meta_value :=
| Meta_text (s : string)
| Meta_number (n : Z).

(** A value of a progress dictionary: a text, a number, or the [meta]
    dictionary. *)
Inductive progress_value :=
| Text (s : string)
| Number (n : Z)
| Meta (m : gmap string meta_value).

(** [UPLOAD_PROGRESS]: one dictionary per operation id.  Every function
    below runs under [progress_lock], so each is one step on the store. *)
Abbreviation progress_store := (gmap string (gmap string progress_value)).

Definition init_progress (UPLOAD_PROGRESS : progress_store) (operation_id : string)
    (meta : option (gmap string meta_value)) : progress_store :=
  <[operation_id :=
      <["status" := Text "starting"]>
        (<["progress" := Number 0]>
           (<["processed_rows" := Number 0]>
              (<["total_rows" := Number 0]>
                 (<["message" := Text "Initializing upload"]>
                    (<["meta" := Meta (default ∅ meta)]> ∅)))))]>
    UPLOAD_PROGRESS.

(** [update_progress]: [dict.update(kwargs)] on the dictionary of a known
    operation; the keys of [kwargs] win. *)
Definition update_progress (UPLOAD_PROGRESS : progress_store) (operation_id : string)
    (kwargs : gmap string progress_value) : progress_store :=
  match UPLOAD_PROGRESS !! operation_id with
  | None => UPLOAD_PROGRESS
  | Some d => <[operation_id := kwargs ∪ d]> UPLOAD_PROGRESS
  end.

Definition get_progress (UPLOAD_PROGRESS : progress_store) (operation_id : string)
    : option (gmap string progress_value) :=
  UPLOAD_PROGRESS !! operation_id.

(** [get_upload_progress]: the HTTP status and the data of the answer;
    an empty dictionary is as good as none. *)
Definition get_upload_progress (UPLOAD_PROGRESS : progress_store)
    (operation_id : string) : Z * option (gmap string progress_value) :=
  match get_progress UPLOAD_PROGRESS operation_id with
  | Some progress =>
      if bool_decide (progress = ∅) then (404, None) else (200, Some progress)
  | None => (404, None)
  end.

End UploadData.

(** ** The statements of the specification, as functions *)

Module Spec.
Import Db StructureData.

(** The effective rate as section 4.2, step 4 words it: for a P&L row the
    average when both rates exist, else whichever one exists; for any other
    row the closing rate only. *)
Definition stated_effective_rate (pl : bool) (opening closing : option float)
    : option float :=
  if pl then
    match opening, closing with
    | Some o, Some c => Some ((o + c) / 2)%float
    | Some o, None => Some o
    | None, Some c => Some c
    | None, None => None
    end
  else closing.

Fixpoint all_chars (p : ascii -> bool) (s : string) : bool :=
  match s with
  | EmptyString => true
  | String c t => p c && all_chars p t
  end.

(** The characters of a textual marker such as " Dr" or "Cr ": letters and
    spaces. *)
Definition is_marker_char (c : ascii) : bool :=
  PyStr.is_upper c || PyStr.is_lower c || PyStr.is_blank_char c.

(** An amount as the upload documents it ("-5000", "5000.00",
    "-62,291.18"): an optional minus sign, digits and thousands separators,
    and an optional point followed by digits. *)
Definition amount_text (neg : bool) (group : string) (frac : option string) : string :=
  (if neg then "-" else "") +:+ group
  +:+ match frac with Some f => "." +:+ f | None => "" end.

Definition well_formed_amount (group : string) (frac : option string) : Prop :=
  group ≠ EmptyString
  ∧ all_chars UploadData.is_digit_or_comma group = true
  ∧ all_chars PyStr.is_digit (default EmptyString frac) = true.

(** The text holds a decimal digit. *)
Definition has_digit (s : string) : bool :=
  negb (all_chars (fun c => negb (PyStr.is_digit c)) s).

(** The digits 1 to 9. *)
Definition is_nonzero_digit (c : ascii) : bool :=
  (49 <=? PyStr.code c)%N && (PyStr.code c <=? 57)%N.

(** The text holds a digit other than 0: the number it writes is not
    zero. *)
Definition has_nonzero_digit (s : string) : bool :=
  negb (all_chars (fun c => negb (is_nonzero_digit c)) s).

(** A category column holds a value: not NULL and not blank. *)
Definition populated (v : option string) : Prop :=
  ∃ s, v = Some s ∧ PyStr.sql_trim s ≠ EmptyString.

Definition all_categories_populated (f : final_structured_row) : Prop :=
  populated (mainCategory f) ∧ populated (category1 f) ∧ populated (category2 f)
  ∧ populated (category3 f) ∧ populated (category4 f) ∧ populated (category5 f).

(** The six category columns of [f] are those of the mapping [cm]. *)
Definition categories_from (cm : code_master_row) (f : final_structured_row) : Prop :=
  mainCategory f = cm_mainCategory cm ∧ category1 f = cm_category1 cm
  ∧ category2 f = cm_category2 cm ∧ category3 f = cm_category3 cm
  ∧ category4 f = cm_category4 cm ∧ category5 f = cm_category5 cm.

(** [f'] is [f] but for its category columns. *)
Definition same_but_categories (f f' : final_structured_row) : Prop :=
  f' = with_categories f (mainCategory f') (category1 f') (category2 f')
         (category3 f') (category4 f') (category5 f').

(** The normalised particular of the ledger row is a key of the mapping. *)
Definition mapped_by (cm : code_master_row) (f : final_structured_row) : Prop :=
  ∃ p k, Particular f = Some p ∧ RawParticulars cm = Some k
         ∧ PyStr.lower (PyStr.sql_trim p) = PyStr.lower (PyStr.sql_trim k).



(** No underscore occurs in a code: the underscore separates the parts of
    a cache key. *)
Definition not_underscore (c : ascii) : bool := negb (Ascii.eqb c "_").
Definition no_underscore (s : string) : Prop := all_chars not_underscore s = true.

(** The resolver of section 4.2, step 2: the exact year, then the next
    year, then the previous one; the first lookup that answers wins. *)
Definition first_of_three {A} (get : Z -> option A) (fy : Z) : option (Z * A) :=
  match get fy with
  | Some r => Some (fy, r)
  | None =>
      match get (fy + 1) with
      | Some r => Some (fy + 1, r)
      | None =>
          match get (fy - 1) with
          | Some r => Some (fy - 1, r)
          | None => None
          end
      end
  end.

(** The first code of a list for which the legacy table has a row, with the
    latest row of that code. *)
Fixpoint first_with_row (t : list forex_master_row) (codes : list string)
    : option (string * forex_master_row) :=
  match codes with
  | [] => None
  | code :: rest =>
      match Forex._get_latest_row_for_currency t code with
      | Some fx_row => Some (code, fx_row)
      | None => first_with_row t rest
      end
  end.

(** The FX gating invariant of the derived ledger: a row with a rate has a
    main category that is not NULL and not blank. *)
Definition fx_gated (t : list final_structured_row) : Prop :=
  ∀ f, f ∈ t → is_Some (Avg_Fx_Rt f) → populated (mainCategory f).

(** An entry holds each rate under both of its names, as the entries that
    [_build_forex_cache] writes do. *)
Definition both_names_agree (fx : fx_entry) : Prop :=
  fx_initial_rate fx = fx_opening_rate fx ∧ fx_latest_rate fx = fx_closing_rate fx.

(** Every row with the [sl_no] of the update [u] carries its values. *)
Definition carries (u : fx_update) (f : final_structured_row) : Prop :=
  sl_no f = upd_sl_no u →
  Avg_Fx_Rt f = Some (upd_avg_fx_rt u)
  ∧ transactionAmountUSD f = upd_transaction_amount_usd u.

(** The first character of [s], if any, does not satisfy [p]. *)
Definition starts_without (p : ascii → bool) (s : string) : Prop :=
  match s with EmptyString => True | String c _ => p c = false end.

(** The order of dates that [date_leb] decides. *)
Definition date_le (a b : date) : Prop :=
  a.1.1 < b.1.1
  ∨ (a.1.1 = b.1.1 ∧ (a.1.2 < b.1.2 ∨ (a.1.2 = b.1.2 ∧ a.2 ≤ b.2))).

(** The characters of a printed integer. *)
Definition sign_or_digit (c : ascii) : bool := PyStr.is_digit c || Ascii.eqb c "-".

(** [a] is at most as recent as [b]: an older stamp, or the same stamp and
    an identifier that is not higher. *)
Definition not_newer (a b : forex_master_row) : Prop :=
  Forex.stamp a < Forex.stamp b
  ∨ (Forex.stamp a = Forex.stamp b ∧ fx_id a ≤ fx_id b).

(** The row contributes the triple [(e, c, fy)] to the first loop of the
    cache builder: an entity and a fiscal year that are set and not zero,
    and a non-empty currency code, upper-cased. *)
Definition row_triple (em : list entity_master_row) (r : row) (k : Z * string * Z)
    : Prop :=
  row_entity em r = Some k.1.1 ∧ k.1.1 ≠ 0
  ∧ row_fy r = Some k.2 ∧ k.2 ≠ 0
  ∧ nonempty (row_curr r) = true ∧ k.1.2 = PyStr.upper (row_curr r).

(** The entry the fallback writes for a currency, if the legacy table has
    a row for one of its codes. *)
Definition legacy_choice (t : list forex_master_row) (curr : string) : option fx_entry :=
  (fun '(code, fx_row) => legacy_entry curr code fx_row)
    <$> first_with_row t (variants curr).

(** What the second loop of the cache builder has done after the triples
    [l]: every entry comes from a triple whose lookup answered, every such
    triple has an entry and its currency in [found_entity_rates], and that
    set holds nothing else. *)
Record entity_fold_inv (t : list entity_forex_rate) (l : list (Z * string * Z))
    (st : forex_cache * gset string) : Prop := {
  inv_entries : ∀ k fx, st.1 !! k = Some fx →
    ∃ e c fy fy' fr, (e, c, fy) ∈ l
      ∧ first_of_three (Forex.get_entity_fy_forex_rate t e c) fy = Some (fy', fr)
      ∧ k = entity_key e c fy' ∧ fx = entity_entry e c fy' fr;
  inv_written : ∀ e c fy fy' fr, (e, c, fy) ∈ l →
    first_of_three (Forex.get_entity_fy_forex_rate t e c) fy = Some (fy', fr) →
    is_Some (st.1 !! entity_key e c fy') ∧ PyStr.upper c ∈ st.2;
  inv_found : ∀ x, x ∈ st.2 →
    ∃ e c fy, (e, c, fy) ∈ l ∧ x = PyStr.upper c
      ∧ is_Some (first_of_three (Forex.get_entity_fy_forex_rate t e c) fy)
}.

(** *** Statements about the hierarchy, the periods and the rate tables *)

(** [y] is [x] or is reached from [x] through rows that name their parent
    and carry a non-zero id. *)
Inductive descends (t : list entity_master_row) : Z -> Z -> Prop :=
| descends_self x : descends t x x
| descends_child x r y :
    r ∈ t -> parent_entity_id r = Some x -> ent_id r <> 0 ->
    descends t (ent_id r) y -> descends t x y.

(** Some date lies in both closed ranges. *)
Definition share_a_date (s e s' e' : date) : Prop :=
  ∃ d, date_le s d ∧ date_le d e ∧ date_le s' d ∧ date_le d e'.

(** The table of periods as the routes keep it: ids are the row identity
    and are never zero, every period ends after it starts, and no date
    falls in two active periods. *)
Record periods_consistent (t : list financial_year_period) : Prop := {
  ids_distinct : NoDup (fy_id <$> t);
  ids_nonzero : ∀ p, p ∈ t → fy_id p ≠ 0;
  ends_after_start : ∀ p, p ∈ t → ¬ date_le (end_date p) (start_date p);
  active_disjoint :
    ∀ p q d, p ∈ t → q ∈ t →
      FinancialYearMaster.covers d p = true → FinancialYearMaster.covers d q = true →
      p = q
}.

(** A row dictionary that names no entity and no year: none of the keys
    the cache builder reads for them holds a value. *)
Definition names_no_entity_or_year (r : row) : Prop :=
  row_entity_id r = None ∧ row_EntityID r = None
  ∧ row_entityCode r = None ∧ row_entity_code r = None
  ∧ row_financial_year r = None ∧ row_Year r = None ∧ row_year r = None.

(** The dictionary holds the key ["transactionAmount"]. *)
Definition has_amount_key (r : row) : Prop := is_Some (row_transactionAmount r).

(** [f'] is [f] but for its rate and its USD amount. *)
Definition same_but_fx (f f' : final_structured_row) : Prop :=
  f' = with_fx f (Avg_Fx_Rt f') (transactionAmountUSD f').

(** The currency a recalculation works for and the codes it matches in
    the ledger. *)
Definition recalc_currency (payload : option string) : string :=
  PyStr.strip (PyStr.upper (default EmptyString (Py.or_str payload (Some "USDIN")))).
Definition recalc_params (payload : option string) : list string :=
  PyStr.upper <$> matching_currencies (recalc_currency payload).

(** The id and the date a new legacy row receives come after those of the
    rows the table holds. *)
Definition comes_last (t : list forex_master_row) (new_id today : Z) : Prop :=
  ∀ r, r ∈ t → fx_id r < new_id ∧ Forex.stamp r ≤ today.

(** The value a field of the new row takes: the one sent, else the one of
    the row that was the latest. *)
Definition sent_or_carried (sent : ForexRoutes.rate_field) (carried : option float)
    : option float :=
  match sent with
  | ForexRoutes.Rate x => Some x
  | _ => carried
  end.

Definition not_dash (c : ascii) : bool := negb (Ascii.eqb c "-").

End Spec.

(** ** Sample data *)

Module Sample.
Import Db Forex StructureData.

Definition entities : list entity_master_row :=
  [ {| ent_id := 1; ent_code := Some "E1"; parent_entity_id := None |};
    {| ent_id := 2; ent_code := Some "E2"; parent_entity_id := Some 1 |} ].

(** Entity 1 has FY-specific USD rates for 2024-25 and an opening rate only
    for GBP. *)
Definition entity_rates : list entity_forex_rate :=
  [ {| efr_entity_id := 1; efr_currency := Some "USD";
       efr_financial_year := Some "2024-25";
       efr_opening_rate := Some 80%float; efr_closing_rate := Some 84%float |};
    {| efr_entity_id := 1; efr_currency := Some "GBP";
       efr_financial_year := Some "2024-25";
       efr_opening_rate := Some 100%float; efr_closing_rate := None |} ].

Definition legacy_rates : list forex_master_row :=
  [ {| fx_id := 1; fm_currency := Some "USDIN"; fm_initial_rate := Some 70%float;
       fm_latest_rate := Some 72%float; fm_month := Some "April";
       fm_updated_at := Some 1000 |};
    {| fx_id := 2; fm_currency := Some "USDIN"; fm_initial_rate := Some 74%float;
       fm_latest_rate := Some 76%float; fm_month := Some "May";
       fm_updated_at := Some 2000 |};
    {| fx_id := 3; fm_currency := Some "EUR"; fm_initial_rate := Some 88%float;
       fm_latest_rate := Some 90%float; fm_month := None;
       fm_updated_at := None |} ].

Definition mappings : list code_master_row :=
  [ {| code_id := 1; RawParticulars := Some "Cash";
       cm_mainCategory := Some "Balance Sheet"; cm_category1 := Some "Assets";
       cm_category2 := None; cm_category3 := None; cm_category4 := None;
       cm_category5 := None |};
    {| code_id := 2; RawParticulars := Some "Sales";
       cm_mainCategory := Some "Profit and Loss"; cm_category1 := Some "Income";
       cm_category2 := Some "Revenue"; cm_category3 := Some "Operating";
       cm_category4 := Some "Domestic"; cm_category5 := Some "Goods" |} ].

Definition ledger_row (sl : Z) (particular code curr month selected : string)
    (amount : float) (main c1 : option string) (rate : option float)
    : final_structured_row :=
  {| sl_no := sl; Particular := Some particular; entityName := Some code;
     entityCode := Some code; localCurrencyCode := Some curr;
     transactionAmount := Some amount; Month := Some month;
     selectedMonth := Some selected; mainCategory := main; category1 := c1;
     category2 := None; category3 := None; category4 := None; category5 := None;
     Year := Some 2024; financial_year := Some "2024-25";
     Avg_Fx_Rt := rate;
     transactionAmountUSD := (fun x => (amount * x)%float) <$> rate |}.

Definition ledger : list final_structured_row :=
  [ ledger_row 1 "Cash" "E1" "USD" "Opening" "April" 1000 None None None;
    ledger_row 2 " cash " "e1" "USD" "Opening" "April" 1000 None None None;
    ledger_row 3 "Sales" "E1" "USD" "April" "April" (-200)
      (Some "Profit and Loss") (Some "Income") None;
    ledger_row 4 "Rent" "E2" "USD" "April" "April" 50 None None None ].

Definition periods : list financial_year_period :=
  [ {| fy_id := 1; fy_label := Some "2023-24"; start_date := (2023, 4, 1);
       end_date := (2024, 3, 31); is_active := true |};
    {| fy_id := 2; fy_label := Some "2024-25"; start_date := (2024, 4, 1);
       end_date := (2025, 3, 31); is_active := true |} ].

Definition db : database :=
  {| entity_master := entities; entity_forex_rates := entity_rates;
     forex_master := legacy_rates; code_master := mappings;
     final_structured := ledger; financial_year_master := periods |}.

(** The same database with no rate configured anywhere. *)
Definition db_no_rates : database :=
  {| entity_master := entities; entity_forex_rates := [];
     forex_master := []; code_master := mappings;
     final_structured := ledger; financial_year_master := periods |}.

(** A row dictionary as the list endpoint selects it. *)
Definition data_row (sl entity : Z) (curr : string) (year : Z)
    (main c1 : option string) (amount : float) : row :=
  {| row_sl_no := Some sl; row_localCurrencyCode := Some curr;
     row_entity_id := Some entity; row_EntityID := None;
     row_entityCode := None; row_entity_code := None;
     row_financial_year := None; row_Year := Some year; row_year := None;
     row_mainCategory := main; row_category1 := c1;
     row_transactionAmount := Some (Some amount); row_amount := Some amount;
     row_Avg_Fx_Rt := None; row_transactionAmountUSD := None |}.

Definition pl_row : row :=
  data_row 3 1 "usd" 2024 (Some "Profit and Loss") (Some "Income") (-200).
Definition bs_row : row :=
  data_row 1 1 "usd" 2024 (Some "Balance Sheet") (Some "Assets") 1000.
Definition pl_row_gbp : row :=
  data_row 5 1 "GBP" 2024 (Some "P&L") None 10.
Definition other_entity_row : row :=
  data_row 4 2 "USD" 2024 (Some "Balance Sheet") None 50.

Definition eur_row : row :=
  data_row 6 2 "eur" 2024 (Some "Balance Sheet") None 10.

(** The cache of a batch that holds the GBP row only. *)
Definition gbp_cache : forex_cache := _build_forex_cache db [pl_row_gbp].

(** Two entities that name each other as parent. *)
Definition entities_cycle : list entity_master_row :=
  [ {| ent_id := 1; ent_code := Some "A"; parent_entity_id := Some 2 |};
    {| ent_id := 2; ent_code := Some "B"; parent_entity_id := Some 1 |} ].

(** The sample database without entities and without FY-specific rates. *)
Definition db_legacy_only : database :=
  {| entity_master := []; entity_forex_rates := [];
     forex_master := legacy_rates; code_master := mappings;
     final_structured := ledger; financial_year_master := periods |}.

(** A legacy table whose identifiers do not follow the time stamps. *)
Definition reordered_rates : list forex_master_row :=
  [ {| fx_id := 7; fm_currency := Some "EURIN"; fm_initial_rate := Some 91%float;
       fm_latest_rate := Some 92%float; fm_month := Some "June";
       fm_updated_at := Some 3000 |};
    {| fx_id := 8; fm_currency := Some "EURIN"; fm_initial_rate := Some 93%float;
       fm_latest_rate := Some 94%float; fm_month := Some "May";
       fm_updated_at := Some 2500 |};
    {| fx_id := 9; fm_currency := Some "EURIN"; fm_initial_rate := Some 95%float;
       fm_latest_rate := Some 96%float; fm_month := None;
       fm_updated_at := None |};
    {| fx_id := 10; fm_currency := Some "USD"; fm_initial_rate := Some 70%float;
       fm_latest_rate := Some 72%float; fm_month := Some "June";
       fm_updated_at := Some 4000 |} ].

Definition db_reordered : database :=
  {| entity_master := entities; entity_forex_rates := entity_rates;
     forex_master := reordered_rates; code_master := mappings;
     final_structured := ledger; financial_year_master := periods |}.

Definition period_2025 : financial_year_period :=
  {| fy_id := 3; fy_label := Some "2025-26"; start_date := (2025, 4, 1);
     end_date := (2026, 3, 31); is_active := true |}.

(** A payload that moves the end of a period. *)
Definition longer_year : FinancialYearMaster.update_payload :=
  {| FinancialYearMaster.upd_financial_year := None;
     FinancialYearMaster.upd_start_date := FinancialYearMaster.No_date;
     FinancialYearMaster.upd_end_date := FinancialYearMaster.Good_date (2025, 6, 30);
     FinancialYearMaster.upd_is_active := None |}.

End Sample.

(** * Properties *)

Import Db Forex StructureData FinancialYearMaster UploadData Spec.

(** ** Truthiness *)

Lemma or_float_same (a : option float) : Py.or_float a a = a.
Proof. unfold Py.or_float. by destruct (Py.truthy_float a). Qed.

Lemma or_float_None_l (b : option float) : Py.or_float None b = b.
Proof. reflexivity. Qed.

(** ** The two loops are maps over the rows *)

Lemma apply_rows_fst em rows cache :
  (_apply_forex_rates em rows cache).1 = (fun r => (apply_row em cache r).1) <$> rows.
Proof.
  unfold _apply_forex_rates.
  induction rows as [|r rows IH]; [done|]. cbn [foldr fmap list_fmap].
  destruct (foldr _ _ rows) as [out n]. simpl in IH. subst out.
  by destruct (apply_row em cache r).
Qed.

Lemma calc_loop_rows em cache save rows :
  (calc_loop em cache save rows).1.1
  = (fun r => (calculate_row em cache save r).1.1) <$> rows.
Proof.
  unfold calc_loop.
  induction rows as [|r rows IH]; [done|]. cbn [foldr fmap list_fmap].
  destruct (foldr _ _ rows) as [[out ups] n]. simpl in IH. subst out.
  by destruct (calculate_row em cache save r) as [[??]?].
Qed.

Lemma calc_loop_updates em cache save rows :
  (calc_loop em cache save rows).1.2
  = mjoin ((fun r => (calculate_row em cache save r).1.2) <$> rows).
Proof.
  unfold calc_loop.
  induction rows as [|r rows IH]; [done|]. cbn [foldr fmap list_fmap mjoin list_join].
  destruct (foldr _ _ rows) as [[out ups] n]. simpl in IH. subst ups.
  by destruct (calculate_row em cache save r) as [[??]?].
Qed.

Lemma calculate_and_save_unfold db rows cache save :
  _calculate_and_save_forex_rates db rows cache save
  = ((calc_loop (entity_master db) cache save rows).1.1,
     with_final_structured db
       (foldl (fun t u => save_update u t) (final_structured db)
          (calc_loop (entity_master db) cache save rows).1.2),
     (calc_loop (entity_master db) cache save rows).2).
Proof.
  unfold _calculate_and_save_forex_rates.
  by destruct (calc_loop _ _ _ _) as [[??]?].
Qed.

(** ** The batch update of the table *)

Section SaveUpdates.
Variable u : fx_update.

Local Abbreviation carries := (Spec.carries u).

Lemma save_update_same t : Forall carries (save_update u t).
Proof.
  unfold save_update. apply Forall_fmap, Forall_forall. intros f _. simpl.
  destruct (sl_no f =? upd_sl_no u) eqn:E; unfold Spec.carries; simpl.
  - done.
  - intros ?. apply Z.eqb_neq in E. done.
Qed.

Lemma save_update_other u' t :
  upd_sl_no u' ≠ upd_sl_no u → Forall carries t → Forall carries (save_update u' t).
Proof.
  intros Hne Ht. unfold save_update. apply Forall_fmap.
  eapply Forall_impl; [exact Ht|]. intros f Hf. simpl.
  destruct (sl_no f =? upd_sl_no u') eqn:E; [|done].
  apply Z.eqb_eq in E. unfold carries. simpl. intros ?. congruence.
Qed.

Lemma save_updates_carry us t :
  (∀ u', u' ∈ us → upd_sl_no u' = upd_sl_no u → u' = u) →
  u ∈ us ∨ Forall carries t →
  Forall carries (foldl (fun t u => save_update u t) t us).
Proof.
  revert t. induction us as [|u0 us IH]; intros t Huniq Hor; simpl.
  - destruct Hor as [Hin|Ht]; [by apply elem_of_nil in Hin|done].
  - apply IH.
    + intros u' Hu'. apply Huniq. by right.
    + destruct (decide (upd_sl_no u0 = upd_sl_no u)) as [Heq|Hne].
      * right. rewrite (Huniq u0 (list_elem_of_here _ _) Heq).
        apply save_update_same.
      * destruct Hor as [Hin|Ht].
        -- left. apply elem_of_cons in Hin as [->|Hin]; [done|exact Hin].
        -- right. by apply save_update_other.
Qed.
End SaveUpdates.

(** ** The rate of a row *)

Lemma row_rate_gate em cache r :
  nonempty (main_category r) = false → row_rate em cache r = None.
Proof. unfold row_rate. by intros ->. Qed.

Lemma row_rate_resolved em cache r fx :
  nonempty (main_category r) = true →
  find_fx em cache r = Some fx →
  row_rate em cache r = fx_rate r fx.
Proof. unfold row_rate. by intros -> ->. Qed.

Lemma fx_rate_80_84 r fx :
  fx_opening_rate fx = Some 80%float →
  fx_closing_rate fx = Some 84%float →
  fx_rate r fx = Some (if is_pl r then 82%float else 84%float).
Proof.
  intros Ho Hc. unfold fx_rate. rewrite Ho, Hc.
  change (Py.or_float (Some 80%float) (fx_initial_rate fx)) with (Some 80%float).
  change (Py.or_float (Some 84%float) (fx_latest_rate fx)) with (Some 84%float).
  by destruct (is_pl r).
Qed.

Lemma apply_row_rate em cache r rate :
  row_rate em cache r = Some rate →
  row_Avg_Fx_Rt (apply_row em cache r).1 = Some rate.
Proof. unfold apply_row. by intros ->. Qed.

Lemma calculate_row_rate em cache save r rate :
  row_rate em cache r = Some rate →
  row_Avg_Fx_Rt (calculate_row em cache save r).1.1 = Some rate.
Proof. unfold calculate_row. by intros ->. Qed.

Lemma apply_row_unrated em cache r :
  row_rate em cache r = None → apply_row em cache r = (r, 0).
Proof. unfold apply_row. by intros ->. Qed.

Lemma calculate_row_unrated em cache save r :
  row_rate em cache r = None → calculate_row em cache save r = (r, [], 0).
Proof. unfold calculate_row. by intros ->. Qed.

(** The update that [calculate_row] queues for a row with a usable [sl_no]. *)
Lemma calculate_row_update em cache r rate sl :
  row_rate em cache r = Some rate →
  row_sl_no r = Some sl → sl ≠ 0 →
  (calculate_row em cache true r).1.2
  = [{| upd_sl_no := sl; upd_avg_fx_rt := rate;
        upd_transaction_amount_usd :=
          (fun a => (a * rate)%float)
            <$> (match row_transactionAmount r with Some v => v | None => None end) |}].
Proof.
  unfold calculate_row. intros -> -> Hsl. simpl.
  apply Z.eqb_neq in Hsl. by rewrite Hsl.
Qed.

Lemma calculate_row_update_sl em cache save r u :
  u ∈ (calculate_row em cache save r).1.2 →
  row_sl_no r = Some (upd_sl_no u)
  ∧ row_rate em cache r = Some (upd_avg_fx_rt u)
  ∧ upd_transaction_amount_usd u
    = (fun a => (a * upd_avg_fx_rt u)%float)
        <$> (match row_transactionAmount r with Some v => v | None => None end).
Proof.
  unfold calculate_row.
  destruct (row_rate em cache r) as [rate|]; simpl; [|by intros ?%elem_of_nil].
  destruct save; [|by intros ?%elem_of_nil].
  destruct (row_sl_no r) as [sl|]; [|by intros ?%elem_of_nil].
  destruct (negb (sl =? 0)); [|by intros ?%elem_of_nil].
  intros ->%list_elem_of_singleton. done.
Qed.

(** What the batch update leaves in the table for a row of the batch whose
    [sl_no] no other row of the batch shares. *)
Lemma saved_rate db rows cache i r rate sl :
  rows !! i = Some r →
  row_rate (entity_master db) cache r = Some rate →
  row_sl_no r = Some sl → sl ≠ 0 →
  (∀ j r', rows !! j = Some r' → row_sl_no r' = Some sl → j = i) →
  Forall (fun f => sl_no f = sl →
                   Avg_Fx_Rt f = Some rate
                   ∧ transactionAmountUSD f
                     = (fun a => (a * rate)%float)
                         <$> (match row_transactionAmount r with
                              | Some v => v | None => None end))
    (final_structured (_calculate_and_save_forex_rates db rows cache true).1.2).
Proof.
  intros Hi Hrate Hsl Hnz Huniq.
  rewrite calculate_and_save_unfold. simpl.
  rewrite calc_loop_updates.
  pose proof (calculate_row_update _ _ _ _ _ Hrate Hsl Hnz) as Hu.
  set (u := {| upd_sl_no := sl; upd_avg_fx_rt := rate;
               upd_transaction_amount_usd := _ |}) in Hu.
  apply (save_updates_carry u).
  - intros u' Hin Heq.
    apply list_elem_of_join in Hin as (us & Hu' & Hus).
    apply list_elem_of_fmap in Hus as (r' & -> & Hr').
    apply list_elem_of_lookup in Hr' as [j Hj].
    apply calculate_row_update_sl in Hu' as Hfacts.
    destruct Hfacts as (Hsl' & _ & _).
    simpl in Heq. rewrite Heq in Hsl'.
    assert (j = i) as -> by eauto.
    assert (r' = r) as -> by congruence.
    rewrite Hu in Hu'. by apply list_elem_of_singleton in Hu'.
  - left. apply list_elem_of_join. exists [u]. split; [by apply list_elem_of_singleton|].
    apply list_elem_of_fmap. exists r. split; [done|].
    by apply list_elem_of_lookup_2 in Hi.
Qed.

(** ** Claim C1 *)

(** C1.  A derived ledger row that passes the category gate and whose
    resolved FX record has opening rate 80.0 and closing rate 84.0 receives
    the rate 82.0 when it is classified as Profit-and-Loss (by its category1
    or mainCategory text) and 84.0 otherwise (Balance Sheet or anything
    else): in the rows [_apply_forex_rates] enriches in memory, in the rows
    [_calculate_and_save_forex_rates] enriches, and in the [final_structured]
    table after its batch update. *)
Theorem C1_rate_80_84 (db : database) (rows : list row) (cache : forex_cache)
    (i : nat) (r : row) (fx : fx_entry) (sl : Z) :
  rows !! i = Some r →
  nonempty (main_category r) = true →
  find_fx (entity_master db) cache r = Some fx →
  fx_opening_rate fx = Some 80%float →
  fx_closing_rate fx = Some 84%float →
  row_sl_no r = Some sl → sl ≠ 0 →
  (∀ j r', rows !! j = Some r' → row_sl_no r' = Some sl → j = i) →
  let rate := if is_pl r then 82%float else 84%float in
  row_Avg_Fx_Rt <$> (_apply_forex_rates (entity_master db) rows cache).1 !! i
    = Some (Some rate)
  ∧ row_Avg_Fx_Rt <$> (_calculate_and_save_forex_rates db rows cache true).1.1 !! i
    = Some (Some rate)
  ∧ Forall (fun f => sl_no f = sl → Avg_Fx_Rt f = Some rate)
      (final_structured (_calculate_and_save_forex_rates db rows cache true).1.2).
Proof.
  intros Hi Hgate Hfx Ho Hc Hsl Hnz Huniq rate.
  assert (row_rate (entity_master db) cache r = Some rate) as Hrate.
  { rewrite (row_rate_resolved _ _ _ _ Hgate Hfx). by apply fx_rate_80_84. }
  split; [|split].
  - rewrite apply_rows_fst, list_lookup_fmap, Hi. simpl.
    by rewrite (apply_row_rate _ _ _ _ Hrate).
  - rewrite calculate_and_save_unfold. simpl.
    rewrite calc_loop_rows, list_lookup_fmap, Hi. simpl.
    by rewrite (calculate_row_rate _ _ _ _ _ Hrate).
  - eapply Forall_impl; [by eapply saved_rate|].
    intros f Hf Hid. by destruct (Hf Hid).
Qed.

Lemma C1_rate_80_84_witness :
  let rows := [Sample.pl_row; Sample.bs_row] in
  let cache := _build_forex_cache Sample.db rows in
  row_Avg_Fx_Rt <$> (_apply_forex_rates Sample.entities rows cache).1 !! 0%nat
    = Some (Some 82%float)
  ∧ row_Avg_Fx_Rt
      <$> (_calculate_and_save_forex_rates Sample.db rows cache true).1.1 !! 0%nat
    = Some (Some 82%float)
  ∧ Forall (fun f => sl_no f = 3 → Avg_Fx_Rt f = Some 82%float)
      (final_structured (_calculate_and_save_forex_rates Sample.db rows cache true).1.2).
Proof.
  intros rows cache.
  refine (C1_rate_80_84 Sample.db rows cache 0%nat Sample.pl_row
            (entity_entry 1 "USD" 2024
               {| opening_rate := Some 80%float; closing_rate := Some 84%float |})
            3 _ _ _ _ _ _ _ _).
  - reflexivity.
  - reflexivity.
  - vm_compute. reflexivity.
  - reflexivity.
  - reflexivity.
  - reflexivity.
  - lia.
  - intros [|[|j]] r' H1 H2; simpl in H1;
      [reflexivity | injection H1 as <-; discriminate H2 | discriminate H1].
Defined.

(** ** Claim C2 *)

Lemma fx_rate_both_names r fx :
  Spec.both_names_agree fx →
  fx_rate r fx
  = if is_pl r then
      match fx_opening_rate fx, fx_closing_rate fx with
      | Some o, Some c => Some ((o + c) / 2)%float
      | _, c => c
      end
    else fx_closing_rate fx.
Proof.
  intros [Hi Hl]. unfold fx_rate. rewrite Hi, Hl, !or_float_same.
  destruct (is_pl r), (fx_opening_rate fx), (fx_closing_rate fx); reflexivity.
Qed.

(** C2, as the specification words it, fails: a P&L row whose resolved FX
    record has an opening rate (100.0) and no closing rate would receive the
    opening rate, and the code leaves the row without a rate. *)
Lemma C2_opening_only_counterexample :
  ∃ fx,
    find_fx Sample.entities Sample.gbp_cache Sample.pl_row_gbp = Some fx
    ∧ is_pl Sample.pl_row_gbp = true
    ∧ fx_opening_rate fx = Some 100%float
    ∧ fx_closing_rate fx = None
    ∧ Spec.stated_effective_rate true (fx_opening_rate fx) (fx_closing_rate fx)
      = Some 100%float
    ∧ row_rate Sample.entities Sample.gbp_cache Sample.pl_row_gbp = None
    ∧ (_apply_forex_rates Sample.entities [Sample.pl_row_gbp] Sample.gbp_cache).1
      = [Sample.pl_row_gbp]
    ∧ (_calculate_and_save_forex_rates Sample.db [Sample.pl_row_gbp]
         Sample.gbp_cache true).1.2 = Sample.db.
Proof.
  exists (entity_entry 1 "GBP" 2024
            {| opening_rate := Some 100%float; closing_rate := None |}).
  repeat split; vm_compute; reflexivity.
Qed.

(** C2, amended.  For a row that passes the category gate and whose
    resolved FX record holds its rates under both names: a P&L-like row
    receives the average of the opening and closing rates when both exist
    and the closing rate alone when the opening rate is absent; any other
    row receives the closing rate; and whenever the closing rate is absent,
    whether or not an opening rate exists, both loops leave the row as it
    was (no rate and no USD amount assigned, no update queued). *)
Theorem C2_effective_rate (em : list entity_master_row) (cache : forex_cache)
    (r : row) (fx : fx_entry) :
  nonempty (main_category r) = true →
  find_fx em cache r = Some fx →
  Spec.both_names_agree fx →
  (∀ o c, is_pl r = true → fx_opening_rate fx = Some o → fx_closing_rate fx = Some c →
     row_Avg_Fx_Rt (apply_row em cache r).1 = Some ((o + c) / 2)%float
     ∧ ∀ save, row_Avg_Fx_Rt (calculate_row em cache save r).1.1
               = Some ((o + c) / 2)%float)
  ∧ (∀ c, is_pl r = true → fx_opening_rate fx = None → fx_closing_rate fx = Some c →
     row_Avg_Fx_Rt (apply_row em cache r).1 = Some c
     ∧ ∀ save, row_Avg_Fx_Rt (calculate_row em cache save r).1.1 = Some c)
  ∧ (∀ c, is_pl r = false → fx_closing_rate fx = Some c →
     row_Avg_Fx_Rt (apply_row em cache r).1 = Some c
     ∧ ∀ save, row_Avg_Fx_Rt (calculate_row em cache save r).1.1 = Some c)
  ∧ (fx_closing_rate fx = None →
     apply_row em cache r = (r, 0)
     ∧ ∀ save, calculate_row em cache save r = (r, [], 0)).
Proof.
  intros Hgate Hfx Hnames.
  pose proof (row_rate_resolved _ _ _ _ Hgate Hfx) as Hrate.
  rewrite (fx_rate_both_names _ _ Hnames) in Hrate.
  repeat split.
  - apply apply_row_rate. by rewrite Hrate, H, H0, H1.
  - intros save. apply calculate_row_rate. by rewrite Hrate, H, H0, H1.
  - apply apply_row_rate. by rewrite Hrate, H, H0, H1.
  - intros save. apply calculate_row_rate. by rewrite Hrate, H, H0, H1.
  - apply apply_row_rate. by rewrite Hrate, H, H0.
  - intros save. apply calculate_row_rate. by rewrite Hrate, H, H0.
  - apply apply_row_unrated. rewrite Hrate, H.
    by destruct (is_pl r), (fx_opening_rate fx).
  - intros save. apply calculate_row_unrated. rewrite Hrate, H.
    by destruct (is_pl r), (fx_opening_rate fx).
Qed.

Lemma C2_effective_rate_witness :
  row_Avg_Fx_Rt (apply_row Sample.entities
                   (_build_forex_cache Sample.db [Sample.pl_row]) Sample.pl_row).1
  = Some 82%float.
Proof.
  refine (proj1 (proj1 (C2_effective_rate Sample.entities
            (_build_forex_cache Sample.db [Sample.pl_row]) Sample.pl_row
            (entity_entry 1 "USD" 2024
               {| opening_rate := Some 80%float; closing_rate := Some 84%float |})
            _ _ _) 80%float 84%float _ _ _)).
  - reflexivity.
  - vm_compute. reflexivity.
  - split; reflexivity.
  - vm_compute. reflexivity.
  - reflexivity.
  - reflexivity.
Defined.

(** ** Claim C4 *)

Lemma Prim2SF_zero : Prim2SF 0%float = S754_zero false.
Proof. reflexivity. Qed.

(** The sign test followed by [calculate_amt_tb_lc] gives back a number of
    the sign of the number read. *)
Lemma sign_through_type (x : float) :
  ∃ y, calculate_amt_tb_lc (Some (amount_and_type x).1) (Some (amount_and_type x).2)
       = Some y
       ∧ (0 <? y)%float = (0 <? x)%float
       ∧ (y <? 0)%float = (x <? 0)%float
       ∧ ((amount_and_type x).2 = Cr ↔ (x <? 0)%float = true).
Proof.
  unfold amount_and_type.
  destruct (x <? 0)%float eqn:Hneg; [|destruct (0 <? x)%float eqn:Hpos]; simpl.
  - eexists. split; [reflexivity|].
    rewrite !ltb_spec, opp_spec, !abs_spec, Prim2SF_zero in *.
    destruct (Prim2SF x) as [[]|[]| |[] m e]; simpl in *; try discriminate; done.
  - eexists. split; [reflexivity|].
    rewrite !ltb_spec, !abs_spec, Prim2SF_zero in *.
    destruct (Prim2SF x) as [[]|[]| |[] m e]; simpl in *; try discriminate;
      (split; [done|split; [done|split; [discriminate|done]]]).
  - eexists. split; [reflexivity|].
    rewrite !ltb_spec, !abs_spec, Prim2SF_zero in *.
    destruct (Prim2SF x) as [[]|[]| |[] m e]; simpl in *; try discriminate;
      (split; [done|split; [done|split; [discriminate|done]]]).
Qed.

(** *** Strings *)

Ltac char_cases c :=
  destruct c as [[] [] [] [] [] [] [] []]; try discriminate; try reflexivity.

Lemma append_cons x (a b : string) : String x a +:+ b = String x (a +:+ b).
Proof. reflexivity. Qed.

Lemma append_nil (b : string) : "" +:+ b = b.
Proof. reflexivity. Qed.

Ltac app_simpl := rewrite ?append_cons, ?append_nil in *; cbn in *.

Lemma append_assoc_s (a b c : string) : (a +:+ b) +:+ c = a +:+ (b +:+ c).
Proof. induction a as [|x a IH]; [done|]. app_simpl. by rewrite IH. Qed.

Lemma append_empty_r (a : string) : a +:+ "" = a.
Proof. induction a as [|x a IH]; [done|]. app_simpl. by rewrite IH. Qed.

Lemma all_chars_app p (a b : string) :
  Spec.all_chars p (a +:+ b) = Spec.all_chars p a && Spec.all_chars p b.
Proof. induction a as [|x a IH]; [done|]. app_simpl. rewrite IH. by destruct (p x). Qed.

Lemma all_chars_impl (p q : ascii → bool) (s : string) :
  (∀ c, p c = true → q c = true) →
  Spec.all_chars p s = true → Spec.all_chars q s = true.
Proof.
  intros Hpq. induction s as [|x s IH]; [done|]. cbn.
  intros [Hx Hs]%andb_prop. by rewrite (Hpq _ Hx), IH.
Qed.

Lemma span_app p (a b : string) :
  Spec.all_chars p a = true → starts_without p b → span p (a +:+ b) = (a, b).
Proof.
  intros Ha Hb. induction a as [|x a IH].
  - rewrite append_nil. destruct b as [|y b]; [done|]. simpl in Hb. cbn. by rewrite Hb.
  - rewrite append_cons. cbn in Ha. apply andb_prop in Ha as [Hx Ha].
    cbn. by rewrite Hx, (IH Ha).
Qed.

Lemma drop_while_app p (a b : string) :
  starts_without p b →
  ∃ a', PyStr.drop_while p (a +:+ b) = a' +:+ b
        ∧ (∀ q, Spec.all_chars q a = true → Spec.all_chars q a' = true).
Proof.
  intros Hb. induction a as [|x a (a' & IH & Hq)].
  - exists EmptyString. split; [|done]. rewrite append_nil.
    destruct b as [|y b]; [done|]. simpl in Hb. cbn. by rewrite Hb.
  - rewrite append_cons. cbn. destruct (p x).
    + exists a'. split; [done|]. intros q [_ Ha]%andb_prop. by apply Hq.
    + by exists (String x a).
Qed.

Lemma drop_while_end_keeps q p (s : string) :
  Spec.all_chars q s = true → Spec.all_chars q (PyStr.drop_while_end p s) = true.
Proof.
  induction s as [|x s IH]; [done|]. cbn. intros [Hx Hs]%andb_prop.
  specialize (IH Hs).
  destruct (PyStr.drop_while_end p s) as [|y t].
  - destruct (p x); [done|]. cbn. by rewrite Hx.
  - cbn. cbn in IH. by rewrite Hx, IH.
Qed.

Lemma drop_while_end_none p (s : string) :
  Spec.all_chars (fun c => negb (p c)) s = true → PyStr.drop_while_end p s = s.
Proof.
  induction s as [|x s IH]; [done|]. cbn. intros [Hx Hs]%andb_prop.
  rewrite (IH Hs). apply negb_true_iff in Hx. rewrite Hx. by destruct s.
Qed.

Lemma drop_while_end_app p (a b : string) :
  PyStr.drop_while_end p b ≠ EmptyString →
  PyStr.drop_while_end p (a +:+ b) = a +:+ PyStr.drop_while_end p b.
Proof.
  intros Hb. induction a as [|x a IH]; [done|]. rewrite !append_cons. cbn. rewrite IH.
  destruct (a +:+ PyStr.drop_while_end p b) eqn:E; [|done].
  destruct a; [by rewrite append_nil in E|by rewrite append_cons in E].
Qed.

Lemma drop_while_end_app_empty p (a b : string) :
  PyStr.drop_while_end p b = EmptyString →
  PyStr.drop_while_end p (a +:+ b) = PyStr.drop_while_end p a.
Proof.
  intros Hb. induction a as [|x a IH]; [by rewrite append_nil|].
  rewrite append_cons. cbn. by rewrite IH.
Qed.

(** *** Markers around an amount *)

Lemma marker_not_space_or_amount c :
  Spec.is_marker_char c = true →
  is_digit_or_comma c = false ∧ PyStr.is_digit c = false
  ∧ Ascii.eqb c "-" = false ∧ Ascii.eqb c "." = false.
Proof. char_cases c; intros _; repeat split. Qed.

Lemma digit_or_comma_plain c :
  is_digit_or_comma c = true →
  PyStr.is_space c = false ∧ Ascii.eqb c "-" = false
  ∧ is_digit_or_comma (PyStr.lower_char c) = true.
Proof. char_cases c; intros _; repeat split. Qed.

Lemma digit_is_digit_or_comma c :
  PyStr.is_digit c = true → is_digit_or_comma c = true.
Proof. unfold is_digit_or_comma. by intros ->. Qed.

Lemma lower_char_digit_or_comma c :
  is_digit_or_comma (PyStr.lower_char c) = is_digit_or_comma c.
Proof. char_cases c. Qed.

Lemma lower_keeps_amount_chars (s : string) :
  Spec.all_chars (fun c => negb (is_digit_or_comma c)) (PyStr.lower s)
  = Spec.all_chars (fun c => negb (is_digit_or_comma c)) s.
Proof.
  induction s as [|x s IH]; [done|]. cbn.
  by rewrite lower_char_digit_or_comma, <- IH.
Qed.

Lemma re_search_unfold (s : string) :
  re_search s
  = match match_here s with
    | Some m => Some m
    | None => match s with
              | EmptyString => None
              | String _ t => re_search t
              end
    end.
Proof. by destruct s. Qed.

Lemma match_here_marker c (t : string) :
  Spec.is_marker_char c = true → match_here (String c t) = None.
Proof.
  intros (Hdc & _ & Hminus & _)%marker_not_space_or_amount.
  unfold match_here, optional_char. rewrite Hminus. cbn. by rewrite Hdc.
Qed.

Lemma re_search_skips_markers (pre rest : string) :
  Spec.all_chars Spec.is_marker_char pre = true →
  re_search (pre +:+ rest) = re_search rest.
Proof.
  induction pre as [|c pre IH]; [done|]. cbn. intros [Hc Hpre]%andb_prop.
  rewrite append_cons, re_search_unfold, (match_here_marker _ _ Hc). by apply IH.
Qed.

Lemma starts_without_marker (p : ascii → bool) (s : string) :
  (∀ c, Spec.is_marker_char c = true → p c = false) →
  Spec.all_chars Spec.is_marker_char s = true → starts_without p s.
Proof.
  intros Hp. destruct s as [|c s]; [done|]. cbn. intros [Hc _]%andb_prop. by apply Hp.
Qed.

Section AmountBetweenMarkers.
Variables (neg : bool) (group : string) (frac : option string) (post : string).
Hypothesis Hwf : Spec.well_formed_amount group frac.
Hypothesis Hpost : Spec.all_chars Spec.is_marker_char post = true.

Let body := Spec.amount_text neg group frac.

Lemma match_here_amount : match_here (body +:+ post) = Some body.
Proof.
  destruct Hwf as (Hne & Hgroup & Hfrac).
  assert (starts_without is_digit_or_comma post) as Hpost_dc.
  { apply starts_without_marker; [|done]. intros c Hc.
    by destruct (marker_not_space_or_amount c Hc) as (? & _). }
  assert (starts_without PyStr.is_digit post) as Hpost_d.
  { apply starts_without_marker; [|done]. intros c Hc.
    by destruct (marker_not_space_or_amount c Hc) as (_ & ? & _). }
  set (tail := match frac with Some f => "." +:+ f | None => "" end).
  assert (optional_char "-" (body +:+ post)
          = ((if neg then "-" else ""), group +:+ (tail +:+ post))) as Hsign.
  { unfold body, Spec.amount_text. fold tail. destruct neg.
    - rewrite !append_cons, !append_nil, append_assoc_s. reflexivity.
    - rewrite !append_nil, append_assoc_s.
      destruct group as [|g group']; [done|]. rewrite append_cons.
      cbn in Hgroup. apply andb_prop in Hgroup as [Hg _].
      destruct (digit_or_comma_plain g Hg) as (_ & Hminus & _).
      unfold optional_char. by rewrite Hminus. }
  assert (span is_digit_or_comma (group +:+ (tail +:+ post)) = (group, tail +:+ post))
    as Hspan.
  { apply span_app; [done|]. unfold tail. destruct frac as [f|].
    - rewrite !append_cons. reflexivity.
    - by rewrite append_nil. }
  unfold match_here. rewrite Hsign, Hspan.
  assert (∀ X : option string,
            match group with EmptyString => None | String _ _ => X end = X) as ->.
  { intros X. by destruct group. }
  unfold body, Spec.amount_text. fold tail. unfold tail.
  destruct frac as [f|].
  - rewrite !append_cons, !append_nil. unfold optional_char. cbn [Ascii.eqb Bool.eqb].
    cbn in Hfrac. rewrite (span_app _ _ _ Hfrac Hpost_d).
    by rewrite !append_cons, !append_nil.
  - rewrite append_nil.
    assert (optional_char "." post = ("", post)) as ->.
    { destruct post as [|c post']; [done|]. cbn in Hpost.
      apply andb_prop in Hpost as [Hc _].
      destruct (marker_not_space_or_amount c Hc) as (_ & _ & _ & Hdot).
      unfold optional_char. by rewrite Hdot. }
    assert (span PyStr.is_digit post = ("", post)) as ->.
    { destruct post as [|c post']; [done|]. cbn in Hpost_d. cbn. by rewrite Hpost_d. }
    by rewrite !append_nil, !append_empty_r.
Qed.

Lemma body_plain :
  body ≠ EmptyString
  ∧ Spec.all_chars (fun c => negb (PyStr.is_space c)) body = true.
Proof.
  destruct Hwf as (Hne & Hgroup & Hfrac). unfold body, Spec.amount_text. split.
  - destruct neg; [by rewrite append_cons|]. rewrite append_nil.
    destruct group; [done|by rewrite append_cons].
  - rewrite !all_chars_app. apply andb_true_intro. split; [by destruct neg|].
    apply andb_true_intro. split.
    + eapply all_chars_impl; [|exact Hgroup]. intros c Hc.
      destruct (digit_or_comma_plain c Hc) as (-> & _). done.
    + destruct frac as [f|]; [|done]. rewrite append_cons. cbn. cbn in Hfrac.
      eapply all_chars_impl; [|exact Hfrac]. intros c Hc.
      destruct (digit_or_comma_plain c (digit_is_digit_or_comma c Hc)) as (-> & _). done.
Qed.

Lemma body_has_amount_char :
  Spec.all_chars (fun c => negb (is_digit_or_comma c)) body = false.
Proof.
  destruct Hwf as (Hne & Hgroup & Hfrac). unfold body, Spec.amount_text.
  rewrite !all_chars_app.
  destruct group as [|g group']; [done|]. cbn in Hgroup.
  apply andb_prop in Hgroup as [Hg _]. cbn. rewrite Hg. cbn.
  by rewrite andb_false_r.
Qed.
End AmountBetweenMarkers.

(** The number read in a cell does not depend on the markers written
    around the amount. *)
Lemma cell_number_ignores_markers (pre post : string) (neg : bool) (group : string)
    (frac : option string) :
  Spec.all_chars Spec.is_marker_char pre = true →
  Spec.all_chars Spec.is_marker_char post = true →
  Spec.well_formed_amount group frac →
  cell_number (Some (pre +:+ Spec.amount_text neg group frac +:+ post))
  = py_float (remove_commas (Spec.amount_text neg group frac)).
Proof.
  intros Hpre Hpost Hwf.
  set (body := Spec.amount_text neg group frac).
  destruct (body_plain neg group frac Hwf) as [Hne Hplain]. fold body in Hne, Hplain.
  pose proof (body_has_amount_char neg group frac Hwf) as Hamount. fold body in Hamount.
  (* the cell once stripped *)
  assert (∃ pre' post',
            PyStr.strip (pre +:+ body +:+ post) = pre' +:+ body +:+ post'
            ∧ Spec.all_chars Spec.is_marker_char pre' = true
            ∧ Spec.all_chars Spec.is_marker_char post' = true)
    as (pre' & post' & Hstrip & Hpre' & Hpost').
  { unfold PyStr.strip.
    destruct (drop_while_app PyStr.is_space pre (body +:+ post)) as (pre' & -> & Hkeep).
    { destruct body as [|b body']; [done|]. rewrite append_cons. cbn.
      cbn in Hplain. apply andb_prop in Hplain as [Hb _]. by apply negb_true_iff. }
    exists pre', (PyStr.drop_while_end PyStr.is_space post).
    split; [|split; [by apply Hkeep|by apply drop_while_end_keeps]].
    assert (PyStr.drop_while_end PyStr.is_space (body +:+ post)
            = body +:+ PyStr.drop_while_end PyStr.is_space post) as Hend.
    { destruct (PyStr.drop_while_end PyStr.is_space post) eqn:E.
      - rewrite (drop_while_end_app_empty _ _ _ E), append_empty_r.
        by apply drop_while_end_none.
      - rewrite <- E. apply drop_while_end_app. by rewrite E. }
    rewrite drop_while_end_app; rewrite Hend; [done|].
    destruct body; [done|by rewrite append_cons]. }
  unfold cell_number. rewrite Hstrip.
  assert (Spec.all_chars (fun c => negb (is_digit_or_comma c)) (pre' +:+ body +:+ post')
          = false) as Hhas.
  { by rewrite !all_chars_app, Hamount, andb_false_r. }
  assert (PyStr.eqb (pre' +:+ body +:+ post') "" || is_na_text (pre' +:+ body +:+ post')
          = false) as ->.
  { apply orb_false_intro.
    - unfold PyStr.eqb. apply bool_decide_eq_false. intros E. by rewrite E in Hhas.
    - unfold is_na_text, PyStr.eqb.
      rewrite <- lower_keeps_amount_chars in Hhas.
      repeat (apply orb_false_intro); apply bool_decide_eq_false;
        intros E; by rewrite E in Hhas. }
  rewrite (re_search_skips_markers _ _ Hpre'), re_search_unfold. subst body.
  by rewrite (match_here_amount neg group frac post' Hwf Hpost').
Qed.

(** *** The number written by an amount *)

Lemma remove_commas_app (a b : string) :
  remove_commas (a +:+ b) = remove_commas a +:+ remove_commas b.
Proof.
  induction a as [|x a IH]; [done|]. rewrite append_cons. cbn.
  destruct (PyStr.code x =? 44)%N; [done|]. by rewrite append_cons, IH.
Qed.

Lemma digit_not_comma c : PyStr.is_digit c = true → (PyStr.code c =? 44)%N = false.
Proof. char_cases c. Qed.

Lemma remove_commas_digits (s : string) :
  Spec.all_chars PyStr.is_digit s = true → remove_commas s = s.
Proof.
  induction s as [|x s IH]; [done|]. cbn. intros [Hx Hs]%andb_prop.
  by rewrite (digit_not_comma x Hx), IH.
Qed.

Lemma digit_or_comma_cases c :
  is_digit_or_comma c = true →
  (PyStr.code c =? 44)%N = true ∧ PyStr.is_digit c = false
  ∨ (PyStr.code c =? 44)%N = false ∧ PyStr.is_digit c = true.
Proof. char_cases c; intros _; auto. Qed.

Lemma remove_commas_group (g : string) :
  Spec.all_chars is_digit_or_comma g = true →
  Spec.all_chars PyStr.is_digit (remove_commas g) = true
  ∧ (Spec.has_digit g = true → remove_commas g ≠ EmptyString)
  ∧ Spec.has_nonzero_digit (remove_commas g) = Spec.has_nonzero_digit g.
Proof.
  unfold Spec.has_digit, Spec.has_nonzero_digit.
  induction g as [|x g IH]; [done|]. cbn. intros [Hx Hg]%andb_prop.
  destruct (IH Hg) as (IH1 & IH2 & IH3).
  destruct (digit_or_comma_cases x Hx) as [[-> Hd]|[-> Hd]]; rewrite Hd; cbn.
  - split; [done|]. split; [done|].
    assert (Spec.is_nonzero_digit x = false) as -> by (revert Hd; clear; char_cases x).
    done.
  - rewrite Hd, IH1. split; [done|]. split; [done|].
    by destruct (Spec.is_nonzero_digit x).
Qed.

Lemma has_nonzero_digit_app (a b : string) :
  Spec.has_nonzero_digit (a +:+ b) = Spec.has_nonzero_digit a || Spec.has_nonzero_digit b.
Proof.
  unfold Spec.has_nonzero_digit. rewrite all_chars_app.
  by destruct (Spec.all_chars _ a), (Spec.all_chars _ b).
Qed.

Lemma digit_value_range c :
  PyStr.is_digit c = true →
  0 <= PyStr.digit_value c <= 9
  ∧ (PyStr.digit_value c = 0 ↔ Spec.is_nonzero_digit c = false).
Proof. char_cases c; intros _; (split; [by vm_compute|]); by vm_compute. Qed.

(** The number a run of digits writes is zero exactly when every digit
    is 0. *)
Lemma digits_to_Z_zero (s : string) : ∀ acc,
  Spec.all_chars PyStr.is_digit s = true → 0 <= acc →
  0 <= digits_to_Z acc s
  ∧ (digits_to_Z acc s = 0 ↔ acc = 0 ∧ Spec.has_nonzero_digit s = false).
Proof.
  unfold Spec.has_nonzero_digit.
  induction s as [|x s IH]; intros acc Hs Hacc; cbn.
  - split; [done|]. split; [done|by intros [? _]].
  - cbn in Hs. apply andb_prop in Hs as [Hx Hs].
    destruct (digit_value_range x Hx) as [Hrange Hzero].
    destruct (IH (10 * acc + PyStr.digit_value x) Hs) as [Hpos Hiff]; [lia|].
    split; [done|]. rewrite Hiff. split.
    + intros [Hsum Hrest]. assert (PyStr.digit_value x = 0) as Hv by lia.
      apply Hzero in Hv. rewrite Hv. cbn. split; [lia|done].
    + intros [-> Hrest]. destruct (Spec.is_nonzero_digit x) eqn:E; [done|].
      cbn in Hrest. split; [|done].
      assert (PyStr.digit_value x = 0) by (by apply Hzero). lia.
Qed.

Lemma sign_of_digits c (t : string) :
  PyStr.is_digit c = true →
  match String c t with
  | String "-" t' => (true, t')
  | _ => (false, String c t)
  end = (false, String c t).
Proof. char_cases c. Qed.

(** [float] of an optional minus sign, digits, and an optional point with
    digits. *)
Lemma py_float_decimal (neg : bool) (ip : string) (frac : option string) :
  ip ≠ EmptyString →
  Spec.all_chars PyStr.is_digit ip = true →
  Spec.all_chars PyStr.is_digit (default EmptyString frac) = true →
  py_float ((if neg then "-" else "") +:+ ip
            +:+ match frac with Some f => "." +:+ f | None => "" end)
  = Some (float_of_decimal neg (digits_to_Z 0 (ip +:+ default EmptyString frac))
            (Z.of_nat (String.length (default EmptyString frac)))).
Proof.
  intros Hne Hip Hfp.
  set (tail := match frac with Some f => "." +:+ f | None => "" end).
  assert (starts_without PyStr.is_digit tail) as Htail.
  { unfold tail. destruct frac; [by rewrite append_cons|done]. }
  unfold py_float.
  assert (match (if neg then "-" else "") +:+ ip +:+ tail with
          | String "-" t => (true, t)
          | _ => (false, (if neg then "-" else "") +:+ ip +:+ tail)
          end = (neg, ip +:+ tail)) as ->.
  { destruct neg.
    - by rewrite !append_cons, append_nil.
    - rewrite append_nil. destruct ip as [|c ip']; [done|].
      cbn in Hip. apply andb_prop in Hip as [Hc _].
      rewrite append_cons. by apply sign_of_digits. }
  rewrite (span_app _ _ _ Hip Htail).
  assert (match tail with
          | String "." t => span PyStr.is_digit t
          | _ => (EmptyString, tail)
          end = (default EmptyString frac, EmptyString)) as ->.
  { unfold tail. destruct frac as [f|]; [|done]. rewrite append_cons, append_nil.
    cbn in Hfp. rewrite <- (append_empty_r f) at 1. by apply span_app. }
  destruct ip as [|c ip']; [done|]. reflexivity.
Qed.

(** *** Binary64 rounding *)

Lemma digits2_pos_size p : SpecFloat.digits2_pos p = Pos.size p.
Proof. induction p; simpl; congruence. Qed.

Lemma digits2_bounds p :
  2 ^ (Zpos (SpecFloat.digits2_pos p) - 1) <= Zpos p < 2 ^ Zpos (SpecFloat.digits2_pos p).
Proof.
  rewrite digits2_pos_size. split.
  - pose proof (Pos.size_le p) as H.
    apply Pos2Z.pos_le_pos in H. rewrite Pos2Z.inj_pow in H.
    replace (Zpos (Pos.size p)) with (Z.succ (Zpos (Pos.size p) - 1)) in H by lia.
    rewrite Z.pow_succ_r in H by lia. change (Zpos p~0) with (2 * Zpos p) in H. lia.
  - pose proof (Pos.size_gt p) as H.
    apply Pos2Z.pos_lt_pos in H. by rewrite Pos2Z.inj_pow in H.
Qed.

Lemma digits2_unique p d :
  2 ^ (d - 1) <= Zpos p < 2 ^ d → Zpos (SpecFloat.digits2_pos p) = d.
Proof.
  intros [Hlo Hhi]. pose proof (digits2_bounds p) as [Hlo' Hhi'].
  set (d' := Zpos (SpecFloat.digits2_pos p)) in *.
  assert (0 < d') by done.
  assert (0 <= d) as Hd.
  { destruct (Z.le_gt_cases 0 d); [done|]. rewrite Z.pow_neg_r in Hhi by lia. lia. }
  assert (d - 1 < d').
  { apply (Z.pow_lt_mono_r_iff 2); [lia|lia|]. lia. }
  assert (d' - 1 < d).
  { apply (Z.pow_lt_mono_r_iff 2); [lia|lia|]. lia. }
  lia.
Qed.

Lemma shr_1_m mrs :
  0 <= SpecFloat.shr_m mrs →
  SpecFloat.shr_m (SpecFloat.shr_1 mrs) = SpecFloat.shr_m mrs / 2.
Proof.
  destruct mrs as [m r s]. cbn [SpecFloat.shr_m]. intros Hm.
  destruct m as [|[p|p|]|p]; cbn [SpecFloat.shr_m SpecFloat.shr_1]; try lia.
  - reflexivity.
  - apply (Z.div_unique _ 2 _ 1); lia.
  - apply (Z.div_unique _ 2 _ 0); lia.
  - reflexivity.
Qed.

Lemma shr_1_nonneg mrs :
  0 <= SpecFloat.shr_m mrs → 0 <= SpecFloat.shr_m (SpecFloat.shr_1 mrs).
Proof. intros H. rewrite shr_1_m by done. apply Z.div_pos; lia. Qed.

Lemma pow2_xI p : 2 ^ Zpos p~1 = 2 * 2 ^ Zpos p * 2 ^ Zpos p.
Proof.
  replace (Zpos p~1) with (1 + Zpos p + Zpos p) by lia.
  rewrite !Z.pow_add_r by lia. reflexivity.
Qed.

Lemma pow2_xO p : 2 ^ Zpos p~0 = 2 ^ Zpos p * 2 ^ Zpos p.
Proof.
  replace (Zpos p~0) with (Zpos p + Zpos p) by lia.
  rewrite !Z.pow_add_r by lia. reflexivity.
Qed.

Lemma iter_shr_1_m p : ∀ mrs,
  0 <= SpecFloat.shr_m mrs →
  SpecFloat.shr_m (SpecFloat.iter_pos SpecFloat.shr_1 p mrs)
  = SpecFloat.shr_m mrs / 2 ^ Zpos p.
Proof.
  assert (∀ q, 0 < 2 ^ Zpos q) as Hpos by (intros q; apply Z.pow_pos_nonneg; lia).
  induction p as [p IH|p IH|]; intros mrs Hm; cbn [SpecFloat.iter_pos].
  - pose proof (Hpos p). pose proof (shr_1_nonneg mrs Hm) as H1.
    rewrite IH, IH, shr_1_m; try done.
    + rewrite !Z.div_div by lia. rewrite pow2_xI. f_equal. lia.
    + rewrite IH by done. apply Z.div_pos; [done|lia].
  - pose proof (Hpos p).
    rewrite IH, IH; try done.
    + rewrite !Z.div_div by lia. by rewrite pow2_xO.
    + rewrite IH by done. apply Z.div_pos; [done|lia].
  - rewrite shr_1_m by done. reflexivity.
Qed.

Lemma shr_m_of_loc m l : SpecFloat.shr_m (SpecFloat.shr_record_of_loc m l) = m.
Proof. by destruct l as [|[]]. Qed.

Lemma shr_fexp_spec p e l :
  let d := Zpos (SpecFloat.digits2_pos p) in
  let e1 := SpecFloat.fexp prec emax (d + e) in
  e <= e1 → e1 - e < d →
  ∃ mrs q, SpecFloat.shr_fexp prec emax (Zpos p) e l = (mrs, e1)
     ∧ SpecFloat.shr_m mrs = Zpos q
     ∧ Zpos q = Zpos p / 2 ^ (e1 - e)
     ∧ Zpos (SpecFloat.digits2_pos q) = d - (e1 - e).
Proof.
  intros d e1 Hle Hlt. unfold SpecFloat.shr_fexp, SpecFloat.shr.
  cbn [SpecFloat.Zdigits2]. fold d e1.
  pose proof (digits2_bounds p) as [Hlo Hhi]. fold d in Hlo, Hhi.
  remember (e1 - e) as n eqn:En.
  assert (0 < 2 ^ n) as Hn by (apply Z.pow_pos_nonneg; lia).
  assert (2 ^ (d - 1 - n) <= Zpos p / 2 ^ n < 2 ^ (d - n)) as [Hqlo Hqhi].
  { split.
    - apply Z.div_le_lower_bound; [done|].
      rewrite <- Z.pow_add_r by lia. by replace (n + (d - 1 - n)) with (d - 1) by lia.
    - apply Z.div_lt_upper_bound; [done|].
      rewrite <- Z.pow_add_r by lia. by replace (n + (d - n)) with d by lia. }
  assert (0 < 2 ^ (d - 1 - n)) by (apply Z.pow_pos_nonneg; lia).
  destruct (Zpos p / 2 ^ n) as [|q|q] eqn:Hq; try lia.
  assert (Zpos (SpecFloat.digits2_pos q) = d - n) as Hdq.
  { apply digits2_unique. by replace (d - n - 1) with (d - 1 - n) by lia. }
  destruct n as [|n|n]; [| |lia].
  - exists (SpecFloat.shr_record_of_loc (Zpos p) l), q.
    rewrite shr_m_of_loc. replace e1 with e by lia.
    rewrite Z.pow_0_r, Z.div_1_r in Hq. by rewrite Hq.
  - exists (SpecFloat.iter_pos SpecFloat.shr_1 n (SpecFloat.shr_record_of_loc (Zpos p) l)), q.
    rewrite iter_shr_1_m, shr_m_of_loc by (by rewrite shr_m_of_loc).
    replace (e + Zpos n) with e1 by lia. by rewrite Hq.
Qed.

Lemma round_nearest_even_bounds m l :
  m <= SpecFloat.round_nearest_even m l <= m + 1.
Proof.
  destruct l as [|[]]; simpl; try lia. destruct (Z.even m); lia.
Qed.

Lemma fexp_mono a b : a <= b → SpecFloat.fexp prec emax a <= SpecFloat.fexp prec emax b.
Proof. unfold SpecFloat.fexp. lia. Qed.

(** A mantissa of more than [prec] bits that is not below the least
    subnormal number rounds to a valid number of the sign given, finite and
    not zero, or infinite. *)
Lemma binary_round_shape sx mx ex :
  let d := Zpos (SpecFloat.digits2_pos mx) in
  prec < d → SpecFloat.emin prec emax < d + ex →
  let r := SpecFloat.binary_round prec emax sx mx ex in
  SpecFloat.valid_binary prec emax r = true
  ∧ (r = S754_infinity sx ∨ ∃ m e, r = S754_finite sx m e).
Proof.
  intros d Hd Hmin r. unfold r, SpecFloat.binary_round, SpecFloat.shl_align.
  fold d. set (e1 := SpecFloat.fexp prec emax (d + ex)).
  assert (ex < e1 ∧ e1 - ex < d ∧ SpecFloat.emin prec emax <= e1) as (He1 & He1' & Hemin).
  { unfold e1, SpecFloat.fexp, SpecFloat.emin, prec, emax in *. lia. }
  destruct (e1 - ex) as [|n|n] eqn:En; try lia.
  unfold SpecFloat.binary_round_aux.
  destruct (shr_fexp_spec mx ex loc_Exact) as (mrs1 & q1 & -> & Hm1 & Hq1 & Hd1);
    fold d e1; [lia|lia|]. fold d e1 in Hd1.
  pose proof (round_nearest_even_bounds (SpecFloat.shr_m mrs1)
                (SpecFloat.loc_of_shr_record mrs1)) as Hround.
  destruct (SpecFloat.round_nearest_even (SpecFloat.shr_m mrs1)
              (SpecFloat.loc_of_shr_record mrs1)) as [|q2|q2]; [lia| |lia].
  rewrite Hm1 in Hround.
  set (d2 := Zpos (SpecFloat.digits2_pos q2)).
  assert (Zpos (SpecFloat.digits2_pos q1) <= d2) as Hd2.
  { pose proof (digits2_bounds q1) as [Hlo _]. pose proof (digits2_bounds q2) as [_ Hhi].
    fold d2 in Hhi. 
    assert (Zpos (SpecFloat.digits2_pos q1) - 1 < d2); [|lia].
    apply (Z.pow_lt_mono_r_iff 2); [lia|unfold d2; lia|lia]. }
  assert (e1 <= SpecFloat.fexp prec emax (d2 + e1)) as Hle2.
  { transitivity (SpecFloat.fexp prec emax (d + ex)); [done|].
    apply fexp_mono. lia. }
  destruct (shr_fexp_spec q2 e1 loc_Exact) as (mrs2 & q3 & -> & Hm3 & Hq3 & Hd3);
    fold d2; [done| |].
  { unfold SpecFloat.fexp, SpecFloat.emin, prec, emax in *. lia. }
  fold d2 in Hd3. rewrite Hm3.
  destruct (_ <=? _) eqn:Hbound.
  - split; [|right; by eexists _, _].
    simpl. unfold SpecFloat.bounded, SpecFloat.canonical_mantissa.
    rewrite Hbound, andb_true_r. apply Z.eqb_eq. f_equal. lia.
  - split; [done|by left].
Qed.

Lemma digits2_gt p x : 2 ^ x <= Zpos p → x < Zpos (SpecFloat.digits2_pos p).
Proof.
  intros H. pose proof (digits2_bounds p) as [_ Hhi].
  destruct (Z.le_gt_cases 0 x); [|lia].
  apply (Z.pow_lt_mono_r_iff 2); lia.
Qed.

Lemma ltb_of_shape sx r :
  SpecFloat.valid_binary prec emax r = true →
  (r = S754_infinity sx ∨ ∃ m e, r = S754_finite sx m e) →
  (SF2Prim r <? 0)%float = sx ∧ (0 <? SF2Prim r)%float = negb sx.
Proof.
  intros Hvalid Hr. rewrite !ltb_spec, (Prim2SF_SF2Prim _ Hvalid).
  change (Prim2SF 0) with (S754_zero false).
  destruct Hr as [->|(m & e & ->)]; by destruct sx.
Qed.

(** The sign of [float(s)]: a decimal with a digit that is not zero and at
    most 323 decimals is not rounded to zero, so it is below zero with a
    minus sign and above zero without. *)
Lemma float_of_decimal_sign neg m k :
  0 < m → 0 <= k → 10 ^ k <= m * 2 ^ 1074 →
  (float_of_decimal neg m k <? 0)%float = neg
  ∧ (0 <? float_of_decimal neg m k)%float = negb neg.
Proof.
  intros Hm Hk Hsmall. destruct m as [|p|p]; try lia.
  unfold float_of_decimal.
  set (s := Z.log2_up (10 ^ k) + 70).
  set (q := Z.pos p * 2 ^ s / 10 ^ k).
  set (sticky := if (Z.pos p * 2 ^ s) mod 10 ^ k =? 0 then 0 else 1).
  assert (0 < 10 ^ k) as H10 by (apply Z.pow_pos_nonneg; lia).
  assert (0 <= Z.log2_up (10 ^ k)) as Hlog by apply Z.log2_up_nonneg.
  assert (10 ^ k * 2 ^ 70 <= 2 ^ s) as Hs.
  { unfold s. rewrite Z.pow_add_r by lia.
    apply Z.mul_le_mono_nonneg_r; [lia|].
    destruct (Z.eq_dec (10 ^ k) 1) as [->|Hne]; [done|].
    apply Z.log2_up_spec. lia. }
  assert (2 ^ 70 <= q) as Hq70.
  { unfold q. apply Z.div_le_lower_bound; [done|]. nia. }
  assert (0 <= sticky <= 1) as Hsticky by (unfold sticky; destruct (_ =? _); lia).
  assert (2 ^ (s - 1074) <= q) as Hq.
  { destruct (Z.le_gt_cases 1074 s) as [Hge|Hlt].
    - unfold q. apply Z.div_le_lower_bound; [done|].
      replace s with (s - 1074 + 1074) at 2 by lia.
      rewrite (Z.pow_add_r 2 (s - 1074)) by lia.
      assert (0 < 2 ^ (s - 1074)) by (apply Z.pow_pos_nonneg; lia). nia.
    - rewrite Z.pow_neg_r by lia. lia. }
  set (mx := Z.to_pos (2 * q + sticky)).
  assert (Zpos mx = 2 * q + sticky) as Hmx by (unfold mx; lia).
  destruct (binary_round_shape neg mx (- s - 1)) as [Hvalid Hshape];
    [| |by apply ltb_of_shape].
  - apply digits2_gt. rewrite Hmx. unfold prec.
    assert (2 ^ 53 <= 2 ^ 70) by (apply Z.pow_le_mono_r; lia). lia.
  - unfold SpecFloat.emin, prec, emax.
    assert (s - 1073 < Zpos (SpecFloat.digits2_pos mx)); [|lia].
    destruct (Z.le_gt_cases 1074 s) as [Hge|Hlt]; [|lia].
    apply digits2_gt. rewrite Hmx.
    replace (s - 1073) with (Z.succ (s - 1074)) by lia.
    rewrite Z.pow_succ_r by lia. lia.
Qed.

Lemma float_of_decimal_zero neg k :
  (float_of_decimal neg 0 k <? 0)%float = false
  ∧ (0 <? float_of_decimal neg 0 k)%float = false.
Proof. by destruct neg. Qed.

Lemma pow10_323 : 10 ^ 323 <= 2 ^ 1074.
Proof. apply Z.leb_le. vm_compute. reflexivity. Qed.

(** The sign of the number read in a documented amount. *)
Lemma amount_number_sign (neg : bool) (group : string) (frac : option string) :
  Spec.well_formed_amount group frac →
  Spec.has_digit group = true →
  (String.length (default EmptyString frac) ≤ 323)%nat →
  ∃ x, py_float (remove_commas (Spec.amount_text neg group frac)) = Some x
       ∧ (x <? 0)%float
         = neg && Spec.has_nonzero_digit (group +:+ default EmptyString frac)
       ∧ (0 <? x)%float
         = negb neg && Spec.has_nonzero_digit (group +:+ default EmptyString frac).
Proof.
  intros (Hne & Hgroup & Hfrac) Hdigit Hlen.
  destruct (remove_commas_group group Hgroup) as (Hg & Hgne & Hgnz).
  set (f := default EmptyString frac) in *.
  assert (remove_commas (Spec.amount_text neg group frac)
          = (if neg then "-" else "") +:+ remove_commas group
            +:+ match frac with Some f => "." +:+ f | None => "" end) as ->.
  { unfold Spec.amount_text. rewrite !remove_commas_app. f_equal; [by destruct neg|].
    f_equal. destruct frac as [f'|]; [|done].
    rewrite remove_commas_app. cbn in Hfrac. by rewrite (remove_commas_digits f'). }
  rewrite py_float_decimal by auto. fold f.
  set (m := digits_to_Z 0 (remove_commas group +:+ f)).
  set (k := Z.of_nat (String.length f)).
  eexists. split; [reflexivity|].
  destruct (digits_to_Z_zero (remove_commas group +:+ f) 0) as [Hpos Hzero]; [|done|].
  { rewrite all_chars_app. by rewrite Hg, Hfrac. }
  fold m in Hpos, Hzero.
  rewrite has_nonzero_digit_app, Hgnz, <- has_nonzero_digit_app in Hzero.
  destruct (Spec.has_nonzero_digit (group +:+ f)) eqn:Hnz.
  - rewrite !andb_true_r. apply float_of_decimal_sign.
    + destruct (Z.eq_dec m 0) as [E|E]; [|lia]. apply Hzero in E as [_ ?]. done.
    + unfold k. lia.
    + assert (0 < m).
      { destruct (Z.eq_dec m 0) as [E|E]; [|lia]. apply Hzero in E as [_ ?]. done. }
      assert (10 ^ k <= 10 ^ 323) by (apply Z.pow_le_mono_r; unfold k; lia).
      pose proof pow10_323. nia.
  - rewrite !andb_false_r. assert (m = 0) as -> by (by apply Hzero).
    apply float_of_decimal_zero.
Qed.

(** C4, as the specification words it, fails: the sign is not that of the
    number for every cell.  The cell "-.5" is the number -0.5 for [float],
    but the pattern wants a digit or a comma right after the minus sign, so
    the amount is read from "5" on and the row is stored with +5.0, a
    Debit. *)
Lemma C4_sign_counterexample :
  py_float "-.5" = Some (-0.5)%float
  ∧ derived_transaction_amount (Some "-.5") = Some 5%float
  ∧ ¬ (∀ (cell : string) (x : float),
         py_float cell = Some x →
         ∃ y, derived_transaction_amount (Some cell) = Some y
              ∧ (y <? 0)%float = (x <? 0)%float
              ∧ (0 <? y)%float = (0 <? x)%float).
Proof.
  split; [vm_compute; reflexivity|]. split; [vm_compute; reflexivity|].
  intros H. destruct (H "-.5" (-0.5)%float) as (y & Hy & Hneg & _).
  - vm_compute. reflexivity.
  - vm_compute in Hy. injection Hy as <-. vm_compute in Hneg. discriminate.
Qed.

(** C4, amended.  A cell holds an amount in the documented format (an
    optional minus sign, then ASCII digits and thousands separators with a
    digit among them, then optionally a point and at most 323 decimals),
    alone or with ASCII letters and spaces, such as a "Dr" or "Cr" marker,
    before and after it.  The [transactionAmount] written for the cell is negative, and
    the type Cr, exactly when the amount has a minus sign and a digit other
    than 0; it is positive exactly when the amount has no minus sign and a
    digit other than 0; the letters around the amount change nothing. *)
Theorem C4_sign_from_number (pre post : string) (neg : bool) (group : string)
    (frac : option string) :
  Spec.all_chars Spec.is_marker_char pre = true →
  Spec.all_chars Spec.is_marker_char post = true →
  Spec.well_formed_amount group frac →
  Spec.has_digit group = true →
  (String.length (default EmptyString frac) ≤ 323)%nat →
  let cell := Some (pre +:+ Spec.amount_text neg group frac +:+ post) in
  let nonzero := Spec.has_nonzero_digit (group +:+ default EmptyString frac) in
  ∃ amount y,
    parse_amount_and_type cell = Some (amount, if neg && nonzero then Cr else Dr)
    ∧ derived_transaction_amount cell = Some y
    ∧ (y <? 0)%float = neg && nonzero
    ∧ (0 <? y)%float = negb neg && nonzero.
Proof.
  intros Hpre Hpost Hwf Hdigit Hlen cell nonzero.
  destruct (amount_number_sign neg group frac Hwf Hdigit Hlen) as (x & Hx & Hneg & Hpos).
  fold nonzero in Hneg, Hpos.
  assert (cell_number cell = Some x) as Hcell.
  { unfold cell. by rewrite cell_number_ignores_markers. }
  destruct (sign_through_type x) as (y & Hy & Hypos & Hyneg & Hty).
  exists (amount_and_type x).1, y.
  unfold derived_transaction_amount, parse_amount_and_type. rewrite Hcell. cbn.
  split; [|split; [|split]].
  - f_equal. rewrite <- Hneg. unfold amount_and_type.
    by destruct (x <? 0)%float; [|destruct (0 <? x)%float].
  - by destruct (amount_and_type x).
  - by rewrite Hyneg.
  - by rewrite Hypos.
Qed.

Lemma C4_sign_from_number_witness :
  ∃ amount y,
    parse_amount_and_type (Some "-62,291.18 Dr") = Some (amount, Cr)
    ∧ derived_transaction_amount (Some "-62,291.18 Dr") = Some y
    ∧ (y <? 0)%float = true
    ∧ (0 <? y)%float = false.
Proof.
  refine (C4_sign_from_number "" " Dr" true "62,291" (Some "18") _ _ _ _ _).
  - reflexivity.
  - reflexivity.
  - split; [discriminate|split; vm_compute; reflexivity].
  - reflexivity.
  - simpl. lia.
Defined.

(** A negative number marked "Dr" is stored negative, a positive number
    marked "Cr" is stored positive. *)
Example marker_is_ignored :
  derived_transaction_amount (Some "-62,291.18 Dr") = Some (-0x1.e6a65c28f5c29p+15)%float
  ∧ derived_transaction_amount (Some "1000 Cr") = Some 1000%float
  ∧ derived_transaction_amount (Some "nan") = None.
Proof. repeat split; vm_compute; reflexivity. Qed.

(** ** Claim C7 *)

Lemma holds_or a b : Sql.holds (Sql.or_ a b) = Sql.holds a || Sql.holds b.
Proof. by destruct a as [[]|], b as [[]|]. Qed.

Lemma holds_and a b : Sql.holds (Sql.and_ a b) = Sql.holds a && Sql.holds b.
Proof. by destruct a as [[]|], b as [[]|]. Qed.

Lemma holds_eq_str a b :
  Sql.holds (Sql.eq_str a b) = true ↔ ∃ s, a = Some s ∧ b = Some s.
Proof.
  destruct a as [x|], b as [y|]; simpl; unfold PyStr.eqb;
    try (split; [discriminate|by intros (? & ? & ?)]).
  case_bool_decide; split; try done.
  - intros _. exists x. by subst.
  - intros (s & ? & ?). congruence.
Qed.

Lemma null_or_blank_populated v :
  Sql.holds (null_or_blank v) = false ↔ Spec.populated v.
Proof.
  unfold null_or_blank, Spec.populated. destruct v as [s|]; simpl.
  - unfold PyStr.eqb. case_bool_decide; simpl.
    + split; [discriminate|]. intros (s' & [= <-] & Hne). done.
    + split; [|done]. intros _. by exists s.
  - split; [discriminate|]. by intros (? & ? & ?).
Qed.

Lemma missing_not_populated f :
  Sql.holds (some_category_missing f) = false ↔ Spec.all_categories_populated f.
Proof.
  unfold some_category_missing, Spec.all_categories_populated.
  rewrite !holds_or, !orb_false_iff, !null_or_blank_populated. done.
Qed.

Lemma particular_matches_mapped f cm :
  Sql.holds (particular_matches f cm) = true ↔ Spec.mapped_by cm f.
Proof.
  unfold particular_matches, Spec.mapped_by, Sql.lower_trim.
  rewrite holds_eq_str. destruct (Particular f) as [p|], (RawParticulars cm) as [k|];
    simpl; split.
  all: try (intros (s & ? & ?); discriminate).
  all: try (intros (p' & k' & ? & ? & ?); discriminate).
  - intros (s & Hp & Hk). exists p, k. split; [done|split; [done|]]. congruence.
  - intros (p' & k' & Hp & Hk & E). exists (PyStr.lower (PyStr.sql_trim p)).
    split; [done|]. f_equal. congruence.
Qed.

Lemma find_matches_with_categories cms f m c1 c2 c3 c4 c5 :
  List.find (fun cm => Sql.holds (particular_matches
                                    (with_categories f m c1 c2 c3 c4 c5) cm)) cms
  = List.find (fun cm => Sql.holds (particular_matches f cm)) cms.
Proof. reflexivity. Qed.

Lemma with_categories_twice f m c1 c2 c3 c4 c5 m' c1' c2' c3' c4' c5' :
  with_categories (with_categories f m' c1' c2' c3' c4' c5') m c1 c2 c3 c4 c5
  = with_categories f m c1 c2 c3 c4 c5.
Proof. reflexivity. Qed.

Lemma sync_row_idem cms f : sync_row cms (sync_row cms f) = sync_row cms f.
Proof.
  destruct (Sql.holds (some_category_missing f)) eqn:Hmiss;
    [destruct (List.find (fun cm => Sql.holds (particular_matches f cm)) cms)
       as [cm|] eqn:Hfind|].
  - assert (sync_row cms f
            = with_categories f (cm_mainCategory cm) (cm_category1 cm)
                (cm_category2 cm) (cm_category3 cm) (cm_category4 cm)
                (cm_category5 cm)) as ->.
    { unfold sync_row. by rewrite Hmiss, Hfind. }
    unfold sync_row.
    destruct (Sql.holds (some_category_missing (with_categories f _ _ _ _ _ _)));
      [|reflexivity].
    rewrite find_matches_with_categories, Hfind. apply with_categories_twice.
  - assert (sync_row cms f = f) as ->; unfold sync_row; by rewrite Hmiss, Hfind.
  - assert (sync_row cms f = f) as ->; unfold sync_row; by rewrite Hmiss.
Qed.

(** C7.  The sync changes a ledger row only when some category column of
    the row is NULL or blank and the normalised particular of the row is
    the key of a mapping, and then all six category columns (and nothing
    else) are overwritten from a matching mapping; a row with every category
    column populated is never modified; running the sync a second time
    changes nothing; and it deletes neither a mapping nor a row. *)
Theorem C7_sync_selective_idempotent (db : database) :
  let db' := _sync_final_structured_with_code_master db in
  (∀ i f, final_structured db !! i = Some f →
     ∃ f', final_structured db' !! i = Some f'
       ∧ (f' ≠ f → ¬ Spec.all_categories_populated f
                   ∧ ∃ cm, cm ∈ code_master db ∧ Spec.mapped_by cm f)
       ∧ (¬ Spec.all_categories_populated f →
          (∃ cm, cm ∈ code_master db ∧ Spec.mapped_by cm f) →
          ∃ cm, cm ∈ code_master db ∧ Spec.mapped_by cm f
                ∧ Spec.categories_from cm f' ∧ Spec.same_but_categories f f')
       ∧ (Spec.all_categories_populated f → f' = f))
  ∧ _sync_final_structured_with_code_master db' = db'
  ∧ code_master db' = code_master db
  ∧ length (final_structured db') = length (final_structured db).
Proof.
  intros db'. split; [|split; [|split]].
  - intros i f Hi. exists (sync_row (code_master db) f). split.
    { unfold db', _sync_final_structured_with_code_master. simpl.
      by rewrite list_lookup_fmap, Hi. }
    unfold sync_row.
    destruct (Sql.holds (some_category_missing f)) eqn:Hmiss.
    + assert (¬ Spec.all_categories_populated f) as Hnot.
      { rewrite <- missing_not_populated. by rewrite Hmiss. }
      destruct (List.find _ (code_master db)) as [cm|] eqn:Hfind.
      * apply find_some in Hfind as [Hin Hm].
        apply list_elem_of_In in Hin. apply particular_matches_mapped in Hm.
        split; [by eauto|]. split; [|done].
        intros _ _. exists cm. repeat split; done.
      * split; [done|]. split; [|done].
        intros _ (cm & Hin & Hm). exfalso.
        apply list_elem_of_In in Hin.
        pose proof (find_none _ _ Hfind cm Hin) as Hno. simpl in Hno.
        apply particular_matches_mapped in Hm. congruence.
    + apply missing_not_populated in Hmiss. split; [done|]. split; [done|done].
  - unfold db', _sync_final_structured_with_code_master. simpl. f_equal.
    rewrite <- list_fmap_compose. apply list_fmap_ext. intros _ f _. simpl.
    apply sync_row_idem.
  - reflexivity.
  - unfold db', _sync_final_structured_with_code_master. simpl. apply length_fmap.
Qed.

Lemma C7_sync_selective_idempotent_witness :
  _sync_final_structured_with_code_master
    (_sync_final_structured_with_code_master Sample.db)
  = _sync_final_structured_with_code_master Sample.db.
Proof. exact (proj1 (proj2 (C7_sync_selective_idempotent Sample.db))). Defined.

Example sync_fills_cash :
  (fun f => (sl_no f, mainCategory f, category1 f))
    <$> final_structured (_sync_final_structured_with_code_master Sample.db)
  = [ (1, Some "Balance Sheet", Some "Assets");
      (2, Some "Balance Sheet", Some "Assets");
      (3, Some "Profit and Loss", Some "Income");
      (4, None, None) ].
Proof. vm_compute. reflexivity. Qed.

(** ** Claim C8 *)














(** On the sample ledger the pass deletes row 2, the twin of row 1, and
    reports 0 rows deleted. *)
Example dedup_sample :
  sl_no <$> dedup_table Sample.ledger "E1" "April" 2024 = [1; 3; 4]
  ∧ sl_no <$> dedup_table (dedup_table Sample.ledger "E1" "April" 2024) "E1" "April" 2024
    = [1; 3; 4]
  ∧ (let '(deleted, db) :=
       deduplicate_final_structured_for_entity_month_year Sample.db "E1" "April" 2024 in
     (deleted, sl_no <$> final_structured db)) = (0, [1; 3; 4]).
Proof. repeat split; vm_compute; reflexivity. Qed.

(** ** Claim C9 *)

Lemma date_leb_le a b : date_leb a b = true ↔ date_le a b.
Proof.
  destruct a as [[ya ma] da], b as [[yb mb] db]. unfold date_leb, date_le. simpl.
  rewrite !orb_true_iff, !andb_true_iff, !orb_true_iff, !andb_true_iff.
  rewrite !Z.ltb_lt, !Z.eqb_eq, Z.leb_le. done.
Qed.

Lemma date_ltb_lt a b : date_ltb a b = true ↔ ¬ date_le b a.
Proof.
  unfold date_ltb. rewrite negb_true_iff, <- date_leb_le.
  by destruct (date_leb b a).
Qed.

Lemma date_le_total a b : date_le a b ∨ date_le b a.
Proof. unfold date_le. lia. Qed.

Lemma date_le_trans a b c : date_le a b → date_le b c → date_le a c.
Proof. unfold date_le. lia. Qed.

Lemma earliest_fold_spec (l : list financial_year_period) best :
  let pick := fun (best : option financial_year_period) p =>
    match best with
    | None => Some p
    | Some b => if date_ltb (start_date p) (start_date b) then Some p else Some b
    end in
  match foldl pick best l with
  | None => best = None ∧ l = []
  | Some e =>
      (Some e = best ∨ e ∈ l)
      ∧ (∀ b, best = Some b → date_le (start_date e) (start_date b))
      ∧ (∀ p, p ∈ l → date_le (start_date e) (start_date p))
  end.
Proof.
  intros pick. revert best. induction l as [|p l IH]; intros best; simpl.
  - destruct best as [b|]; [|done]. split; [by left|]. split.
    + intros b' [= <-]. unfold date_le. lia.
    + by intros p ?%elem_of_nil.
  - specialize (IH (pick best p)).
    destruct (foldl pick (pick best p) l) as [e|].
    + destruct IH as (Hin & Hbest & Hl).
      assert (date_le (start_date e) (start_date p)
              ∧ ∀ b, best = Some b → date_le (start_date e) (start_date b)) as [Hp Hb].
      { unfold pick in Hbest. destruct best as [b|].
        - destruct (date_ltb (start_date p) (start_date b)) eqn:E.
          + specialize (Hbest p eq_refl). split; [done|]. intros b' [= <-].
            apply date_ltb_lt in E.
            destruct (date_le_total (start_date p) (start_date b)); [|done].
            by eapply date_le_trans.
          + specialize (Hbest b eq_refl). split; [|by intros b' [= <-]].
            assert (date_le (start_date b) (start_date p)).
            { destruct (date_le_total (start_date b) (start_date p)) as [|Hc]; [done|].
              destruct (date_leb (start_date b) (start_date p)) eqn:E2.
              - by apply date_leb_le.
              - unfold date_ltb in E. by rewrite E2 in E. }
            by eapply date_le_trans.
        - split; [by apply Hbest|done]. }
      split; [|split; [done|]].
      * destruct Hin as [Hin|Hin]; [|right; by right].
        unfold pick in Hin. destruct best as [b|].
        -- destruct (date_ltb (start_date p) (start_date b)).
           ++ right. injection Hin as ->. left.
           ++ by left.
        -- right. injection Hin as ->. left.
      * intros q [->|Hq]%elem_of_cons; [done|by apply Hl].
    + destruct IH as [Hnone _]. unfold pick in Hnone. destruct best as [b|].
      * by destruct (date_ltb (start_date p) (start_date b)).
      * done.
Qed.

(** [check_if_previous_fy] answers [is_previous] exactly when the date lies
    before the start of every active period (or no period is active), and
    then suggests the label computed from the date. *)
Lemma check_if_previous_fy_spec t d :
  ((∀ p, p ∈ t → is_active p = true → ¬ date_le (start_date p) d)
   → check_if_previous_fy t d = (true, Some (suggested_fy_of d)))
  ∧ (¬ (∀ p, p ∈ t → is_active p = true → ¬ date_le (start_date p) d)
     → check_if_previous_fy t d = (false, None)).
Proof.
  unfold check_if_previous_fy, earliest_active.
  pose proof (earliest_fold_spec (List.filter is_active t) None) as Hspec.
  simpl in Hspec.
  destruct (foldl _ None (List.filter is_active t)) as [e|].
  - destruct Hspec as ([Hin|Hin] & _ & Hmin); [done|].
    apply list_elem_of_In, filter_In in Hin as [Hin Hact].
    apply list_elem_of_In in Hin.
    destruct (date_ltb d (start_date e)) eqn:E.
    + split; [done|]. intros Hnot. exfalso. apply Hnot. intros p Hp Hpa Hle.
      apply date_ltb_lt in E. apply E.
      eapply date_le_trans; [|exact Hle]. apply Hmin.
      apply list_elem_of_In, filter_In. by rewrite <- list_elem_of_In.
    + split; [|done]. intros Hall. exfalso.
      assert (date_ltb d (start_date e) = true); [|congruence].
      apply date_ltb_lt. by apply Hall.
  - destruct Hspec as [_ Hnil]. split; [done|]. intros Hnot. exfalso. apply Hnot.
    intros p Hp Hpa _.
    assert (p ∈ List.filter is_active t) as Hf.
    { apply list_elem_of_In, filter_In. by rewrite <- list_elem_of_In. }
    rewrite Hnil in Hf. by apply elem_of_nil in Hf.
Qed.

Lemma validate_none_iff t d :
  validate_date_against_fy_master t d = None ↔ ∀ p, p ∈ t → covers d p = false.
Proof.
  unfold validate_date_against_fy_master. split.
  - intros Hnone p Hp. apply list_elem_of_In in Hp. by apply (find_none _ _ Hnone).
  - intros Hall. destruct (List.find (covers d) t) as [p|] eqn:E; [|done].
    apply find_some in E as [Hin Hc]. apply list_elem_of_In in Hin.
    rewrite (Hall p Hin) in Hc. discriminate.
Qed.

Lemma validate_some t d p :
  validate_date_against_fy_master t d = Some p → p ∈ t ∧ covers d p = true.
Proof.
  unfold validate_date_against_fy_master. intros [Hin Hc]%find_some.
  by apply list_elem_of_In in Hin.
Qed.

(** C9, as the specification words it, fails on two counts.  An upload is
    accepted although its target period is not the current fiscal year,
    when today falls in no active period: with the periods 2023-24 and
    2024-25 configured and today 2026-11-03, an upload for April 2023 goes
    on.  And a date outside every configured period does not always get the
    same error code: April 2020 (before every period) and April 2026 (after
    every period) are rejected with two different codes. *)
Lemma C9_period_counterexample :
  ¬ (∀ t today m y,
       check_upload_period t today m y = Proceeds →
       ∃ d p q, upload_date m y = Some d
                ∧ validate_date_against_fy_master t d = Some p
                ∧ get_current_financial_year t today = Some q
                ∧ fy_label p = fy_label q)
  ∧ upload_date (Some "April") 2020 = Some (2020, 4, 1)
  ∧ upload_date (Some "April") 2026 = Some (2026, 4, 1)
  ∧ validate_date_against_fy_master Sample.periods (2020, 4, 1) = None
  ∧ validate_date_against_fy_master Sample.periods (2026, 4, 1) = None
  ∧ check_upload_period Sample.periods (2024, 6, 15) (Some "April") 2020
    = Rejected (PREVIOUS_FINANCIAL_YEAR_NOT_CONFIGURED "2020-21")
  ∧ check_upload_period Sample.periods (2024, 6, 15) (Some "April") 2026
    = Rejected FINANCIAL_YEAR_VALIDATION_FAILED.
Proof.
  split; [|repeat split; vm_compute; reflexivity].
  intros H.
  destruct (H Sample.periods (2026, 11, 3) (Some "April") 2023)
    as (d & p & q & _ & _ & Hq & _).
  - vm_compute. reflexivity.
  - vm_compute in Hq. discriminate.
Qed.

Lemma upload_date_spec m y :
  (upload_date m y = None ↔ ¬ (1 ≤ y ≤ 9999))
  ∧ ∀ d, upload_date m y = Some d → 1 ≤ y ≤ 9999 ∧ d.1.1 = y ∧ d.2 = 1.
Proof.
  unfold upload_date.
  destruct (1 <=? y) eqn:E1; destruct (y <=? 9999) eqn:E2; simpl;
    rewrite ?Z.leb_le, ?Z.leb_gt in E1, E2; (split; [split|]);
      try done; try lia; try (intros d [= <-]; simpl; lia).
Qed.

(** C9, amended.  The period checks of an upload run before any row is
    deleted or written: whenever they do not let the upload go on, the
    tables are left as they were.  For a year from 1 to 9999 they reject a
    target date that lies in no active period: with
    PREVIOUS_FINANCIAL_YEAR_NOT_CONFIGURED and the suggested period when the
    date lies before every active period (or none is active), with
    FINANCIAL_YEAR_VALIDATION_FAILED otherwise.  They reject with
    NOT_CURRENT_FINANCIAL_YEAR, a third code, a target date in an active
    period whose label differs from that of the period today falls in.  For
    a year outside 1 to 9999 no date can be made and the route answers 500
    without an error code.  The upload goes on exactly when the target date
    lies in an active period and either today falls in an active period of
    the same label or today falls in no active period at all. *)
Theorem C9_period_checks (t : list financial_year_period) (today : date)
    (m : option string) (y : Z) :
  let outcome := check_upload_period t today m y in
  (upload_date m y = None ↔ ¬ (1 ≤ y ≤ 9999))
  ∧ (¬ (1 ≤ y ≤ 9999) → outcome = Failed)
  ∧ (∀ d, upload_date m y = Some d →
       d.1.1 = y ∧ d.2 = 1
       ∧ ((∀ p, p ∈ t → covers d p = false) →
          (∀ p, p ∈ t → is_active p = true → ¬ date_le (start_date p) d) →
          outcome = Rejected (PREVIOUS_FINANCIAL_YEAR_NOT_CONFIGURED (suggested_fy_of d)))
       ∧ ((∀ p, p ∈ t → covers d p = false) →
          ¬ (∀ p, p ∈ t → is_active p = true → ¬ date_le (start_date p) d) →
          outcome = Rejected FINANCIAL_YEAR_VALIDATION_FAILED)
       ∧ (∀ p q, validate_date_against_fy_master t d = Some p →
                 get_current_financial_year t today = Some q →
                 fy_label p ≠ fy_label q →
                 outcome = Rejected (NOT_CURRENT_FINANCIAL_YEAR (fy_label p) (fy_label q))))
  ∧ (outcome = Proceeds ↔
     ∃ d p, upload_date m y = Some d
            ∧ validate_date_against_fy_master t d = Some p
            ∧ p ∈ t ∧ covers d p = true
            ∧ (get_current_financial_year t today = None
               ∨ ∃ q, get_current_financial_year t today = Some q
                      ∧ covers today q = true ∧ fy_label q = fy_label p))
  ∧ (∀ (A : Type) (process : list raw_data_row → database
                             → A * list raw_data_row * database) raw db,
       financial_year_master db = t →
       (outcome ≠ Proceeds → upload_file process raw db today m y = (outcome, None, raw, db))
       ∧ (outcome = Proceeds →
          upload_file process raw db today m y
          = (Proceeds, Some (process raw db).1.1, (process raw db).1.2, (process raw db).2))).
Proof.
  intros outcome. destruct (upload_date_spec m y) as [Hnone Hsome].
  split; [done|]. split; [|split; [|split]].
  - intros Hy. apply Hnone in Hy. unfold outcome, check_upload_period. by rewrite Hy.
  - intros d Hd. destruct (Hsome d Hd) as (_ & Hyear & Hday).
    split; [done|]. split; [done|].
    unfold outcome, check_upload_period. rewrite Hd.
    destruct (check_if_previous_fy_spec t d) as [Hprev Hnot].
    split; [|split].
    + intros Hout%validate_none_iff Hbefore. by rewrite Hout, (Hprev Hbefore).
    + intros Hout%validate_none_iff Hafter. by rewrite Hout, (Hnot Hafter).
    + intros p q -> -> Hne. by rewrite bool_decide_eq_false_2.
  - unfold outcome, check_upload_period.
    destruct (upload_date m y) as [d|] eqn:Hd.
    + destruct (validate_date_against_fy_master t d) as [p|] eqn:Hv.
      * destruct (validate_some _ _ _ Hv) as [Hin Hc].
        destruct (get_current_financial_year t today) as [q|] eqn:Hq.
        -- case_bool_decide as Hl; split.
           ++ intros _. exists d, p. repeat split; try done. right. exists q.
              split; [done|]. split; [|done].
              unfold get_current_financial_year in Hq. by apply find_some in Hq as [_ ?].
           ++ done.
           ++ discriminate.
           ++ intros (d' & p' & [= <-] & Hv' & _ & _ & [?|(q' & [= <-] & _ & Hl')]);
                [done|].
              rewrite Hv in Hv'. injection Hv' as <-. by rewrite Hl' in Hl.
        -- split; [|done]. intros _. exists d, p. repeat split; try done. by left.
      * split.
        -- by destruct (check_if_previous_fy t d) as [[] ?].
        -- intros (d' & p & [= <-] & Hv' & _). by rewrite Hv in Hv'.
    + split; [done|]. by intros (d & p & ? & _).
  - intros A process raw db Ht. unfold upload_file. rewrite Ht. fold outcome.
    split.
    + intros Hne. by destruct outcome.
    + intros ->. by destruct (process raw db) as [[answer raw'] db'].
Qed.

Lemma C9_period_checks_witness :
  check_upload_period Sample.periods (2024, 6, 15) (Some "April") 2026
  = Rejected FINANCIAL_YEAR_VALIDATION_FAILED.
Proof.
  refine (proj1 (proj2 (proj2 (proj2 (proj1 (proj2 (proj2
            (C9_period_checks Sample.periods (2024, 6, 15) (Some "April") 2026)))
            (2026, 4, 1) eq_refl)))) _ _).
  - intros p Hp. repeat (apply elem_of_cons in Hp as [->|Hp]; [reflexivity|]).
    by apply elem_of_nil in Hp.
  - intros Hall. apply (Hall _ (list_elem_of_here _ _) eq_refl).
    unfold date_le. simpl. lia.
Defined.

(** A rejected upload and an upload for a year that no date has leave the
    tables as they were, whatever the rest of the route would have done
    with them. *)
Example rejected_upload_writes_nothing :
  let process := fun (raw : list raw_data_row) (db : database) =>
    (tt, @nil raw_data_row, Sample.db_no_rates) in
  upload_file process [] Sample.db (2024, 6, 15) (Some "April") 2026
  = (Rejected FINANCIAL_YEAR_VALIDATION_FAILED, None, [], Sample.db)
  ∧ upload_file process [] Sample.db (2024, 6, 15) (Some "April") 0
    = (Failed, None, [], Sample.db)
  ∧ upload_file process [] Sample.db (2024, 6, 15) (Some "April") 10000
    = (Failed, None, [], Sample.db)
  ∧ upload_file process [] Sample.db (2024, 6, 15) (Some "April") 2024
    = (Proceeds, Some tt, [], Sample.db_no_rates).
Proof. repeat split; vm_compute; reflexivity. Qed.

(** ** Cache keys *)

Lemma string_of_uint_digits d :
  Spec.all_chars sign_or_digit (NilEmpty.string_of_uint d) = true.
Proof. induction d; simpl; try done. Qed.

Lemma of_Z_chars n :
  Spec.all_chars sign_or_digit (PyStr.of_Z n) = true ∧ PyStr.of_Z n ≠ EmptyString.
Proof.
  unfold PyStr.of_Z, NilZero.string_of_int, NilZero.string_of_uint.
  destruct (Z.to_int n) as [d|d] eqn:E.
  - destruct d; try (split; [apply (string_of_uint_digits (_ d))|done]); done.
  - split; [|done]. cbn. destruct d; try apply (string_of_uint_digits (_ d)); done.
Qed.

Lemma of_Z_inj n n' : PyStr.of_Z n = PyStr.of_Z n' → n = n'.
Proof.
  unfold PyStr.of_Z. intros E. apply DecimalZ.to_int_inj.
  assert (∀ z, NilZero.int_of_string (NilZero.string_of_int (Z.to_int z))
               = Some (Z.to_int z)) as Hisi.
  { intros z. apply NilZero.isi; destruct z; simpl; try discriminate;
      intros [= H]; by apply DecimalPos.Unsigned.to_uint_nonnil in H. }
  pose proof (Hisi n) as H1. rewrite E, Hisi in H1. by injection H1.
Qed.

Lemma sign_or_digit_not_underscore c : sign_or_digit c = true → Spec.not_underscore c = true.
Proof. char_cases c. Qed.

Lemma of_Z_no_underscore n : Spec.no_underscore (PyStr.of_Z n).
Proof.
  eapply all_chars_impl; [apply sign_or_digit_not_underscore|apply of_Z_chars].
Qed.

(** A string is cut in one way only at its first underscore. *)
Lemma split_at_underscore (a a' x x' : string) :
  Spec.no_underscore a → Spec.no_underscore a' →
  a +:+ "_" +:+ x = a' +:+ "_" +:+ x' → a = a' ∧ x = x'.
Proof.
  unfold Spec.no_underscore. revert a'.
  induction a as [|c a IH]; intros [|c' a'] Ha Ha'; rewrite ?append_cons, ?append_nil.
  - by intros [= ->].
  - intros [= <- _]. cbn in Ha'. done.
  - intros [= -> _]. cbn in Ha. done.
  - intros [= -> E]. cbn in Ha, Ha'. apply andb_prop in Ha as [_ Ha].
    apply andb_prop in Ha' as [_ Ha']. destruct (IH a' Ha Ha' E) as [-> ->]. done.
Qed.

Lemma has_underscore (a x : string) : ¬ Spec.no_underscore (a +:+ "_" +:+ x).
Proof.
  unfold Spec.no_underscore. rewrite all_chars_app, append_cons. cbn.
  by rewrite andb_false_r.
Qed.

Lemma entity_key_inj e c fy e' c' fy' :
  Spec.no_underscore c → Spec.no_underscore c' →
  entity_key e c fy = entity_key e' c' fy' → e = e' ∧ c = c' ∧ fy = fy'.
Proof.
  unfold entity_key. intros Hc Hc' E.
  apply split_at_underscore in E as [He E]; try apply of_Z_no_underscore.
  apply split_at_underscore in E as [-> Hfy]; try done.
  by rewrite (of_Z_inj _ _ He), (of_Z_inj _ _ Hfy).
Qed.

Lemma entity_key_not_legacy e c fy c' : entity_key e c fy ≠ legacy_key c'.
Proof.
  unfold entity_key, legacy_key. intros E.
  change ("legacy_" +:+ c') with ("legacy" +:+ "_" +:+ c') in E.
  apply split_at_underscore in E as [He _]; [|apply of_Z_no_underscore|done].
  destruct (of_Z_chars e) as [Hch _]. rewrite He in Hch. done.
Qed.

Lemma entity_key_not_bare e c fy c' : Spec.no_underscore c' → entity_key e c fy ≠ c'.
Proof. unfold entity_key. intros Hc' E. rewrite <- E in Hc'. by apply has_underscore in Hc'. Qed.

Lemma legacy_key_not_bare c c' : Spec.no_underscore c' → legacy_key c ≠ c'.
Proof.
  unfold legacy_key. intros Hc' E. rewrite <- E in Hc'.
  change ("legacy_" +:+ c) with ("legacy" +:+ "_" +:+ c) in Hc'.
  by apply has_underscore in Hc'.
Qed.

Lemma legacy_key_inj c c' : legacy_key c = legacy_key c' → c = c'.
Proof. unfold legacy_key. apply String.app_inj. Qed.

(** ** The legacy table *)

Lemma newer_true a b : newer a b = true → not_newer b a.
Proof.
  unfold newer, not_newer.
  rewrite orb_true_iff, andb_true_iff, !Z.ltb_lt, Z.eqb_eq. lia.
Qed.

Lemma newer_false a b : newer a b = false → not_newer a b.
Proof.
  unfold newer, not_newer.
  rewrite orb_false_iff, andb_false_iff, !Z.ltb_ge, Z.eqb_neq. lia.
Qed.

Lemma not_newer_trans a b c : not_newer a b → not_newer b c → not_newer a c.
Proof. unfold not_newer. lia. Qed.

Lemma not_newer_refl a : not_newer a a.
Proof. unfold not_newer. lia. Qed.

Lemma pick_newer_fold (l : list forex_master_row) best :
  match foldl pick_newer best l with
  | None => best = None ∧ l = []
  | Some e =>
      (Some e = best ∨ e ∈ l)
      ∧ (∀ b, best = Some b → not_newer b e)
      ∧ (∀ r, r ∈ l → not_newer r e)
  end.
Proof.
  revert best. induction l as [|r l IH]; intros best; simpl.
  - destruct best as [b|]; [|done]. split; [by left|]. split.
    + intros b' [= <-]. apply not_newer_refl.
    + by intros r ?%elem_of_nil.
  - specialize (IH (pick_newer best r)).
    destruct (foldl pick_newer (pick_newer best r) l) as [e|].
    + destruct IH as (Hin & Hbest & Hl).
      assert (not_newer r e ∧ ∀ b, best = Some b → not_newer b e) as [Hr Hb].
      { unfold pick_newer in Hbest. destruct best as [b|].
        - destruct (newer r b) eqn:E.
          + specialize (Hbest r eq_refl). split; [done|]. intros b' [= <-].
            eapply not_newer_trans; [by apply newer_true|done].
          + specialize (Hbest b eq_refl). split; [|by intros b' [= <-]].
            eapply not_newer_trans; [by apply newer_false|done].
        - split; [by apply Hbest|done]. }
      split; [|split; [done|]].
      * destruct Hin as [Hin|Hin]; [|right; by right].
        unfold pick_newer in Hin. destruct best as [b|].
        -- destruct (newer r b).
           ++ right. injection Hin as ->. left.
           ++ by left.
        -- right. injection Hin as ->. left.
      * intros q [->|Hq]%elem_of_cons; [done|by apply Hl].
    + destruct IH as [Hnone _]. unfold pick_newer in Hnone. destruct best as [b|].
      * by destruct (newer r b).
      * done.
Qed.

(** [_get_latest_row_for_currency] returns a row of the currency that no
    row of the currency is newer than, and nothing when the currency has no
    row. *)
Lemma latest_row_spec t code :
  match _get_latest_row_for_currency t code with
  | Some r =>
      r ∈ t ∧ fm_currency r = Some code
      ∧ ∀ r', r' ∈ t → fm_currency r' = Some code → not_newer r' r
  | None => ∀ r', r' ∈ t → fm_currency r' ≠ Some code
  end.
Proof.
  unfold _get_latest_row_for_currency.
  set (p := fun r => Sql.holds (Sql.eq_str (fm_currency r) (Some code))).
  assert (∀ r, p r = true ↔ fm_currency r = Some code) as Hp.
  { intros r. unfold p. rewrite holds_eq_str. split.
    - by intros (s & -> & [= ->]).
    - intros ->. by exists code. }
  pose proof (pick_newer_fold (List.filter p t) None) as Hspec.
  destruct (foldl pick_newer None (List.filter p t)) as [e|].
  - destruct Hspec as ([Hin|Hin] & _ & Hmax); [done|].
    apply list_elem_of_In, filter_In in Hin as [Hin He].
    split; [by apply list_elem_of_In|]. split; [by apply Hp|].
    intros r' Hr' Hc. apply Hmax, list_elem_of_In, filter_In.
    split; [by apply list_elem_of_In|by apply Hp].
  - destruct Hspec as [_ Hnil]. intros r' Hr' Hc.
    assert (r' ∈ List.filter p t) as Hf.
    { apply list_elem_of_In, filter_In. split; [by apply list_elem_of_In|by apply Hp]. }
    rewrite Hnil in Hf. by apply elem_of_nil in Hf.
Qed.

(** The set of codes already seen only saves lookups. *)
Lemma first_legacy_seen t codes (seen : gset string) :
  (∀ c, c ∈ seen → _get_latest_row_for_currency t c = None) →
  first_legacy t codes seen = Spec.first_with_row t codes.
Proof.
  revert seen. induction codes as [|code rest IH]; intros seen Hseen; [done|]. simpl.
  case_bool_decide as Hin.
  - rewrite (Hseen code Hin). by apply IH.
  - destruct (_get_latest_row_for_currency t code) eqn:E; [done|].
    apply IH. intros c [->%elem_of_singleton|Hc]%elem_of_union; [done|by apply Hseen].
Qed.

Lemma first_with_row_spec t codes :
  match Spec.first_with_row t codes with
  | Some (code, fx_row) =>
      ∃ before after, codes = before ++ code :: after
        ∧ (∀ c, c ∈ before → _get_latest_row_for_currency t c = None)
        ∧ _get_latest_row_for_currency t code = Some fx_row
  | None => ∀ c, c ∈ codes → _get_latest_row_for_currency t c = None
  end.
Proof.
  induction codes as [|code rest IH]; simpl.
  - by intros c ?%elem_of_nil.
  - destruct (_get_latest_row_for_currency t code) as [r|] eqn:E.
    + exists [], rest. split; [done|]. split; [|done]. by intros c ?%elem_of_nil.
    + destruct (Spec.first_with_row t rest) as [[code' r']|].
      * destruct IH as (before & after & -> & Hb & Hr).
        exists (code :: before), after. split; [done|]. split; [|done].
        intros c [->|Hc]%elem_of_cons; [done|by apply Hb].
      * intros c [->|Hc]%elem_of_cons; [done|by apply IH].
Qed.

(** ** The cache builder *)

Lemma first_of_three_found {A} (get : Z → option A) fy fy' r :
  Spec.first_of_three get fy = Some (fy', r) →
  get fy' = Some r ∧ (fy' = fy ∨ fy' = fy + 1 ∨ fy' = fy - 1).
Proof.
  unfold Spec.first_of_three.
  destruct (get fy) eqn:E0; [intros [= <- <-]; auto|].
  destruct (get (fy + 1)) eqn:E1; [intros [= <- <-]; auto|].
  destruct (get (fy - 1)) eqn:E2; [intros [= <- <-]; auto|done].
Qed.

Lemma first_of_three_none {A} (get : Z → option A) fy :
  Spec.first_of_three get fy = None →
  get fy = None ∧ get (fy + 1) = None ∧ get (fy - 1) = None.
Proof.
  unfold Spec.first_of_three.
  destruct (get fy); [done|]. destruct (get (fy + 1)); [done|].
  by destruct (get (fy - 1)).
Qed.

(** The loop body of the second loop is the resolver of the specification:
    exact year, then year + 1, then year - 1. *)
Lemma lookup_fy_spec t e c fy :
  lookup_fy t e c fy
  = match Spec.first_of_three (get_entity_fy_forex_rate t e c) fy with
    | Some (fy', fr) => (Some fr, entity_key e c fy', fy')
    | None => (None, entity_key e c fy, fy)
    end.
Proof.
  unfold lookup_fy, Spec.first_of_three.
  destruct (get_entity_fy_forex_rate t e c fy) as [r0|] eqn:E0; simpl; [done|].
  destruct (get_entity_fy_forex_rate t e c (fy + 1)) as [r1|] eqn:E1; simpl; [done|].
  by destruct (get_entity_fy_forex_rate t e c (fy - 1)) as [r2|] eqn:E2.
Qed.

Lemma entity_step_spec t cache found e c fy :
  entity_step t (cache, found) (e, c, fy)
  = match Spec.first_of_three (get_entity_fy_forex_rate t e c) fy with
    | Some (fy', fr) =>
        (<[entity_key e c fy' := entity_entry e c fy' fr]> cache,
         {[PyStr.upper c]} ∪ found)
    | None => (cache, found)
    end.
Proof.
  unfold entity_step. rewrite lookup_fy_spec.
  by destruct (Spec.first_of_three _ fy) as [[fy' fr]|].
Qed.

Section EntityFold.
Variable t : list entity_forex_rate.

Local Abbreviation entity_fold_inv := (Spec.entity_fold_inv t).

Lemma entity_fold_spec (l : list (Z * string * Z)) :
  entity_fold_inv l (foldl (entity_step t) (∅, ∅) l).
Proof.
  induction l as [|[[e c] fy] l IH] using rev_ind.
  - split; simpl.
    + intros k fx. by rewrite lookup_empty.
    + by intros e c fy fy' fr ?%elem_of_nil.
    + by intros x ?%elem_of_empty.
  - rewrite foldl_app. simpl.
    destruct (foldl (entity_step t) (∅, ∅) l) as [cache found].
    rewrite entity_step_spec. destruct IH as [He Hw Hf]. simpl in *.
    destruct (Spec.first_of_three (get_entity_fy_forex_rate t e c) fy)
      as [[fy' fr]|] eqn:E.
    + split; simpl.
      * intros k fx. rewrite lookup_insert. case_decide as Hk.
        -- intros [= <-]. exists e, c, fy, fy', fr.
           split; [apply elem_of_app; right; left|done].
        -- intros (e0 & c0 & fy0 & fy0' & fr0 & Hin & ?)%He.
           exists e0, c0, fy0, fy0', fr0. split; [apply elem_of_app; by left|done].
      * intros e0 c0 fy0 fy0' fr0 [Hin|Hin]%elem_of_app Hres.
        -- destruct (Hw _ _ _ _ _ Hin Hres) as [Hs Hu]. split.
           ++ rewrite lookup_insert. case_decide; [done|exact Hs].
           ++ apply elem_of_union. by right.
        -- apply list_elem_of_singleton in Hin. injection Hin as -> -> ->.
           rewrite E in Hres. injection Hres as <- <-. split.
           ++ rewrite lookup_insert_eq. done.
           ++ apply elem_of_union. left. by apply elem_of_singleton.
      * intros x [->%elem_of_singleton|Hx]%elem_of_union.
        -- exists e, c, fy. split; [apply elem_of_app; right; left|].
           split; [done|]. by rewrite E.
        -- destruct (Hf x Hx) as (e0 & c0 & fy0 & Hin & ?).
           exists e0, c0, fy0. split; [apply elem_of_app; by left|done].
    + split; simpl.
      * intros k fx (e0 & c0 & fy0 & fy0' & fr0 & Hin & ?)%He.
        exists e0, c0, fy0, fy0', fr0. split; [apply elem_of_app; by left|done].
      * intros e0 c0 fy0 fy0' fr0 [Hin|Hin]%elem_of_app Hres; [by eapply Hw|].
        apply list_elem_of_singleton in Hin. injection Hin as -> -> ->.
        by rewrite E in Hres.
      * intros x Hx. destruct (Hf x Hx) as (e0 & c0 & fy0 & Hin & ?).
        exists e0, c0, fy0. split; [apply elem_of_app; by left|done].
Qed.
End EntityFold.

Section LegacyFold.
Variable t : list forex_master_row.

Local Abbreviation legacy_choice := (Spec.legacy_choice t).

Lemma legacy_step_spec cache curr :
  legacy_step t cache curr
  = match legacy_choice curr with
    | Some fx => <[legacy_key curr := fx]> cache
    | None => cache
    end.
Proof.
  unfold legacy_step, Spec.legacy_choice.
  rewrite first_legacy_seen by (by intros c ?%elem_of_empty).
  by destruct (Spec.first_with_row t (variants curr)) as [[code fx_row]|].
Qed.

Lemma legacy_fold_other (l : list string) cache k :
  (∀ c, c ∈ l → k ≠ legacy_key c) →
  foldl (legacy_step t) cache l !! k = cache !! k.
Proof.
  revert cache. induction l as [|a l IH]; intros cache Hk; [done|]. simpl.
  rewrite IH by (intros c Hc; apply Hk; by right).
  rewrite legacy_step_spec. destruct (legacy_choice a); [|done].
  apply lookup_insert_ne. intros E. symmetry in E. by apply (Hk a); [left|].
Qed.

Lemma legacy_fold_hit (l : list string) cache curr :
  NoDup l → curr ∈ l →
  foldl (legacy_step t) cache l !! legacy_key curr
  = match legacy_choice curr with
    | Some fx => Some fx
    | None => cache !! legacy_key curr
    end.
Proof.
  revert cache. induction l as [|a l IH]; intros cache Hnd Hin.
  - by apply elem_of_nil in Hin.
  - apply NoDup_cons in Hnd as [Ha Hnd]. simpl.
    apply elem_of_cons in Hin as [->|Hin].
    + rewrite legacy_fold_other.
      * rewrite legacy_step_spec. destruct (legacy_choice a); [|done].
        apply lookup_insert_eq.
      * intros c Hc E. apply legacy_key_inj in E. by subst.
    + rewrite (IH _ Hnd Hin). destruct (legacy_choice curr); [done|].
      rewrite legacy_step_spec. destruct (legacy_choice a); [|done].
      apply lookup_insert_ne. intros E. apply legacy_key_inj in E. by subst.
Qed.
End LegacyFold.

(** *** The first loop *)

Lemma collect_row_triples em acc r k :
  k ∈ (collect_row em acc r).1 ↔ k ∈ acc.1 ∨ row_triple em r k.
Proof.
  destruct acc as [S C], k as [[e c] fy]. unfold collect_row, row_triple. simpl.
  destruct (row_entity em r) as [e0|]; [destruct (row_fy r) as [fy0|]|]; simpl.
  - destruct (negb (e0 =? 0) && negb (fy0 =? 0) && nonempty (row_curr r)) eqn:E.
    + apply andb_prop in E as [[Ee Ef]%andb_prop En].
      apply negb_true_iff, Z.eqb_neq in Ee. apply negb_true_iff, Z.eqb_neq in Ef.
      rewrite elem_of_union, elem_of_singleton. split.
      * intros [[= -> -> ->]|?]; [right|by left]. done.
      * intros [?|(He & _ & Hf & _ & _ & ->)]; [by right|left].
        injection He as <-. injection Hf as <-. done.
    + split; [auto|]. intros [?|(He & Hne & Hf & Hnf & Hn & _)]; [done|].
      injection He as <-. injection Hf as <-.
      apply Z.eqb_neq in Hne, Hnf. by rewrite Hne, Hnf, Hn in E.
  - split; [auto|]. by intros [?|(_ & _ & ? & _)].
  - split; [auto|]. by intros [?|(? & _)].
Qed.

Lemma collect_row_currencies em acc r c :
  c ∈ (collect_row em acc r).2
  ↔ c ∈ acc.2 ∨ (nonempty (row_curr r) = true ∧ c = PyStr.upper (row_curr r)).
Proof.
  destruct acc as [S C]. unfold collect_row. simpl.
  assert (c ∈ (if nonempty (row_curr r) then {[PyStr.upper (row_curr r)]} ∪ C else C)
          ↔ c ∈ C ∨ (nonempty (row_curr r) = true ∧ c = PyStr.upper (row_curr r)))
    as Hcur.
  { destruct (nonempty (row_curr r)).
    - rewrite elem_of_union, elem_of_singleton. split.
      + intros [->|?]; [by right|by left].
      + intros [?|[_ ->]]; [by right|by left].
    - split; [by left|]. by intros [?|[? _]]. }
  destruct (row_entity em r) as [e0|]; [destruct (row_fy r) as [fy0|]|]; simpl;
    exact Hcur.
Qed.

Lemma collect_fold_spec em rows acc :
  (∀ k, k ∈ (foldl (collect_row em) acc rows).1
        ↔ k ∈ acc.1 ∨ ∃ r, r ∈ rows ∧ row_triple em r k)
  ∧ (∀ c, c ∈ (foldl (collect_row em) acc rows).2
          ↔ c ∈ acc.2 ∨ ∃ r, r ∈ rows ∧ nonempty (row_curr r) = true
                             ∧ c = PyStr.upper (row_curr r)).
Proof.
  revert acc. induction rows as [|r rows IH]; intros acc; simpl.
  - split; intros x; (split; [auto|]); intros [?|(r & ?%elem_of_nil & _)]; done.
  - destruct (IH (collect_row em acc r)) as [IH1 IH2]. split.
    + intros k. rewrite IH1, collect_row_triples. split.
      * intros [[?|?]|(r' & ? & ?)]; [by left|right|right].
        -- exists r. split; [left|done].
        -- exists r'. split; [by right|done].
      * intros [?|(r' & [->|?]%elem_of_cons & ?)]; [by left; left|by left; right|].
        right. by exists r'.
    + intros c. rewrite IH2, collect_row_currencies. split.
      * intros [[?|?]|(r' & ? & ?)]; [by left|right|right].
        -- exists r. split; [left|done].
        -- exists r'. split; [by right|done].
      * intros [?|(r' & [->|?]%elem_of_cons & ?)]; [by left; left|by left; right|].
        right. by exists r'.
Qed.

Lemma collect_triples em rows k :
  k ∈ (collect em rows).1 ↔ ∃ r, r ∈ rows ∧ row_triple em r k.
Proof.
  unfold collect. destruct (collect_fold_spec em rows (∅, ∅)) as [H _].
  rewrite H. simpl. split; [|auto]. by intros [?%elem_of_empty|?].
Qed.

Lemma collect_currencies em rows c :
  c ∈ (collect em rows).2
  ↔ ∃ r, r ∈ rows ∧ nonempty (row_curr r) = true ∧ c = PyStr.upper (row_curr r).
Proof.
  unfold collect. destruct (collect_fold_spec em rows (∅, ∅)) as [_ H].
  rewrite H. simpl. split; [|auto]. by intros [?%elem_of_empty|?].
Qed.

Lemma upper_idem (s : string) : PyStr.upper (PyStr.upper s) = PyStr.upper s.
Proof.
  induction s as [|c s IH]; [done|]. unfold PyStr.upper in *. cbn. rewrite IH.
  f_equal. char_cases c.
Qed.

(** *** The cache of a batch *)

Section Builder.
Variables (db : database) (rows : list row).

(** The currency codes of the batch hold no underscore. *)
Hypothesis Hcodes : ∀ r, r ∈ rows → Spec.no_underscore (PyStr.upper (row_curr r)).

Let em := entity_master db.
Let get := get_entity_fy_forex_rate (entity_forex_rates db).
Let cache := _build_forex_cache db rows.
Let found := (entity_pass db rows).2.
Let currencies := (collect (entity_master db) rows).2.

Lemma build_unfold :
  cache = foldl (legacy_step (forex_master db)) (entity_pass db rows).1
            (elements (currencies ∖ found)).
Proof.
  unfold cache, _build_forex_cache, found, currencies.
  by destruct (entity_pass db rows).
Qed.

Lemma entity_pass_inv :
  entity_fold_inv (entity_forex_rates db) (elements (collect em rows).1)
    (entity_pass db rows).
Proof. apply entity_fold_spec. Qed.

Lemma triple_code_plain k :
  k ∈ elements (collect em rows).1 → Spec.no_underscore k.1.2.
Proof.
  rewrite elem_of_elements, collect_triples.
  intros (r & Hr & _ & _ & _ & _ & _ & ->). by apply Hcodes.
Qed.

Lemma build_lookup_entity_key e c fy :
  cache !! entity_key e c fy = (entity_pass db rows).1 !! entity_key e c fy.
Proof.
  rewrite build_unfold. apply legacy_fold_other.
  intros c' _. apply entity_key_not_legacy.
Qed.

(** A triple of the batch for which a lookup answers has its entry in the
    cache, under the year that answered. *)
Lemma build_entity_hit r e c fy fy' fr :
  r ∈ rows → row_triple em r (e, c, fy) →
  Spec.first_of_three (get e c) fy = Some (fy', fr) →
  cache !! entity_key e c fy' = Some (entity_entry e c fy' fr).
Proof.
  intros Hr Ht Hres. rewrite build_lookup_entity_key.
  destruct entity_pass_inv as [He Hw _].
  assert ((e, c, fy) ∈ elements (collect em rows).1) as Hin.
  { rewrite elem_of_elements, collect_triples. eauto. }
  destruct (Hw e c fy fy' fr Hin Hres) as [[fx Hfx] _]. rewrite Hfx.
  destruct (He _ _ Hfx) as (e0 & c0 & fy0 & fy0' & fr0 & Hin0 & Hres0 & Hk & ->).
  apply entity_key_inj in Hk as (<- & <- & <-);
    [|apply (triple_code_plain _ Hin)|apply (triple_code_plain _ Hin0)].
  apply first_of_three_found in Hres as [Hg _].
  apply first_of_three_found in Hres0 as [Hg0 _].
  unfold get in Hg. rewrite Hg in Hg0. by injection Hg0 as <-.
Qed.

(** No entry stands under the key of an entity, currency and year for
    which the table has no rate. *)
Lemma build_entity_miss e c y :
  Spec.no_underscore c → get e c y = None → cache !! entity_key e c y = None.
Proof.
  intros Hc Hnone. rewrite build_lookup_entity_key.
  destruct entity_pass_inv as [He _ _].
  destruct ((entity_pass db rows).1 !! entity_key e c y) as [fx|] eqn:Hfx; [|done].
  destruct (He _ _ Hfx) as (e0 & c0 & fy0 & fy0' & fr0 & Hin0 & Hres0 & Hk & ->).
  apply entity_key_inj in Hk as (-> & -> & ->);
    [|done|apply (triple_code_plain _ Hin0)].
  apply first_of_three_found in Hres0 as [Hg0 _].
  unfold get in Hnone. by rewrite Hnone in Hg0.
Qed.

Lemma entity_pass_no_legacy_key c : (entity_pass db rows).1 !! legacy_key c = None.
Proof.
  destruct entity_pass_inv as [He _ _].
  destruct ((entity_pass db rows).1 !! legacy_key c) as [fx|] eqn:Hfx; [|done].
  destruct (He _ _ Hfx) as (e0 & c0 & fy0 & fy0' & fr0 & _ & _ & Hk & _).
  symmetry in Hk. by apply entity_key_not_legacy in Hk.
Qed.

(** The legacy entry of a currency: written when the currency is in the
    batch and no entity has a rate for it, absent otherwise. *)
Lemma build_legacy c :
  cache !! legacy_key c
  = if bool_decide (c ∈ currencies ∧ c ∉ found)
    then legacy_choice (forex_master db) c else None.
Proof.
  rewrite build_unfold. case_bool_decide as Hc.
  - rewrite legacy_fold_hit.
    + destruct (legacy_choice _ c); [done|apply entity_pass_no_legacy_key].
    + apply NoDup_elements.
    + apply elem_of_elements, elem_of_difference. done.
  - rewrite legacy_fold_other; [apply entity_pass_no_legacy_key|].
    intros c' Hc' E. apply legacy_key_inj in E as <-.
    apply elem_of_elements, elem_of_difference in Hc'. done.
Qed.

Lemma build_bare c : Spec.no_underscore c → cache !! c = None.
Proof.
  intros Hc. rewrite build_unfold. rewrite legacy_fold_other.
  - destruct entity_pass_inv as [He _ _].
    destruct ((entity_pass db rows).1 !! c) as [fx|] eqn:Hfx; [|done].
    destruct (He _ _ Hfx) as (e0 & c0 & fy0 & fy0' & fr0 & _ & _ & Hk & _).
    symmetry in Hk. by apply entity_key_not_bare in Hk.
  - intros c' _ E. symmetry in E. by apply legacy_key_not_bare in E.
Qed.

Lemma found_spec x :
  x ∈ found ↔ ∃ r e fy, r ∈ rows ∧ row_triple em r (e, x, fy)
                        ∧ is_Some (Spec.first_of_three (get e x) fy).
Proof.
  destruct entity_pass_inv as [_ Hw Hf]. split.
  - intros (e & c & fy & Hin & -> & Hres)%Hf.
    apply elem_of_elements, collect_triples in Hin as (r & Hr & Ht).
    assert (PyStr.upper c = c) as ->.
    { destruct Ht as (_ & _ & _ & _ & _ & Hc). simpl in Hc. rewrite Hc.
      apply upper_idem. }
    by exists r, e, fy.
  - intros (r & e & fy & Hr & Ht & [[fy' fr] Hres]).
    assert ((e, x, fy) ∈ elements (collect em rows).1) as Hin.
    { rewrite elem_of_elements, collect_triples. eauto. }
    destruct (Hw e x fy fy' fr Hin Hres) as [_ Hu].
    assert (PyStr.upper x = x) as Hx.
    { destruct Ht as (_ & _ & _ & _ & _ & Hc). simpl in Hc. rewrite Hc.
      apply upper_idem. }
    by rewrite Hx in Hu.
Qed.

(** Every entry holds each rate under both of its names. *)
Lemma build_both_names k fx : cache !! k = Some fx → Spec.both_names_agree fx.
Proof.
  rewrite build_unfold.
  assert (∀ l c0, (∀ k fx, c0 !! k = Some fx → Spec.both_names_agree fx) →
            ∀ k fx, foldl (legacy_step (forex_master db)) c0 l !! k = Some fx →
                    Spec.both_names_agree fx) as Hfold.
  { induction l as [|a l IH]; intros c0 H0 k' fx'; [apply H0|]. simpl.
    apply IH. intros k2 fx2. rewrite legacy_step_spec.
    unfold Spec.legacy_choice.
    destruct (Spec.first_with_row _ (variants a)) as [[code fx_row]|]; [|apply H0].
    simpl. rewrite lookup_insert. case_decide; [|apply H0].
    intros [= <-]. done. }
  apply Hfold. intros k' fx' Hfx.
  destruct entity_pass_inv as [He _ _].
  destruct (He _ _ Hfx) as (e0 & c0 & fy0 & fy0' & fr0 & _ & _ & _ & ->). done.
Qed.
End Builder.

(** ** The cache entry of a row of the batch *)

Section RowOfBatch.
Variables (db : database) (rows : list row) (r : row).
Hypothesis Hcodes : ∀ r', r' ∈ rows → Spec.no_underscore (PyStr.upper (row_curr r')).
Hypothesis Hr : r ∈ rows.

Lemma find_fx_entity e fy fy' fr :
  row_triple (entity_master db) r (e, PyStr.upper (row_curr r), fy) →
  Spec.first_of_three
    (get_entity_fy_forex_rate (entity_forex_rates db) e (PyStr.upper (row_curr r))) fy
  = Some (fy', fr) →
  find_fx (entity_master db) (_build_forex_cache db rows) r
  = Some (entity_entry e (PyStr.upper (row_curr r)) fy' fr).
Proof.
  intros Ht Hres.
  pose proof (build_entity_hit db rows Hcodes r e _ fy fy' fr Hr Ht Hres) as Hhit.
  destruct Ht as (He & Hne & Hf & Hnf & _ & _). simpl in *.
  unfold find_fx. rewrite He, Hf.
  apply Z.eqb_neq in Hne, Hnf. rewrite Hne, Hnf. simpl.
  unfold Spec.first_of_three in Hres.
  destruct (get_entity_fy_forex_rate _ e _ fy) as [r0|] eqn:E0.
  { injection Hres as <- <-. by rewrite Hhit. }
  rewrite (build_entity_miss db rows Hcodes e _ fy (Hcodes r Hr) E0).
  destruct (get_entity_fy_forex_rate _ e _ (fy + 1)) as [r1|] eqn:E1.
  { injection Hres as <- <-. by rewrite Hhit. }
  rewrite (build_entity_miss db rows Hcodes e _ (fy + 1) (Hcodes r Hr) E1).
  destruct (get_entity_fy_forex_rate _ e _ (fy - 1)) as [r2|] eqn:E2; [|done].
  injection Hres as <- <-. by rewrite Hhit.
Qed.

Lemma find_fx_no_entity_rate :
  (∀ e fy, row_entity (entity_master db) r = Some e → row_fy r = Some fy →
     Spec.first_of_three
       (get_entity_fy_forex_rate (entity_forex_rates db) e (PyStr.upper (row_curr r))) fy
     = None) →
  find_fx (entity_master db) (_build_forex_cache db rows) r
  = _build_forex_cache db rows !! legacy_key (PyStr.upper (row_curr r)).
Proof.
  intros Hnone. unfold find_fx.
  pose proof (build_bare db rows _ (Hcodes r Hr)) as Hbare.
  destruct (row_entity (entity_master db) r) as [e|] eqn:He;
    [destruct (row_fy r) as [fy|] eqn:Hf|].
  - destruct (first_of_three_none _ _ (Hnone e fy eq_refl eq_refl)) as (E0 & E1 & E2).
    destruct (negb (e =? 0) && negb (fy =? 0)).
    + rewrite !(build_entity_miss db rows Hcodes e _ _ (Hcodes r Hr)) by done.
      rewrite Hbare. by destruct (_ !! legacy_key _).
    + rewrite Hbare. by destruct (_ !! legacy_key _).
  - rewrite Hbare. by destruct (_ !! legacy_key _).
  - rewrite Hbare. by destruct (_ !! legacy_key _).
Qed.
End RowOfBatch.

(** ** Claim C5 *)

(** C5.  For a row of the batch with entity [e], currency [c] and fiscal
    year [fy] (the currency codes of the batch holding no underscore), the
    cache builder looks up an entity-specific rate for the exact year, then
    for [fy + 1], and only then for [fy - 1]; the first of the three lookups
    that returns a rate gives the entry, with its opening and closing rates,
    that the rate application finds for the row. *)
Theorem C5_exact_then_next_then_previous (db : database) (rows : list row) (r : row)
    (e fy : Z) :
  (∀ r', r' ∈ rows → Spec.no_underscore (PyStr.upper (row_curr r'))) →
  r ∈ rows →
  row_triple (entity_master db) r (e, PyStr.upper (row_curr r), fy) →
  let c := PyStr.upper (row_curr r) in
  let get := get_entity_fy_forex_rate (entity_forex_rates db) e c in
  let found := find_fx (entity_master db) (_build_forex_cache db rows) r in
  (∀ fr, get fy = Some fr →
     lookup_fy (entity_forex_rates db) e c fy = (Some fr, entity_key e c fy, fy)
     ∧ found = Some (entity_entry e c fy fr))
  ∧ (∀ fr, get fy = None → get (fy + 1) = Some fr →
     lookup_fy (entity_forex_rates db) e c fy
     = (Some fr, entity_key e c (fy + 1), fy + 1)
     ∧ found = Some (entity_entry e c (fy + 1) fr))
  ∧ (∀ fr, get fy = None → get (fy + 1) = None → get (fy - 1) = Some fr →
     lookup_fy (entity_forex_rates db) e c fy
     = (Some fr, entity_key e c (fy - 1), fy - 1)
     ∧ found = Some (entity_entry e c (fy - 1) fr))
  ∧ (∀ y fr, fx_opening_rate (entity_entry e c y fr) = opening_rate fr
             ∧ fx_closing_rate (entity_entry e c y fr) = closing_rate fr).
Proof.
  intros Hcodes Hr Ht c get found.
  assert (∀ fy' fr, Spec.first_of_three get fy = Some (fy', fr) →
            lookup_fy (entity_forex_rates db) e c fy = (Some fr, entity_key e c fy', fy')
            ∧ found = Some (entity_entry e c fy' fr)) as Hboth.
  { intros fy' fr Hres. split.
    - rewrite lookup_fy_spec. fold get. by rewrite Hres.
    - exact (find_fx_entity db rows r Hcodes Hr e fy fy' fr Ht Hres). }
  split; [|split; [|split]].
  - intros fr E0. apply Hboth. unfold Spec.first_of_three. by rewrite E0.
  - intros fr E0 E1. apply Hboth. unfold Spec.first_of_three. by rewrite E0, E1.
  - intros fr E0 E1 E2. apply Hboth. unfold Spec.first_of_three.
    by rewrite E0, E1, E2.
  - done.
Qed.

Lemma C5_exact_then_next_then_previous_witness :
  lookup_fy Sample.entity_rates 1 "USD" 2025
  = (Some {| opening_rate := Some 80%float; closing_rate := Some 84%float |},
     entity_key 1 "USD" 2024, 2024)
  ∧ find_fx Sample.entities
      (_build_forex_cache Sample.db [Sample.data_row 9 1 "usd" 2025 None None 1]) 
      (Sample.data_row 9 1 "usd" 2025 None None 1)
    = Some (entity_entry 1 "USD" 2024
              {| opening_rate := Some 80%float; closing_rate := Some 84%float |}).
Proof.
  refine (proj1 (proj2 (proj2 (C5_exact_then_next_then_previous Sample.db
            [Sample.data_row 9 1 "usd" 2025 None None 1]
            (Sample.data_row 9 1 "usd" 2025 None None 1) 1 2025 _ _ _)))
            {| opening_rate := Some 80%float; closing_rate := Some 84%float |} _ _ _).
  - intros r' Hr'. apply list_elem_of_singleton in Hr' as ->. reflexivity.
  - left.
  - repeat split; try (vm_compute; reflexivity); simpl; lia.
  - vm_compute. reflexivity.
  - vm_compute. reflexivity.
  - vm_compute. reflexivity.
Defined.

(** ** Claim C6 *)

(** C6.  For a currency of the batch for which no entity-specific rate was
    found, the fallback tries the legacy table with the code as it is, then
    with "IN" appended (for a 3-letter code), then "USDIN", then "USD".  The
    first code that has a row gives the legacy entry of the cache: no code
    tried before it has any row in the table, and the row taken for it is
    the most recent one, that is, no row of the code has a later
    [updated_at] (a missing one counting as 1900-01-01), or the same
    [updated_at] and a higher [fx_id].  The entry names the source
    "forex_master", the currency asked for and the code used, and holds the
    initial rate of that row as opening rate and its latest rate as closing
    rate.  When no code has a row, the cache has no legacy entry for the
    currency. *)
Theorem C6_legacy_fallback_order (db : database) (rows : list row) (c : string) :
  c ∈ (collect (entity_master db) rows).2 →
  c ∉ (entity_pass db rows).2 →
  let t := forex_master db in
  let updated (r : forex_master_row) := default 0 (fm_updated_at r) in
  variants c
  = [c] ++ (if (String.length c =? 3)%nat then [c +:+ "IN"] else []) ++ ["USDIN"; "USD"]
  ∧ _build_forex_cache db rows !! legacy_key c
    = (fun '(code, fx_row) => legacy_entry c code fx_row)
        <$> Spec.first_with_row t (variants c)
  ∧ match _build_forex_cache db rows !! legacy_key c with
    | Some fx =>
        ∃ code fx_row before after,
          variants c = before ++ code :: after
          ∧ (∀ c' r', c' ∈ before → r' ∈ t → fm_currency r' ≠ Some c')
          ∧ _get_latest_row_for_currency t code = Some fx_row
          ∧ fx_row ∈ t ∧ fm_currency fx_row = Some code
          ∧ (∀ r', r' ∈ t → fm_currency r' = Some code →
               updated r' < updated fx_row
               ∨ (updated r' = updated fx_row ∧ fx_id r' ≤ fx_id fx_row))
          ∧ fx_source fx = "forex_master"
          ∧ fx_currency fx = c
          ∧ fx_currency_used fx = Some code
          ∧ fx_opening_rate fx = fm_initial_rate fx_row
          ∧ fx_initial_rate fx = fm_initial_rate fx_row
          ∧ fx_closing_rate fx = fm_latest_rate fx_row
          ∧ fx_latest_rate fx = fm_latest_rate fx_row
    | None => ∀ c' r', c' ∈ variants c → r' ∈ t → fm_currency r' ≠ Some c'
    end.
Proof.
  intros Hin Hnot t updated. split; [done|].
  assert (_build_forex_cache db rows !! legacy_key c
          = (fun '(code, fx_row) => legacy_entry c code fx_row)
              <$> Spec.first_with_row t (variants c)) as Hcache.
  { rewrite build_legacy. by rewrite bool_decide_eq_true_2. }
  split; [done|]. rewrite Hcache.
  pose proof (first_with_row_spec t (variants c)) as Hspec.
  destruct (Spec.first_with_row t (variants c)) as [[code fx_row]|]; simpl.
  - destruct Hspec as (before & after & Hv & Hb & Hl).
    pose proof (latest_row_spec t code) as Hlatest. rewrite Hl in Hlatest.
    destruct Hlatest as (Hrow & Hcode & Hmax).
    exists code, fx_row, before, after.
    split; [done|]. split.
    { intros c' r' Hc' Hr'. pose proof (latest_row_spec t c') as Hnone.
      rewrite (Hb c' Hc') in Hnone. by apply Hnone. }
    split; [done|]. split; [done|]. split; [done|]. split; [|done].
    intros r' Hr' Hc'. exact (Hmax r' Hr' Hc').
  - intros c' r' Hc' Hr'. pose proof (latest_row_spec t c') as Hlatest.
    rewrite (Hspec c' Hc') in Hlatest. by apply Hlatest.
Qed.

Lemma C6_legacy_fallback_order_witness :
  _build_forex_cache Sample.db_reordered [Sample.other_entity_row; Sample.eur_row]
    !! legacy_key "EUR"
  = (fun '(code, fx_row) => legacy_entry "EUR" code fx_row)
      <$> Spec.first_with_row Sample.reordered_rates (variants "EUR").
Proof.
  refine (proj1 (proj2 (C6_legacy_fallback_order Sample.db_reordered
            [Sample.other_entity_row; Sample.eur_row] "EUR" _ _))).
  - apply collect_currencies. exists Sample.eur_row. split; [right; left|].
    split; vm_compute; reflexivity.
  - apply (bool_decide_unpack _). vm_compute. exact I.
Defined.

(** EUR has no row of its own in the reordered table, so its "IN" form is
    used; of the three EURIN rows the one stamped last is taken, although
    its identifier is the lowest. *)
Example legacy_latest_by_time :
  _build_forex_cache Sample.db_reordered [Sample.other_entity_row; Sample.eur_row]
    !! legacy_key "EUR"
  = Some {| fx_source := "forex_master"; fx_entity_id := None; fx_currency := "EUR";
            fx_currency_used := Some "EURIN"; fx_financial_year := None;
            fx_opening_rate := Some 91%float; fx_closing_rate := Some 92%float;
            fx_initial_rate := Some 91%float; fx_latest_rate := Some 92%float |}.
Proof. vm_compute. reflexivity. Qed.

(** A 3-letter code without a row of its own falls back to its "IN" form,
    and the latest row of that code is the one stamped last. *)
Example legacy_usd :
  Spec.first_with_row Sample.legacy_rates (variants "USD")
  = Some ("USDIN", {| fx_id := 2; fm_currency := Some "USDIN";
                      fm_initial_rate := Some 74%float;
                      fm_latest_rate := Some 76%float; fm_month := Some "May";
                      fm_updated_at := Some 2000 |}).
Proof. vm_compute. reflexivity. Qed.

(** ** Claim C10 *)

(** C10.  In the cache builder the fallback to the legacy table is decided
    per currency code: the legacy entry of a code is written exactly when
    the code is a currency of the batch and no entity of the batch has an
    entity-specific rate for it.  So when some row of the batch finds an
    entity-specific rate for the currency [c], a row of the batch with the
    same currency whose own entity has no entity-specific rate finds no
    entry at all and both loops leave it without a rate (the currency codes
    of the batch holding no underscore). *)
Theorem C10_fallback_per_currency (db : database) (rows : list row) (rA rB : row)
    (eA fyA : Z) (c : string) :
  (∀ r', r' ∈ rows → Spec.no_underscore (PyStr.upper (row_curr r'))) →
  rA ∈ rows → row_triple (entity_master db) rA (eA, c, fyA) →
  is_Some (Spec.first_of_three
             (get_entity_fy_forex_rate (entity_forex_rates db) eA c) fyA) →
  rB ∈ rows → PyStr.upper (row_curr rB) = c →
  (∀ eB fyB, row_entity (entity_master db) rB = Some eB → row_fy rB = Some fyB →
     Spec.first_of_three
       (get_entity_fy_forex_rate (entity_forex_rates db) eB c) fyB = None) →
  let cache := _build_forex_cache db rows in
  (∀ c', cache !! legacy_key c'
         = if bool_decide (c' ∈ (collect (entity_master db) rows).2
                           ∧ c' ∉ (entity_pass db rows).2)
           then legacy_choice (forex_master db) c' else None)
  ∧ c ∈ (entity_pass db rows).2
  ∧ cache !! legacy_key c = None
  ∧ find_fx (entity_master db) cache rB = None
  ∧ apply_row (entity_master db) cache rB = (rB, 0)
  ∧ ∀ save, calculate_row (entity_master db) cache save rB = (rB, [], 0).
Proof.
  intros Hcodes HA HtA HfoundA HB HcB HnoneB cache.
  assert (c ∈ (entity_pass db rows).2) as Hfound.
  { apply found_spec. by exists rA, eA, fyA. }
  assert (cache !! legacy_key c = None) as Hlegacy.
  { unfold cache. rewrite build_legacy. rewrite bool_decide_eq_false_2; [done|].
    by intros [_ ?]. }
  assert (find_fx (entity_master db) cache rB = None) as Hfind.
  { unfold cache. rewrite (find_fx_no_entity_rate db rows rB Hcodes HB).
    - by rewrite HcB.
    - by rewrite HcB. }
  assert (row_rate (entity_master db) cache rB = None) as Hrate.
  { unfold row_rate. rewrite Hfind. by destruct (negb _). }
  split; [intros c'; apply build_legacy|].
  split; [done|]. split; [done|]. split; [done|]. split.
  - by apply apply_row_unrated.
  - intros save. by apply calculate_row_unrated.
Qed.

Lemma C10_fallback_per_currency_witness :
  find_fx Sample.entities
    (_build_forex_cache Sample.db [Sample.bs_row; Sample.other_entity_row])
    Sample.other_entity_row = None.
Proof.
  refine (proj1 (proj2 (proj2 (proj2 (C10_fallback_per_currency Sample.db
            [Sample.bs_row; Sample.other_entity_row]
            Sample.bs_row Sample.other_entity_row 1 2024 "USD" _ _ _ _ _ _ _))))).
  - intros r' Hr'. repeat (apply elem_of_cons in Hr' as [->|Hr']; [reflexivity|]).
    by apply elem_of_nil in Hr'.
  - left.
  - repeat split; try (vm_compute; reflexivity); simpl; lia.
  - vm_compute. eauto.
  - right. left.
  - vm_compute. reflexivity.
  - intros eB fyB HeB HfB. vm_compute in HeB, HfB.
    injection HeB as <-. injection HfB as <-. vm_compute. reflexivity.
Defined.

(** Alone in its batch the same row falls back to the legacy rate; next to
    a row of an entity that has a USD rate it gets none. *)
Example other_entity_alone_and_in_company :
  row_rate Sample.entities (_build_forex_cache Sample.db [Sample.other_entity_row])
    Sample.other_entity_row = Some 76%float
  ∧ row_rate Sample.entities
      (_build_forex_cache Sample.db [Sample.bs_row; Sample.other_entity_row])
      Sample.other_entity_row = None.
Proof. split; vm_compute; reflexivity. Qed.

(** ** Claim C3 *)

Lemma drop_while_empty p (s : string) :
  PyStr.drop_while p s = EmptyString → Spec.all_chars p s = true.
Proof.
  induction s as [|c s IH]; [done|]. cbn. destruct (p c); [exact IH|done].
Qed.

Lemma drop_while_all p (s : string) :
  Spec.all_chars p s = true → PyStr.drop_while p s = EmptyString.
Proof.
  induction s as [|c s IH]; [done|]. cbn. intros [-> Hs]%andb_prop. by apply IH.
Qed.

Lemma drop_while_end_empty p (s : string) :
  PyStr.drop_while_end p s = EmptyString → Spec.all_chars p s = true.
Proof.
  induction s as [|c s IH]; [done|]. cbn.
  destruct (PyStr.drop_while_end p s); [|done].
  destruct (p c); [|done]. intros _. by apply IH.
Qed.

Lemma drop_while_head p (s : string) : starts_without p (PyStr.drop_while p s).
Proof.
  induction s as [|c s IH]; [done|]. cbn. destruct (p c) eqn:E; [exact IH|].
  cbn. exact E.
Qed.

Lemma blank_is_space c : PyStr.is_blank_char c = true → PyStr.is_space c = true.
Proof. char_cases c. Qed.

(** What Python's [strip] leaves non-empty, SQL's [TRIM] leaves non-empty. *)
Lemma strip_nonempty_trim (s : string) :
  nonempty (PyStr.strip s) = true → PyStr.sql_trim s ≠ EmptyString.
Proof.
  intros Hne Htrim. unfold PyStr.sql_trim in Htrim.
  apply drop_while_end_empty in Htrim.
  pose proof (drop_while_head PyStr.is_blank_char s) as Hhead.
  destruct (PyStr.drop_while PyStr.is_blank_char s) as [|c s'] eqn:E.
  - apply drop_while_empty in E.
    assert (PyStr.drop_while PyStr.is_space s = EmptyString) as Hs.
    { apply drop_while_all. eapply all_chars_impl; [apply blank_is_space|done]. }
    unfold PyStr.strip in Hne. by rewrite Hs in Hne.
  - cbn in Htrim, Hhead. by rewrite Hhead in Htrim.
Qed.

Lemma python_gate_populated (v : option string) :
  nonempty (PyStr.strip (Py.str_or_empty v)) = true → Spec.populated v.
Proof.
  destruct v as [[|c s]|]; try done. intros H. exists (String c s).
  split; [done|]. by apply strip_nonempty_trim.
Qed.

Lemma populated_or_none v : Spec.populated v → or_none v = v.
Proof.
  intros (s & -> & Hs). destruct s; [done|reflexivity].
Qed.

Lemma unique_sl_no (t : list final_structured_row) f f' :
  NoDup (sl_no <$> t) → f ∈ t → f' ∈ t → sl_no f = sl_no f' → f = f'.
Proof.
  induction t as [|a t IH]; [by intros _ ?%elem_of_nil|].
  rewrite fmap_cons. intros [Ha Hnd]%NoDup_cons Hf Hf' E.
  apply elem_of_cons in Hf as [->|Hf]; apply elem_of_cons in Hf' as [->|Hf'].
  - done.
  - exfalso. apply Ha. rewrite E. by apply list_elem_of_fmap_2.
  - exfalso. apply Ha. rewrite <- E. by apply list_elem_of_fmap_2.
  - by apply IH.
Qed.

(** The batch update keeps the gate when the rows it targets are
    categorised. *)
Lemma save_updates_gated (us : list fx_update) (t : list final_structured_row) :
  (∀ u f, u ∈ us → f ∈ t → sl_no f = upd_sl_no u → Spec.populated (mainCategory f)) →
  Spec.fx_gated t →
  Spec.fx_gated (foldl (fun t u => save_update u t) t us)
  ∧ (fun f => (sl_no f, mainCategory f)) <$> foldl (fun t u => save_update u t) t us
    = (fun f => (sl_no f, mainCategory f)) <$> t.
Proof.
  revert t. induction us as [|u us IH]; intros t Htarget Hg; [done|]. simpl.
  assert ((fun f => (sl_no f, mainCategory f)) <$> save_update u t
          = (fun f => (sl_no f, mainCategory f)) <$> t) as Hsame.
  { unfold save_update. rewrite <- list_fmap_compose. apply list_fmap_ext.
    intros _ f _. simpl. by destruct (sl_no f =? upd_sl_no u). }
  destruct (IH (save_update u t)) as [IH1 IH2].
  - intros u' f' Hu' Hf' E.
    assert ((sl_no f', mainCategory f')
            ∈ (fun f => (sl_no f, mainCategory f)) <$> save_update u t) as Hin
      by (by apply (list_elem_of_fmap_2 (fun f => (sl_no f, mainCategory f)))).
    rewrite Hsame in Hin. apply list_elem_of_fmap in Hin as (f0 & [= E1 E2] & Hf0).
    rewrite E2. apply (Htarget u' f0); [by right|done|congruence].
  - intros f' Hf'. unfold save_update in Hf'.
    apply list_elem_of_fmap in Hf' as (f0 & -> & Hf0).
    destruct (sl_no f0 =? upd_sl_no u) eqn:E.
    + intros _. simpl. apply (Htarget u f0); [left|done|by apply Z.eqb_eq].
    + by apply Hg.
  - split; [done|]. by rewrite IH2.
Qed.

Lemma calc_updates_gate em cache save rows u :
  u ∈ (calc_loop em cache save rows).1.2 →
  ∃ r, r ∈ rows ∧ row_sl_no r = Some (upd_sl_no u)
       ∧ Spec.populated (row_mainCategory r).
Proof.
  rewrite calc_loop_updates. intros (us & Hu & Hus)%list_elem_of_join.
  apply list_elem_of_fmap in Hus as (r & -> & Hr).
  apply calculate_row_update_sl in Hu as (Hsl & Hrate & _).
  exists r. split; [done|]. split; [done|].
  apply python_gate_populated. unfold row_rate in Hrate. fold (main_category r).
  by destruct (nonempty (main_category r)).
Qed.

(** The batch save keeps the gate when the dictionaries carry the main
    category of the table rows they name. *)
Lemma calculate_and_save_gated db rows cache save :
  (∀ r f, r ∈ rows → f ∈ final_structured db → row_sl_no r = Some (sl_no f) →
          row_mainCategory r = mainCategory f) →
  Spec.fx_gated (final_structured db) →
  Spec.fx_gated
    (final_structured (_calculate_and_save_forex_rates db rows cache save).1.2).
Proof.
  intros Hrows Hg. rewrite calculate_and_save_unfold. simpl.
  apply save_updates_gated; [|done].
  intros u f (r & Hr & Hsl & Hpop)%calc_updates_gate Hf E.
  rewrite <- (Hrows r f Hr Hf); [done|]. by rewrite Hsl, E.
Qed.

Lemma selected_rows_agree (t : list final_structured_row) (p : final_structured_row → bool)
    (q : row → bool) r f :
  NoDup (sl_no <$> t) →
  r ∈ List.filter q (select_fx_columns <$> List.filter p t) → f ∈ t →
  row_sl_no r = Some (sl_no f) → row_mainCategory r = mainCategory f.
Proof.
  intros Hnd Hr Hf E.
  apply list_elem_of_In, filter_In in Hr as [Hr _]. apply list_elem_of_In in Hr.
  apply list_elem_of_fmap in Hr as (f0 & -> & Hf0).
  apply list_elem_of_In, filter_In in Hf0 as [Hf0 _]. apply list_elem_of_In in Hf0.
  simpl in E. injection E as E. by rewrite (unique_sl_no t f0 f Hnd Hf0 Hf E).
Qed.

Lemma latest_code_elem cms particular cm :
  latest_code cms particular = Some cm → cm ∈ cms.
Proof.
  unfold latest_code.
  set (p := fun cm => Sql.holds _).
  set (pick := fun (best : option code_master_row) cm => _).
  assert (∀ l best cm, foldl pick best l = Some cm → Some cm = best ∨ cm ∈ l) as Hfold.
  { induction l as [|a l IH]; intros best cm0; simpl; [by left|].
    intros [Hb|Hl]%IH; [|right; by right].
    unfold pick in Hb. destruct best as [b|].
    - destruct (code_id b <? code_id a).
      + right. injection Hb as ->. left.
      + by left.
    - right. injection Hb as ->. left. }
  intros [?|Hin]%Hfold; [done|].
  apply list_elem_of_In, filter_In in Hin as [Hin _]. by apply list_elem_of_In.
Qed.

Lemma recalculate_gated db payload :
  Spec.fx_gated (final_structured db) →
  Spec.fx_gated (final_structured (recalculate_avg_fx_rate db payload).2).
Proof.
  intros Hg. unfold recalculate_avg_fx_rate.
  destruct (_get_latest_row_for_currency _ _) as [forex_row|]; [|done].
  set (params := PyStr.upper <$> matching_currencies _).
  assert (∀ rate q t,
            (∀ f, q f = true → Sql.holds (recalc_scope params f) = true) →
            Spec.fx_gated t →
            Spec.fx_gated ((fun f => if q f then set_rate_sql rate f else f) <$> t))
    as Hupd.
  { intros rate q t Hq Ht f' (f & -> & Hf)%list_elem_of_fmap.
    destruct (q f) eqn:E; [|by apply Ht].
    intros _. simpl. apply Hq in E. unfold recalc_scope in E.
    rewrite !holds_and, !andb_true_iff in E. destruct E as (Hnn & Hne & _).
    destruct (mainCategory f) as [s|]; [|done]. exists s. split; [done|].
    intros Hs. simpl in Hne. unfold PyStr.eqb in Hne. by rewrite Hs in Hne. }
  assert (∀ l t, Spec.fx_gated t → Spec.fx_gated (update_bs params l t)) as Hbs.
  { intros l t. apply Hupd. intros f. rewrite holds_and, andb_true_iff. by intros [? _]. }
  assert (∀ a t, Spec.fx_gated t → Spec.fx_gated (update_pl params a t)) as Hpl.
  { intros a t. apply Hupd. intros f. rewrite holds_and, andb_true_iff. by intros [? _]. }
  destruct (fm_initial_rate forex_row) as [i|], (fm_latest_rate forex_row) as [l|];
    simpl; auto.
Qed.

Lemma upload_fx_pass_gated db n ec m y :
  NoDup (sl_no <$> final_structured db) →
  Spec.fx_gated (final_structured db) →
  Spec.fx_gated (final_structured (upload_fx_pass db n ec m y)).
Proof.
  intros Hnd Hg. unfold upload_fx_pass. destruct (0 <? n); [|done].
  set (new_rows := select_fx_columns <$> List.filter _ (final_structured db)).
  destruct new_rows as [|r0 rest] eqn:E; [done|]. rewrite <- E.
  pose proof (calculate_and_save_gated db new_rows
                (_build_forex_cache db new_rows) true) as H.
  destruct (_calculate_and_save_forex_rates db new_rows _ true) as [[? db'] ?].
  apply H; [|done]. intros r f Hr Hf Hsl.
  apply (selected_rows_agree (final_structured db)
           (fun f => Sql.holds (needs_rate ec m y f)) (fun _ => true)); try done.
  apply list_elem_of_In, filter_In. split; [by apply list_elem_of_In|done].
Qed.

Lemma update_by_particular_gated db payload :
  NoDup (sl_no <$> final_structured db) →
  (∀ cm, cm ∈ code_master db → Spec.populated (cm_mainCategory cm)) →
  Spec.fx_gated (final_structured db) →
  Spec.fx_gated (final_structured (update_by_particular db payload).2).
Proof.
  intros Hnd Hcm Hg. unfold update_by_particular.
  destruct (negb (nonempty _)); [done|].
  destruct (latest_code (code_master db) _) as [code_result|] eqn:Hcode; [|done].
  apply latest_code_elem, Hcm in Hcode.
  set (particular := PyStr.strip _).
  set (t := _ <$> final_structured db).
  assert (Spec.fx_gated t) as Ht.
  { intros f' (f & -> & Hf)%list_elem_of_fmap.
    destruct (has_particular particular f); [|by apply Hg].
    intros _. simpl. by rewrite populated_or_none. }
  assert (NoDup (sl_no <$> t)) as Hndt.
  { unfold t. rewrite <- list_fmap_compose.
    erewrite list_fmap_ext; [exact Hnd|]. intros _ f _. simpl.
    by destruct (has_particular particular f). }
  set (rows := List.filter _ (select_fx_columns <$> List.filter _ t)).
  destruct rows as [|r0 rest] eqn:E; [done|]. rewrite <- E.
  pose proof (calculate_and_save_gated (with_final_structured db t) rows
                (_build_forex_cache (with_final_structured db t) rows) true) as H.
  destruct (_calculate_and_save_forex_rates _ rows _ true) as [[? db'] ?].
  apply H; [|done]. intros r f Hr Hf Hsl.
  by apply (selected_rows_agree t (has_particular particular)
              (fun r => nonempty (main_category r))).
Qed.

(** C3.  The FX gating invariant, a row with [Avg_Fx_Rt] has a main
    category that is not NULL and not blank, is kept by every operation
    that writes FX rates: the FX pass that ends an upload, the
    recalculation endpoint, the per-particular category update and the batch
    save (given that [sl_no] identifies the rows of the ledger, that every
    mapping of the code master has a main category, as its routes require,
    and that the dictionaries handed to the batch save carry the main
    category of the rows they name).  The converse fails: with no rate
    configured, a categorised row comes out of the FX pass without a rate. *)
Theorem C3_rate_implies_category (db : database) :
  Spec.fx_gated (final_structured db) →
  NoDup (sl_no <$> final_structured db) →
  (∀ cm, cm ∈ code_master db → Spec.populated (cm_mainCategory cm)) →
  (∀ n ec m y, Spec.fx_gated (final_structured (upload_fx_pass db n ec m y)))
  ∧ (∀ payload, Spec.fx_gated (final_structured (recalculate_avg_fx_rate db payload).2))
  ∧ (∀ payload, Spec.fx_gated (final_structured (update_by_particular db payload).2))
  ∧ (∀ rows cache,
       (∀ r f, r ∈ rows → f ∈ final_structured db → row_sl_no r = Some (sl_no f) →
               row_mainCategory r = mainCategory f) →
       Spec.fx_gated
         (final_structured (_calculate_and_save_forex_rates db rows cache true).1.2))
  ∧ (∃ f, f ∈ final_structured (upload_fx_pass Sample.db_no_rates 1 "E1" "April" 2024)
          ∧ Spec.populated (mainCategory f) ∧ Avg_Fx_Rt f = None).
Proof.
  intros Hg Hnd Hcm. split; [|split; [|split; [|split]]].
  - intros n ec m y. by apply upload_fx_pass_gated.
  - intros payload. by apply recalculate_gated.
  - intros payload. by apply update_by_particular_gated.
  - intros rows cache Hrows. by apply calculate_and_save_gated.
  - exists (Sample.ledger_row 3 "Sales" "E1" "USD" "April" "April" (-200)
              (Some "Profit and Loss") (Some "Income") None).
    split; [|split].
    + assert (final_structured (upload_fx_pass Sample.db_no_rates 1 "E1" "April" 2024)
              = Sample.ledger) as -> by (vm_compute; reflexivity).
      right. right. left.
    + exists "Profit and Loss". split; [done|]. vm_compute. discriminate.
    + reflexivity.
Qed.

Lemma C3_rate_implies_category_witness :
  Spec.fx_gated (final_structured (upload_fx_pass Sample.db 1 "E1" "April" 2024)).
Proof.
  refine (proj1 (C3_rate_implies_category Sample.db _ _ _) 1 "E1" "April" 2024).
  - intros f Hf [x Hx].
    repeat (apply elem_of_cons in Hf as [->|Hf]; [discriminate Hx|]).
    by apply elem_of_nil in Hf.
  - apply (bool_decide_unpack _). vm_compute. exact I.
  - intros cm Hcm.
    repeat (apply elem_of_cons in Hcm as [->|Hcm];
            [eexists; split; [reflexivity|vm_compute; discriminate]|]).
    by apply elem_of_nil in Hcm.
Defined.

(** The FX pass rates the categorised row of the upload and no other. *)
Example upload_fx_pass_sample :
  (fun f => (sl_no f, Avg_Fx_Rt f, transactionAmountUSD f))
    <$> final_structured (upload_fx_pass Sample.db 1 "E1" "April" 2024)
  = [ (1, None, None); (2, None, None);
      (3, Some 75%float, Some (-15000)%float); (4, None, None) ].
Proof. vm_compute. reflexivity. Qed.

(** * Further properties of the code *)

Import ForexRoutes.

(** ** Financial year labels and amount cells *)

(** ** Financial year labels *)

Lemma int_digits_acc d : ∀ acc : positive,
  PyStr.int_digits (Z.pos acc) true (NilEmpty.string_of_uint d)
  = Some (Z.pos (Pos.of_uint_acc d acc)).
Proof.
  induction d; intros acc; simpl; try done;
    match goal with
    | |- PyStr.int_digits ?a true _ = Some (Z.pos (Pos.of_uint_acc _ ?b)) =>
        replace a with (Z.pos b) by (unfold PyStr.digit_value; cbn; lia); apply IHd
    end.
Qed.

Lemma int_digits_uint d : ∀ after_digit,
  d ≠ Decimal.Nil ∨ after_digit = true →
  PyStr.int_digits 0 after_digit (NilEmpty.string_of_uint d)
  = Some (Z.of_N (Pos.of_uint d)).
Proof.
  induction d; intros b Hb; simpl;
    try (match goal with
         | |- PyStr.int_digits ?a true _ = Some (Z.pos (Pos.of_uint_acc _ ?p)) =>
             replace a with (Z.pos p) by (unfold PyStr.digit_value; cbn; lia);
             apply int_digits_acc
         end).
  - destruct Hb as [?| ->]; done.
  - change (10 * 0 + PyStr.digit_value "0") with 0. apply IHd. by right.
Qed.

Lemma digit_not_space c : PyStr.is_digit c = true → negb (PyStr.is_space c) = true.
Proof. char_cases c. Qed.

Lemma strip_digits (s : string) :
  Spec.all_chars PyStr.is_digit s = true → PyStr.strip s = s.
Proof.
  intros Hs. unfold PyStr.strip.
  assert (PyStr.drop_while PyStr.is_space s = s) as ->.
  { destruct s as [|c s]; [done|]. cbn in Hs |- *. apply andb_prop in Hs as [Hc _].
    apply digit_not_space, negb_true_iff in Hc. by rewrite Hc. }
  apply drop_while_end_none.
  eapply all_chars_impl; [apply digit_not_space|done].
Qed.

Lemma uint_digits d : Spec.all_chars PyStr.is_digit (NilEmpty.string_of_uint d) = true.
Proof. induction d; simpl; try done. Qed.

Lemma to_uint_string p :
  NilZero.string_of_uint (Pos.to_uint p) = NilEmpty.string_of_uint (Pos.to_uint p).
Proof.
  pose proof (DecimalPos.Unsigned.to_uint_nonnil p) as H.
  by destruct (Pos.to_uint p).
Qed.

Lemma digit_not_int_space c :
  PyStr.is_digit c = true → negb (PyStr.is_int_space c) = true.
Proof. char_cases c. Qed.

Lemma int_space_digits (s : string) :
  Spec.all_chars PyStr.is_digit s = true →
  PyStr.drop_while_end PyStr.is_int_space (PyStr.drop_while PyStr.is_int_space s) = s.
Proof.
  intros Hs.
  assert (PyStr.drop_while PyStr.is_int_space s = s) as ->.
  { destruct s as [|c s]; [done|]. cbn in Hs |- *. apply andb_prop in Hs as [Hc _].
    apply digit_not_int_space, negb_true_iff in Hc. by rewrite Hc. }
  apply drop_while_end_none.
  eapply all_chars_impl; [apply digit_not_int_space|done].
Qed.

Lemma to_int_digits d :
  d ≠ Decimal.Nil →
  PyStr.to_int (NilEmpty.string_of_uint d) = Some (Z.of_N (Pos.of_uint d)).
Proof.
  intros Hd. unfold PyStr.to_int. rewrite (int_space_digits _ (uint_digits d)).
  rewrite <- (int_digits_uint d false) by by left.
  destruct d; try done.
Qed.

(** [int(str(n))] is [n]. *)
Lemma to_int_of_Z n : PyStr.to_int (PyStr.of_Z n) = Some n.
Proof.
  unfold PyStr.of_Z. pose proof (DecimalZ.of_to n) as Hn.
  destruct n as [|p|p]; [done| |]; simpl in *.
  - rewrite to_uint_string, to_int_digits by apply DecimalPos.Unsigned.to_uint_nonnil.
    by rewrite <- Hn.
  - rewrite to_uint_string. unfold PyStr.to_int.
    assert (PyStr.drop_while_end PyStr.is_int_space
              (PyStr.drop_while PyStr.is_int_space
                 (String "-" (NilEmpty.string_of_uint (Pos.to_uint p))))
            = String "-" (NilEmpty.string_of_uint (Pos.to_uint p))) as ->.
    { change (PyStr.drop_while PyStr.is_int_space (String "-" ?s)) with (String "-" s).
      apply drop_while_end_none. cbn.
      eapply all_chars_impl; [apply digit_not_int_space|apply uint_digits]. }
    rewrite int_digits_uint by (left; apply DecimalPos.Unsigned.to_uint_nonnil).
    simpl. f_equal. unfold Z.of_uint in Hn. lia.
Qed.


Lemma digit_not_dash c : PyStr.is_digit c = true → not_dash c = true.
Proof. char_cases c. Qed.

Lemma contains_cons needle c (t : string) :
  PyStr.contains needle (String c t)
  = if String.prefix needle (String c t) then true else PyStr.contains needle t.
Proof. reflexivity. Qed.

Lemma prefix_dash c (t : string) : String.prefix "-" (String c t) = Ascii.eqb c "-".
Proof. destruct t; char_cases c. Qed.

Lemma contains_dash (a b : string) : PyStr.contains "-" (a +:+ String "-" b) = true.
Proof.
  induction a as [|c a IH].
  - rewrite append_nil, contains_cons, prefix_dash. done.
  - rewrite append_cons, contains_cons, prefix_dash, IH. by destruct (Ascii.eqb c "-").
Qed.

Lemma contains_no_dash (s : string) :
  Spec.all_chars not_dash s = true → PyStr.contains "-" s = false.
Proof.
  induction s as [|c s IH]; [done|]. cbn [Spec.all_chars]. intros [Hc Hs]%andb_prop.
  rewrite contains_cons, prefix_dash, (IH Hs).
  unfold not_dash in Hc. apply negb_true_iff in Hc. by rewrite Hc.
Qed.

Lemma split_on_none (s : string) :
  Spec.all_chars not_dash s = true → PyStr.split_on "-" s = [s].
Proof.
  induction s as [|c s IH]; [done|]. cbn. intros [Hc Hs]%andb_prop.
  unfold not_dash in Hc. apply negb_true_iff in Hc. rewrite Hc, (IH Hs). done.
Qed.

Lemma split_on_first (a b : string) :
  Spec.all_chars not_dash a = true →
  PyStr.split_on "-" (a +:+ String "-" b) = a :: PyStr.split_on "-" b.
Proof.
  induction a as [|c a IH]; [done|]. rewrite append_cons. cbn.
  intros [Hc Ha]%andb_prop. unfold not_dash in Hc. apply negb_true_iff in Hc.
  by rewrite Hc, (IH Ha).
Qed.

Lemma all_chars_substring p (s : string) : ∀ i k,
  Spec.all_chars p s = true → Spec.all_chars p (String.substring i k s) = true.
Proof.
  induction s as [|c s IH]; intros i k Hs.
  - by destruct i, k.
  - cbn in Hs. apply andb_prop in Hs as [Hc Hs].
    destruct i as [|i]; [|by apply IH].
    destruct k as [|k]; [done|]. cbn. rewrite Hc. simpl.
    by apply (IH 0%nat k).
Qed.

Lemma of_Z_digits n : 0 ≤ n → Spec.all_chars PyStr.is_digit (PyStr.of_Z n) = true.
Proof.
  unfold PyStr.of_Z. destruct n as [|p|p]; [done| |lia]. intros _. simpl.
  rewrite to_uint_string. apply uint_digits.
Qed.

Lemma parse_format_fy n :
  0 ≤ n →
  parse_financial_year (format_financial_year n) = Some n
  ∧ parse_financial_year (PyStr.of_Z n) = Some n.
Proof.
  intros Hn. unfold parse_financial_year, format_financial_year. split.
  - change ("-" +:+ ?s) with (String "-" s).
    rewrite contains_dash, split_on_first, split_on_none.
    + by rewrite to_int_of_Z.
    + eapply all_chars_impl; [apply digit_not_dash|].
      apply all_chars_substring, of_Z_digits. lia.
    + eapply all_chars_impl; [apply digit_not_dash|by apply of_Z_digits].
  - rewrite contains_no_dash.
    + by rewrite to_int_of_Z.
    + eapply all_chars_impl; [apply digit_not_dash|by apply of_Z_digits].
Qed.

(** X1.  A financial year that is not negative is read back from its label:
    [parse_financial_year] gives [n] for the text [format_financial_year n]
    ("2024-25") and for the plain number ("2024"). *)
Theorem financial_year_label_round_trip n :
  0 ≤ n →
  parse_financial_year (format_financial_year n) = Some n
  ∧ parse_financial_year (PyStr.of_Z n) = Some n.
Proof. apply parse_format_fy. Qed.

Lemma financial_year_label_round_trip_witness :
  parse_financial_year (format_financial_year 2024) = Some 2024
  ∧ parse_financial_year (PyStr.of_Z 2024) = Some 2024.
Proof. apply (financial_year_label_round_trip 2024). lia. Defined.

(** ** The two readings of an amount cell *)

Lemma lower_empty (s : string) : PyStr.lower s = EmptyString → s = EmptyString.
Proof. by destruct s. Qed.

Lemma parse_plain_number_cell_number cell : parse_plain_number cell = cell_number cell.
Proof.
  destruct cell as [v|]; [|done]. unfold parse_plain_number, cell_number, is_na_text.
  unfold PyStr.eqb.
  destruct (bool_decide (PyStr.strip v = "")) eqn:E; [done|]. simpl.
  assert (bool_decide (PyStr.lower (PyStr.strip v) = "") = false) as ->.
  { apply bool_decide_eq_false. intros H%lower_empty.
    apply bool_decide_eq_false in E. done. }
  by rewrite orb_false_r.
Qed.

Lemma opp_abs_negative (x : float) : (x <? 0)%float = true → (- abs (abs x))%float = x.
Proof.
  intros H. apply Prim2SF_inj. rewrite opp_spec, !abs_spec.
  rewrite ltb_spec, Prim2SF_zero in H.
  destruct (Prim2SF x) as [[]|[]| |[] m e]; simpl in *; try discriminate; done.
Qed.

Lemma abs_positive (x : float) : (0 <? x)%float = true → abs x = x.
Proof.
  intros H. apply Prim2SF_inj. rewrite abs_spec.
  rewrite ltb_spec, Prim2SF_zero in H.
  destruct (Prim2SF x) as [[]|[]| |[] m e]; simpl in *; try discriminate; done.
Qed.

Lemma derived_of_number (x : float) :
  calculate_amt_tb_lc (Some (amount_and_type x).1) (Some (amount_and_type x).2)
  = Some (if (x <? 0)%float || (0 <? x)%float then x else abs x).
Proof.
  unfold amount_and_type.
  destruct (x <? 0)%float eqn:Hneg; [|destruct (0 <? x)%float eqn:Hpos]; simpl.
  - by rewrite opp_abs_negative.
  - by rewrite abs_positive.
  - done.
Qed.

(** X2.  The signed number that [parse_plain_number] reads in a cell for
    [rawData] and the [transactionAmount] derived from the same cell are
    missing together; the derived amount is the number read when that is
    negative or positive, and its absolute value otherwise. *)
Theorem raw_and_derived_amounts_agree cell :
  derived_transaction_amount cell
  = (fun x => if (x <? 0)%float || (0 <? x)%float then x else abs x)
      <$> parse_plain_number cell.
Proof.
  rewrite parse_plain_number_cell_number.
  unfold derived_transaction_amount, parse_amount_and_type.
  destruct (cell_number cell) as [x|]; [|done]. simpl.
  pose proof (derived_of_number x) as H. by destruct (amount_and_type x).
Qed.

(** X3.  [calculate_amt_tb_lc] gives nothing exactly when the amount or the
    type is missing; a Dr result is never below zero and a Cr result never
    above zero, whatever the sign of the amount passed in. *)
Theorem debit_never_negative_credit_never_positive
    (amount : option float) (ty : option amount_type) :
  match calculate_amt_tb_lc amount ty with
  | Some y =>
      is_Some amount
      ∧ match ty with
        | Some Dr => (y <? 0)%float = false
        | Some Cr => (0 <? y)%float = false
        | None => False
        end
  | None => amount = None ∨ ty = None
  end.
Proof.
  destruct amount as [a|], ty as [[]|]; simpl; try (by left); try (by right).
  - split; [done|]. rewrite ltb_spec, abs_spec, Prim2SF_zero.
    by destruct (Prim2SF a) as [[]|[]| |[] m e].
  - split; [done|]. rewrite ltb_spec, opp_spec, abs_spec, Prim2SF_zero.
    by destruct (Prim2SF a) as [[]|[]| |[] m e].
Qed.

(** ** The entity hierarchy *)

Lemma unique_ids_spec (l : list Z) : ∀ seen : gset Z,
  NoDup (unique_ids seen l)
  ∧ ∀ x, x ∈ unique_ids seen l ↔ x ∈ l ∧ x ∉ seen.
Proof.
  induction l as [|a l IH]; intros seen; simpl.
  - split; [constructor|]. intros x. rewrite elem_of_nil. tauto.
  - case_bool_decide as Ha.
    + destruct (IH seen) as [Hnd Hel]. split; [done|].
      intros x. rewrite Hel, elem_of_cons. split; [tauto|].
      intros [[->|?] ?]; done.
    + destruct (IH ({[a]} ∪ seen)) as [Hnd Hel]. split.
      * constructor; [|done]. rewrite Hel, elem_of_union, elem_of_singleton.
        intros [_ []]. by left.
      * intros x. rewrite elem_of_cons, Hel, elem_of_cons, elem_of_union,
          elem_of_singleton.
        destruct (decide (x = a)) as [->|Hne]; [tauto|]. tauto.
Qed.

Lemma extend_fold_none (descend : Z → option (list Z)) (cs : list entity_master_row) :
  foldl (extend_with_child descend) None cs = None.
Proof. induction cs as [|c cs IH]; [done|apply IH]. Qed.

Lemma extend_fold_spec (descend : Z → option (list Z)) (cs : list entity_master_row) :
  ∀ ids l,
    foldl (extend_with_child descend) (Some ids) cs = Some l →
    (∃ more, l = ids ++ more)
    ∧ (∀ c, c ∈ cs → ent_id c ≠ 0 → is_Some (descend (ent_id c)))
    ∧ ∀ y, y ∈ l ↔ y ∈ ids ∨ ∃ c l', c ∈ cs ∧ ent_id c ≠ 0
                                     ∧ descend (ent_id c) = Some l' ∧ y ∈ l'.
Proof.
  induction cs as [|c cs IH]; intros ids l; simpl.
  - intros [= <-]. split; [exists []; by rewrite app_nil_r|]. split.
    { by intros c ?%elem_of_nil. }
    intros y. split; [by left|]. intros [?|(c & l' & ?%elem_of_nil & _)]; done.
  - destruct (ent_id c =? 0) eqn:Ec; simpl.
    + apply Z.eqb_eq in Ec. intros (Hpre & Hsome & Hel)%IH. split; [done|]. split.
      { intros c' [->|?]%elem_of_cons ?; [done|by apply Hsome]. }
      intros y. rewrite Hel. split.
      * intros [?|(c' & l' & ? & ?)]; [by left|]. right. exists c', l'.
        split; [by right|done].
      * intros [?|(c' & l' & [->|?]%elem_of_cons & Hne & ?)]; [by left|done|].
        right. by exists c', l'.
    + apply Z.eqb_neq in Ec. destruct (descend (ent_id c)) as [lc|] eqn:Ed.
      * intros ([more ->] & Hsome & Hel)%IH. split.
        { exists (lc ++ more). by rewrite app_assoc. }
        split.
        { intros c' [->|?]%elem_of_cons ?; [by rewrite Ed|by apply Hsome]. }
        intros y. rewrite Hel, elem_of_app. split.
        -- intros [[?|?]|(c' & l' & ? & ?)]; [by left|right|right].
           ++ exists c, lc. split; [left|done].
           ++ exists c', l'. split; [by right|done].
        -- intros [?|(c' & l' & [->|?]%elem_of_cons & Hne & Hd & Hy)].
           ++ by left; left.
           ++ rewrite Ed in Hd. injection Hd as <-. by left; right.
           ++ right. by exists c', l'.
      * by rewrite extend_fold_none.
Qed.

Lemma children_of_spec t x r :
  r ∈ children_of t x ↔ r ∈ t ∧ parent_entity_id r = Some x.
Proof.
  unfold children_of. rewrite !list_elem_of_In, filter_In.
  destruct (parent_entity_id r) as [p|]; simpl.
  - destruct (Z.eqb_spec p x) as [->|Hne]; split; intros [? ?]; try done.
    congruence.
  - split; intros [? ?]; done.
Qed.

Lemma descendants_step depth t x l :
  _get_all_descendant_entity_ids (S depth) t x = Some l →
  ∃ raw, foldl (extend_with_child (_get_all_descendant_entity_ids depth t))
           (Some [x]) (children_of t x) = Some raw
         ∧ l = unique_ids ∅ raw.
Proof.
  simpl. destruct (foldl _ _ _) as [raw|]; [|done]. intros [= <-]. by exists raw.
Qed.

Lemma descendants_sound depth : ∀ t x l,
  _get_all_descendant_entity_ids depth t x = Some l →
  NoDup l ∧ head l = Some x ∧ ∀ y, y ∈ l → descends t x y.
Proof.
  induction depth as [|depth IH]; intros t x l; [done|].
  intros (raw & Hraw & ->)%descendants_step.
  apply extend_fold_spec in Hraw as ([more ->] & _ & Hel).
  destruct (unique_ids_spec ([x] ++ more) ∅) as [Hnd Hu].
  split; [done|]. split; [done|].
  intros y. rewrite Hu, Hel.
  intros [[->%list_elem_of_singleton|(c & l' & Hc & Hne & Hd & Hy)] _];
    [constructor|].
  apply children_of_spec in Hc as [Hc Hp].
  apply (descends_child t x c y Hc Hp Hne).
  by apply (IH t _ _ Hd).
Qed.

Lemma descendants_complete t x y :
  descends t x y →
  ∀ depth l, _get_all_descendant_entity_ids depth t x = Some l → y ∈ l.
Proof.
  induction 1 as [x|x r y Hr Hp Hne Hd IH]; intros [|depth] l; try done.
  - intros (raw & Hraw & ->)%descendants_step.
    apply extend_fold_spec in Hraw as ([more ->] & _ & _).
    apply unique_ids_spec. split; [left|apply not_elem_of_empty].
  - intros (raw & Hraw & ->)%descendants_step.
    apply extend_fold_spec in Hraw as (_ & Hsome & Hel).
    assert (r ∈ children_of t x) as Hc by by apply children_of_spec.
    destruct (Hsome r Hc Hne) as [l' Hl'].
    apply unique_ids_spec. split; [|apply not_elem_of_empty].
    apply Hel. right. exists r, l'. repeat split; try done. by apply (IH depth).
Qed.

Lemma extend_fold_mono (d1 d2 : Z → option (list Z)) (cs : list entity_master_row) :
  (∀ c l, d1 c = Some l → d2 c = Some l) →
  ∀ acc l, foldl (extend_with_child d1) acc cs = Some l →
           foldl (extend_with_child d2) acc cs = Some l.
Proof.
  intros Hd. induction cs as [|c cs IH]; intros acc l; [done|]. simpl.
  destruct acc as [ids|]; simpl; [|by rewrite extend_fold_none].
  destruct (negb (ent_id c =? 0)); [|apply IH].
  destruct (d1 (ent_id c)) as [lc|] eqn:E; [|by rewrite extend_fold_none].
  rewrite (Hd _ _ E). apply IH.
Qed.

Lemma descendants_more_depth depth : ∀ t x l,
  _get_all_descendant_entity_ids depth t x = Some l →
  _get_all_descendant_entity_ids (S depth) t x = Some l.
Proof.
  induction depth as [|depth IH]; intros t x l; [done|].
  intros (raw & Hraw & ->)%descendants_step.
  change (unique_ids ∅
            <$> foldl (extend_with_child (_get_all_descendant_entity_ids (S depth) t))
                  (Some [x]) (children_of t x) = Some (unique_ids ∅ raw)).
  by rewrite (extend_fold_mono _ _ _ (IH t) _ _ Hraw).
Qed.

Lemma descendants_depth_le d d' t x l :
  (d ≤ d')%nat →
  _get_all_descendant_entity_ids d t x = Some l →
  _get_all_descendant_entity_ids d' t x = Some l.
Proof.
  induction 1 as [|d' _ IH]; [done|]. intros H. by apply descendants_more_depth, IH.
Qed.

Lemma extend_fold_total (descend : Z → option (list Z)) (cs : list entity_master_row) :
  (∀ c, c ∈ cs → ent_id c ≠ 0 → is_Some (descend (ent_id c))) →
  ∀ ids, is_Some (foldl (extend_with_child descend) (Some ids) cs).
Proof.
  induction cs as [|c cs IH]; intros Hc ids; simpl; [done|].
  destruct (ent_id c =? 0) eqn:Ec; simpl.
  - apply IH. intros c' ? ?. apply Hc; [by right|done].
  - apply Z.eqb_neq in Ec. destruct (Hc c) as [lc ->]; [left|done|].
    apply IH. intros c' ? ?. apply Hc; [by right|done].
Qed.

Lemma descendants_total (t : list entity_master_row) (rank : Z → nat) :
  (∀ r p, r ∈ t → parent_entity_id r = Some p → ent_id r ≠ 0 →
          (rank (ent_id r) < rank p)%nat) →
  ∀ depth x, (rank x < depth)%nat →
             is_Some (_get_all_descendant_entity_ids depth t x).
Proof.
  intros Hrank. induction depth as [|depth IH]; intros x Hx; [lia|].
  simpl. apply fmap_is_Some, extend_fold_total.
  intros c [Hc Hp]%children_of_spec Hne. apply IH.
  specialize (Hrank c x Hc Hp Hne). lia.
Qed.

(** X4.  When [_get_all_descendant_entity_ids] returns, its list starts with
    the entity itself, holds no id twice, and holds exactly the ids reached
    from the entity through [parent_entity_id] over rows with a non-zero id. *)
Theorem descendant_ids_are_the_subtree depth t x l :
  _get_all_descendant_entity_ids depth t x = Some l →
  NoDup l ∧ head l = Some x ∧ ∀ y, y ∈ l ↔ descends t x y.
Proof.
  intros H. destruct (descendants_sound _ _ _ _ H) as (Hnd & Hhead & Hsound).
  split; [done|]. split; [done|]. intros y. split; [apply Hsound|].
  intros Hy. by apply (descendants_complete t x y Hy depth).
Qed.

Lemma descendant_ids_are_the_subtree_witness :
  NoDup [1; 2] ∧ head [1; 2] = Some 1
  ∧ ∀ y, y ∈ [1; 2] ↔ descends Sample.entities 1 y.
Proof.
  apply (descendant_ids_are_the_subtree 3 Sample.entities 1 [1; 2]).
  vm_compute. reflexivity.
Defined.

(** X5.  On a hierarchy without cycles (a rank falls from every parent to its
    children) [_get_all_descendant_entity_ids] returns, with one and the same
    list at every recursion depth above the rank of the entity. *)
Theorem descendant_ids_of_acyclic_table (t : list entity_master_row)
    (rank : Z → nat) x :
  (∀ r p, r ∈ t → parent_entity_id r = Some p → ent_id r ≠ 0 →
          (rank (ent_id r) < rank p)%nat) →
  ∃ l, ∀ depth, (rank x < depth)%nat →
                _get_all_descendant_entity_ids depth t x = Some l.
Proof.
  intros Hrank.
  destruct (descendants_total t rank Hrank (S (rank x)) x) as [l Hl]; [lia|].
  exists l. intros depth Hd. apply (descendants_depth_le (S (rank x))); [lia|done].
Qed.

Lemma descendant_ids_of_acyclic_table_witness :
  ∃ l, ∀ depth, ((if 1 =? 1 then 1 else 0) < depth)%nat →
                _get_all_descendant_entity_ids depth Sample.entities 1 = Some l.
Proof.
  apply (descendant_ids_of_acyclic_table Sample.entities
           (fun i => if i =? 1 then 1%nat else 0%nat) 1).
  intros r p Hr Hp Hne.
  repeat (apply elem_of_cons in Hr as [->|Hr];
          [first [discriminate Hp | injection Hp as <-; simpl; lia]|]).
  by apply elem_of_nil in Hr.
Defined.

(** A successful call on [x] rests on successful calls, no deeper, on
    everything below [x]. *)
Lemma descendants_calls t x y :
  descends t x y →
  ∀ depth, is_Some (_get_all_descendant_entity_ids depth t x) →
  ∃ d, (d ≤ depth)%nat ∧ is_Some (_get_all_descendant_entity_ids d t y).
Proof.
  induction 1 as [x|x r y Hr Hp Hne Hd IH]; intros depth Hs.
  - by exists depth.
  - destruct depth as [|depth]; [by destruct Hs|].
    destruct Hs as [l (raw & Hraw & _)%descendants_step].
    apply extend_fold_spec in Hraw as (_ & Hsome & _).
    destruct (IH depth) as (d & Hle & Hd').
    { apply Hsome; [by apply children_of_spec|done]. }
    exists d. split; [lia|done].
Qed.

(** X6.  An entity that is reached from one of its own children has no
    result: at every recursion depth the call runs out of stack. *)
Theorem descendant_ids_fail_on_cycle t x r :
  r ∈ t → parent_entity_id r = Some x → ent_id r ≠ 0 → descends t (ent_id r) x →
  ∀ depth, _get_all_descendant_entity_ids depth t x = None.
Proof.
  intros Hr Hp Hne Hback depth.
  induction depth as [depth IH] using lt_wf_ind.
  destruct (_get_all_descendant_entity_ids depth t x) as [l|] eqn:E; [|done].
  destruct depth as [|depth]; [done|]. exfalso.
  apply descendants_step in E as (raw & Hraw & _).
  apply extend_fold_spec in Hraw as (_ & Hsome & _).
  destruct (descendants_calls t _ _ Hback depth) as (d & Hle & [l' Hl']).
  { apply Hsome; [by apply children_of_spec|done]. }
  rewrite IH in Hl'; [done|lia].
Qed.

Lemma descendant_ids_fail_on_cycle_witness :
  _get_all_descendant_entity_ids 1000 Sample.entities_cycle 1 = None.
Proof.
  refine (descendant_ids_fail_on_cycle Sample.entities_cycle 1
            {| ent_id := 2; ent_code := Some "B"; parent_entity_id := Some 1 |}
            _ _ _ _ 1000).
  - right. left.
  - reflexivity.
  - simpl. lia.
  - simpl.
    apply (descends_child _ 2
             {| ent_id := 1; ent_code := Some "A"; parent_entity_id := Some 2 |} 1).
    + left.
    + reflexivity.
    + simpl. lia.
    + apply descends_self.
Defined.

(** X7.  When [_get_all_descendant_entity_codes] returns, a code is in its
    list exactly when it is the non-empty [ent_code] of a row whose id is
    the entity or one of its descendants. *)
Theorem descendant_codes_are_the_subtree depth t x codes :
  _get_all_descendant_entity_codes depth t x = Some codes →
  ∀ c, c ∈ codes ↔ ∃ r, r ∈ t ∧ descends t x (ent_id r)
                        ∧ ent_code r = Some c ∧ c ≠ EmptyString.
Proof.
  unfold _get_all_descendant_entity_codes.
  destruct (_get_all_descendant_entity_ids depth t x) as [ids|] eqn:E; [|done].
  pose proof (descendants_sound _ _ _ _ E) as (_ & Hhead & Hsound).
  pose proof (descendants_complete t x) as Hcomplete.
  destruct ids as [|i ids]; [done|]. intros [= <-] c.
  rewrite list_elem_of_omap. split.
  - intros (r & Hr & Hc). apply list_elem_of_In, filter_In in Hr as [Hr Hin].
    apply bool_decide_eq_true in Hin. apply list_elem_of_In in Hr.
    exists r. split; [done|]. split; [by apply Hsound|].
    destruct (ent_code r) as [[|a s]|]; simpl in Hc; try done.
    by injection Hc as <-.
  - intros (r & Hr & Hd & Hc & Hne). exists r. split.
    + apply list_elem_of_In, filter_In. split; [by apply list_elem_of_In|].
      apply bool_decide_eq_true. by apply (Hcomplete _ Hd depth).
    + rewrite Hc. by destruct c.
Qed.

Lemma descendant_codes_are_the_subtree_witness :
  "E2" ∈ ["E1"; "E2"]
  ↔ ∃ r, r ∈ Sample.entities ∧ descends Sample.entities 1 (ent_id r)
         ∧ ent_code r = Some "E2" ∧ "E2" ≠ EmptyString.
Proof.
  apply (descendant_codes_are_the_subtree 3 Sample.entities 1 ["E1"; "E2"]).
  vm_compute. reflexivity.
Defined.

(** ** The table of financial years *)

Ltac date_lia :=
  repeat match goal with d : date |- _ => destruct d as [[? ?] ?] end;
  unfold date_le in *; simpl in *; lia.

Lemma date_le_refl a : date_le a a.
Proof. date_lia. Qed.

Lemma date_le_antisym a b : date_le a b → date_le b a → a = b.
Proof.
  destruct a as [[? ?] ?], b as [[? ?] ?]. unfold date_le. simpl. intros H1 H2.
  assert (z = z2 ∧ z0 = z3 ∧ z1 = z4) as (-> & -> & ->) by lia. done.
Qed.

Lemma between_spec x a b : between x a b = true ↔ date_le a x ∧ date_le x b.
Proof. unfold between. by rewrite andb_true_iff, !date_leb_le. Qed.

Lemma covers_spec d p :
  covers d p = true
  ↔ is_active p = true ∧ date_le (start_date p) d ∧ date_le d (end_date p).
Proof. unfold covers. rewrite !andb_true_iff, !date_leb_le. tauto. Qed.

(** The four [BETWEEN] tests together say that the two ranges share a
    date, as long as the stored period does not end before it starts. *)
Lemma four_tests_share s e p :
  date_le (start_date p) (end_date p) → date_le s e →
  (between s (start_date p) (end_date p)
   || between e (start_date p) (end_date p)
   || between (start_date p) s e
   || between (end_date p) s e) = true
  ↔ share_a_date s e (start_date p) (end_date p).
Proof.
  intros Hp Hse. rewrite !orb_true_iff, !between_spec. unfold share_a_date. split.
  - intros [[[[H1 H2]|[H1 H2]]|[H1 H2]]|[H1 H2]].
    + exists s. repeat split; try done. apply date_le_refl.
    + exists e. repeat split; try done. apply date_le_refl.
    + exists (start_date p). repeat split; try done. apply date_le_refl.
    + exists (end_date p). repeat split; try done. apply date_le_refl.
  - intros (d & H1 & H2 & H3 & H4).
    destruct (date_le_total (start_date p) s) as [H|H].
    + left. left. left. split; [done|]. by apply (date_le_trans _ d).
    + left. right. split; [done|]. by apply (date_le_trans _ d).
Qed.

Lemma find_is_Some {A} (f : A → bool) (l : list A) :
  is_Some (List.find f l) ↔ ∃ x, x ∈ l ∧ f x = true.
Proof.
  split.
  - intros [x Hx]. apply find_some in Hx as [Hin Hf]. exists x.
    split; [by apply list_elem_of_In|done].
  - intros (x & Hin & Hf). destruct (List.find f l) as [y|] eqn:E; [done|].
    apply list_elem_of_In in Hin. by rewrite (find_none _ _ E x Hin) in Hf.
Qed.

Lemma overlaps_unfold t s e ex :
  overlaps (check_overlapping_dates t s e ex) = true
  ↔ date_le e s ∨ ∃ p, p ∈ t ∧ overlap_hit s e ex p = true.
Proof.
  unfold check_overlapping_dates.
  destruct (date_leb e s) eqn:Ees.
  - apply date_leb_le in Ees. simpl. tauto.
  - assert (¬ date_le e s) as Hn.
    { intros H%date_leb_le. by rewrite H in Ees. }
    rewrite <- find_is_Some.
    destruct (List.find _ t) as [p|]; simpl.
    + split; [|done]. intros _. right. done.
    + split; [done|]. intros [?|[? [=]]]. done.
Qed.

Lemma not_le_lt a b : ¬ date_le a b → date_le b a.
Proof. intros H. by destruct (date_le_total a b). Qed.

(** X8.  When no stored period ends before it starts,
    [check_overlapping_dates] reports an overlap exactly when the new end
    date is not after the new start date or some active period shares a date
    with the new range; the period with the excluded id does not count, nor
    does a period with id 0 when no id is excluded. *)
Theorem overlap_check_is_range_intersection t s e ex :
  (∀ p, p ∈ t → date_le (start_date p) (end_date p)) →
  overlaps (check_overlapping_dates t s e ex) = true
  ↔ date_le e s
    ∨ ∃ p, p ∈ t ∧ is_active p = true ∧ fy_id p ≠ default 0 ex
           ∧ share_a_date s e (start_date p) (end_date p).
Proof.
  intros Hvalid. rewrite overlaps_unfold.
  destruct (date_le_total e s) as [Hes|Hse]; [tauto|].
  split; (intros [?|(p & Hp & H)]; [by left|right; exists p; split; [done|]]).
  - unfold overlap_hit in H. apply andb_prop in H as [[Ha Hid]%andb_prop Hb].
    apply negb_true_iff, Z.eqb_neq in Hid. repeat split; try done.
    by apply four_tests_share; [apply Hvalid| |].
  - destruct H as (Ha & Hid & Hsh). unfold overlap_hit.
    apply Z.eqb_neq in Hid. rewrite Ha, Hid. simpl.
    by apply four_tests_share; [apply Hvalid| |].
Qed.

Lemma overlap_check_is_range_intersection_witness :
  overlaps (check_overlapping_dates Sample.periods (2025, 1, 1) (2025, 12, 31) None) = true
  ↔ date_le (2025, 12, 31) (2025, 1, 1)
    ∨ ∃ p, p ∈ Sample.periods ∧ is_active p = true ∧ fy_id p ≠ default 0 None
           ∧ share_a_date (2025, 1, 1) (2025, 12, 31) (start_date p) (end_date p).
Proof.
  apply (overlap_check_is_range_intersection Sample.periods (2025, 1, 1) (2025, 12, 31) None).
  intros p Hp.
  repeat (apply elem_of_cons in Hp as [->|Hp]; [unfold date_le; simpl; lia|]).
  by apply elem_of_nil in Hp.
Defined.

(** A period that shares a date with the range is reported, however the
    stored period is shaped. *)
Lemma hit_of_shared_date t s e ex p d :
  p ∈ t → covers d p = true → fy_id p ≠ default 0 ex →
  date_le s d → date_le d e →
  overlaps (check_overlapping_dates t s e ex) = true.
Proof.
  intros Hp (Ha & H1 & H2)%covers_spec Hid Hs He.
  apply overlaps_unfold. right. exists p. split; [done|].
  unfold overlap_hit. apply Z.eqb_neq in Hid. rewrite Ha, Hid. simpl.
  rewrite !orb_true_iff, !between_spec.
  destruct (date_le_total (start_date p) s) as [H|H].
  - left. left. left. split; [done|]. by apply (date_le_trans _ d).
  - left. right. split; [done|]. by apply (date_le_trans _ d).
Qed.

Lemma elem_of_snoc {A} (l : list A) (x y : A) : y ∈ l ++ [x] ↔ y ∈ l ∨ y = x.
Proof. by rewrite elem_of_app, list_elem_of_singleton. Qed.

Lemma same_id_same_row (t : list financial_year_period) p q :
  NoDup (fy_id <$> t) → p ∈ t → q ∈ t → fy_id p = fy_id q → p = q.
Proof.
  intros Hnd [i Hi]%list_elem_of_lookup [j Hj]%list_elem_of_lookup Hid.
  assert (i = j) as ->.
  { eapply NoDup_lookup; [exact Hnd| |].
    - by rewrite list_lookup_fmap, Hi.
    - rewrite list_lookup_fmap, Hj. simpl. by rewrite Hid. }
  rewrite Hi in Hj. by injection Hj.
Qed.

(** X9.  A successful [create_financial_year] (status 201) appends one row
    with the id given and keeps the table consistent: distinct non-zero ids,
    every period ending after it starts, no date inside two active periods. *)
Theorem create_keeps_periods_consistent t new_id label s e act t' :
  periods_consistent t → new_id ≠ 0 → new_id ∉ fy_id <$> t →
  create_financial_year t new_id label s e act = (201, t') →
  periods_consistent t'
  ∧ ∃ fy s' e', t' = t ++ [ {| fy_id := new_id; fy_label := Some fy; start_date := s';
                               end_date := e'; is_active := act |} ].
Proof.
  intros [Hnd Hnz Hes Hdis] Hnew Hfresh. unfold create_financial_year.
  destruct (nonempty _); [|by destruct s, e].
  destruct s as [| |s]; try by destruct e.
  destruct e as [| |e]; try done.
  destruct (date_leb e s) eqn:Ees; [done|].
  destruct (overlaps _) eqn:Eov; [done|].
  destruct (existsb _ t); [done|]. intros [= <-].
  split; [|by eexists _, _, _].
  assert (¬ date_le e s) as Hends.
  { intros H%date_leb_le. by rewrite H in Ees. }
  split.
  - rewrite fmap_app. apply NoDup_app. split; [done|]. split.
    + intros x Hx Hx'%list_elem_of_singleton. by subst.
    + apply NoDup_singleton.
  - intros p [Hp| ->]%elem_of_snoc; [by apply Hnz|done].
  - intros p [Hp| ->]%elem_of_snoc; [by apply Hes|done].
  - assert (∀ p d, p ∈ t → covers d p = true →
              covers d {| fy_id := new_id; fy_label := Some (PyStr.strip (Py.str_or_empty label));
                          start_date := s; end_date := e; is_active := act |} = true → False)
      as Hclash.
    { intros p d Hp Hc (_ & H1 & H2)%covers_spec. simpl in *.
      rewrite (hit_of_shared_date t s e None p d) in Eov; try done.
      simpl. by apply Hnz. }
    intros p q d [Hp| ->]%elem_of_snoc
      [Hq| ->]%elem_of_snoc Hcp Hcq.
    + by apply (Hdis p q d).
    + by destruct (Hclash p d).
    + by destruct (Hclash q d).
    + done.
Qed.

Lemma sample_periods_consistent : periods_consistent Sample.periods.
Proof.
  split.
  - apply (bool_decide_unpack _). vm_compute. exact I.
  - intros p Hp.
    repeat (apply elem_of_cons in Hp as [->|Hp]; [discriminate|]).
    by apply elem_of_nil in Hp.
  - intros p Hp.
    repeat (apply elem_of_cons in Hp as [->|Hp]; [unfold date_le; simpl; lia|]).
    by apply elem_of_nil in Hp.
  - intros p q [[y m] d] Hp Hq Hcp%covers_spec Hcq%covers_spec.
    repeat (apply elem_of_cons in Hp as [->|Hp]);
      try (by apply elem_of_nil in Hp);
      repeat (apply elem_of_cons in Hq as [->|Hq]);
      try (by apply elem_of_nil in Hq); try reflexivity;
      exfalso; unfold date_le in *; simpl in *; lia.
Qed.

Lemma create_keeps_periods_consistent_witness :
  periods_consistent (Sample.periods ++ [Sample.period_2025])
  ∧ ∃ fy s' e', Sample.periods ++ [Sample.period_2025]
                = Sample.periods ++ [ {| fy_id := 3; fy_label := Some fy; start_date := s';
                                         end_date := e'; is_active := true |} ].
Proof.
  refine (create_keeps_periods_consistent Sample.periods 3 (Some " 2025-26 ")
            (Good_date (2025, 4, 1)) (Good_date (2026, 3, 31)) true _
            sample_periods_consistent _ _ _).
  - lia.
  - apply (bool_decide_unpack _). vm_compute. exact I.
  - vm_compute. reflexivity.
Defined.

Lemma find_id_elem (t : list financial_year_period) i p :
  List.find (fun p => fy_id p =? i) t = Some p → p ∈ t ∧ fy_id p = i.
Proof.
  intros [Hin Hid]%find_some. split; [by apply list_elem_of_In|by apply Z.eqb_eq].
Qed.

(** X10.  A successful [update_financial_year] (status 200) keeps the table of
    periods consistent. *)
Theorem update_keeps_periods_consistent t i payload t' :
  periods_consistent t →
  update_financial_year t i payload = (200, t') →
  periods_consistent t'.
Proof.
  intros [Hnd Hnz Hes Hdis]. unfold update_financial_year.
  destruct (List.find _ t) as [current|] eqn:Ecur; [|done].
  apply find_id_elem in Ecur as [Hcur Hcid].
  set (s0 := match upd_start_date payload with
             | No_date => Some (start_date current) | Bad_date => None
             | Good_date d => Some d end).
  set (e0 := match upd_end_date payload with
             | No_date => Some (end_date current) | Bad_date => None
             | Good_date d => Some d end).
  destruct s0 as [s|]; [|done]. destruct e0 as [e|]; [|done].
  destruct (date_leb e s) eqn:Ees; [done|].
  destruct (overlaps _) eqn:Eov; [done|].
  set (f := fun p => if fy_id p =? i then _ else p). intros [= <-].
  assert (¬ date_le e s) as Hends.
  { intros H%date_leb_le. by rewrite H in Ees. }
  assert (∀ p, fy_id (f p) = fy_id p) as Hfid.
  { intros p. unfold f. by destruct (fy_id p =? i). }
  assert (∀ p, fy_id p ≠ i → f p = p) as Hother.
  { intros p Hp. unfold f. apply Z.eqb_neq in Hp. by rewrite Hp. }
  assert (∀ p q d, p ∈ t → q ∈ t → fy_id p = i → fy_id q ≠ i →
            covers d (f p) = true → covers d q = true → False) as Hclash.
  { intros p q d Hp Hq Hpi Hqi Hcp Hcq. unfold f in Hcp.
    apply Z.eqb_eq in Hpi. rewrite Hpi in Hcp.
    apply covers_spec in Hcp as (_ & H1 & H2). simpl in *.
    rewrite (hit_of_shared_date t s e (Some i) q d) in Eov; done. }
  split.
  - rewrite <- list_fmap_compose.
    assert (fy_id ∘ f <$> t = fy_id <$> t) as ->; [|done].
    apply list_fmap_ext. intros ? p _. apply Hfid.
  - intros p' (p & -> & Hp)%list_elem_of_fmap. rewrite Hfid. by apply Hnz.
  - intros p' (p & -> & Hp)%list_elem_of_fmap. unfold f.
    destruct (fy_id p =? i); [done|by apply Hes].
  - intros p' q' d (p & -> & Hp)%list_elem_of_fmap (q & -> & Hq)%list_elem_of_fmap
      Hcp Hcq.
    destruct (decide (fy_id p = i)) as [Hpi|Hpi], (decide (fy_id q = i)) as [Hqi|Hqi].
    + by rewrite (same_id_same_row t p q Hnd Hp Hq) by congruence.
    + rewrite (Hother q Hqi) in Hcq. by destruct (Hclash p q d).
    + rewrite (Hother p Hpi) in Hcp. by destruct (Hclash q p d).
    + rewrite (Hother p Hpi) in Hcp |- *. rewrite (Hother q Hqi) in Hcq |- *.
      by apply (Hdis p q d).
Qed.

Lemma update_keeps_periods_consistent_witness :
  periods_consistent
    [ {| fy_id := 1; fy_label := Some "2023-24"; start_date := (2023, 4, 1);
         end_date := (2024, 3, 31); is_active := true |};
      {| fy_id := 2; fy_label := Some "2024-25"; start_date := (2024, 4, 1);
         end_date := (2025, 6, 30); is_active := true |} ].
Proof.
  refine (update_keeps_periods_consistent Sample.periods 2 Sample.longer_year _
            sample_periods_consistent _).
  vm_compute. reflexivity.
Defined.

(** X11.  A successful [delete_financial_year] keeps the table of periods
    consistent, and the period with that id covers no date afterwards. *)
Theorem deactivation_keeps_periods_consistent t i t' :
  periods_consistent t →
  delete_financial_year t i = (200, t') →
  periods_consistent t'
  ∧ ∀ p d, p ∈ t' → fy_id p = i → covers d p = false.
Proof.
  intros [Hnd Hnz Hes Hdis]. unfold delete_financial_year.
  destruct (existsb _ t); [|done].
  set (f := fun p => if fy_id p =? i then _ else p). intros [= <-].
  assert (∀ p, fy_id (f p) = fy_id p) as Hfid.
  { intros p. unfold f. by destruct (fy_id p =? i). }
  assert (∀ p d, covers d (f p) = true → covers d p = true ∧ f p = p) as Hcov.
  { intros p d. unfold f. destruct (fy_id p =? i); [|done].
    unfold covers. simpl. done. }
  split; [split|].
  - rewrite <- list_fmap_compose.
    assert (fy_id ∘ f <$> t = fy_id <$> t) as ->; [|done].
    apply list_fmap_ext. intros ? p _. apply Hfid.
  - intros p' (p & -> & Hp)%list_elem_of_fmap. rewrite Hfid. by apply Hnz.
  - intros p' (p & -> & Hp)%list_elem_of_fmap. unfold f.
    destruct (fy_id p =? i); [simpl|]; by apply Hes.
  - intros p' q' d (p & -> & Hp)%list_elem_of_fmap (q & -> & Hq)%list_elem_of_fmap
      Hcp Hcq.
    apply Hcov in Hcp as [Hcp ->]. apply Hcov in Hcq as [Hcq ->].
    by apply (Hdis p q d).
  - intros p' d (p & -> & Hp)%list_elem_of_fmap. rewrite Hfid. intros Hi.
    unfold f. apply Z.eqb_eq in Hi. rewrite Hi. done.
Qed.

Lemma deactivation_keeps_periods_consistent_witness :
  periods_consistent (delete_financial_year Sample.periods 1).2
  ∧ ∀ p d, p ∈ (delete_financial_year Sample.periods 1).2 → fy_id p = 1 →
           covers d p = false.
Proof.
  refine (deactivation_keeps_periods_consistent Sample.periods 1 _
            sample_periods_consistent _).
  vm_compute. reflexivity.
Defined.

(** X12.  In a consistent table [validate_date_against_fy_master] returns the
    one active period that covers the date, whatever the order of the rows. *)
Theorem validated_period_is_the_only_one t d p :
  periods_consistent t → p ∈ t → covers d p = true →
  validate_date_against_fy_master t d = Some p.
Proof.
  intros [_ _ _ Hdis] Hp Hc. unfold validate_date_against_fy_master.
  destruct (List.find (covers d) t) as [q|] eqn:E.
  - apply find_some in E as [Hq Hcq]. apply list_elem_of_In in Hq.
    by rewrite (Hdis p q d).
  - apply list_elem_of_In in Hp. by rewrite (find_none _ _ E p Hp) in Hc.
Qed.

Lemma validated_period_is_the_only_one_witness :
  validate_date_against_fy_master Sample.periods (2024, 5, 1)
  = Some {| fy_id := 2; fy_label := Some "2024-25"; start_date := (2024, 4, 1);
            end_date := (2025, 3, 31); is_active := true |}.
Proof.
  refine (validated_period_is_the_only_one Sample.periods (2024, 5, 1) _
            sample_periods_consistent _ _).
  - right. left.
  - vm_compute. reflexivity.
Defined.

(** ** Rates from the legacy table *)

(** ** Batches without entity and year *)

Lemma bare_row_entity em r : names_no_entity_or_year r → row_entity em r = None.
Proof.
  intros (H1 & H2 & H3 & H4 & _). unfold row_entity. by rewrite H1, H2, H3, H4.
Qed.

Lemma bare_row_fy r : names_no_entity_or_year r → row_fy r = None.
Proof.
  intros (_ & _ & _ & _ & H5 & H6 & H7). unfold row_fy. by rewrite H5, H6, H7.
Qed.

Lemma selected_row_bare f : names_no_entity_or_year (select_fx_columns f).
Proof. by repeat split. Qed.

Lemma collect_row_bare em acc r :
  names_no_entity_or_year r →
  collect_row em acc r
  = (acc.1, if nonempty (row_curr r) then {[PyStr.upper (row_curr r)]} ∪ acc.2
            else acc.2).
Proof.
  intros Hr. destruct acc as [S C]. unfold collect_row.
  by rewrite (bare_row_entity em r Hr).
Qed.

Lemma collect_bare em em' rows : ∀ acc,
  Forall names_no_entity_or_year rows →
  (foldl (collect_row em) acc rows).1 = acc.1
  ∧ foldl (collect_row em) acc rows = foldl (collect_row em') acc rows.
Proof.
  induction rows as [|r rows IH]; intros acc Hrows; [done|].
  apply Forall_cons in Hrows as [Hr Hrows]. simpl.
  rewrite (collect_row_bare em acc r Hr), (collect_row_bare em' acc r Hr).
  destruct (IH (acc.1, if nonempty (row_curr r)
                       then {[PyStr.upper (row_curr r)]} ∪ acc.2 else acc.2) Hrows)
    as [H1 H2].
  split; [exact H1|exact H2].
Qed.

Lemma build_bare_batch db rows :
  Forall names_no_entity_or_year rows →
  _build_forex_cache db rows
  = foldl (legacy_step (forex_master db)) ∅
      (elements (collect (entity_master db) rows).2).
Proof.
  intros Hrows. unfold _build_forex_cache, entity_pass.
  destruct (collect_bare (entity_master db) (entity_master db) rows (∅, ∅) Hrows)
    as [H1 _].
  unfold collect. rewrite H1. simpl. rewrite elements_empty. simpl.
  by rewrite difference_empty_L.
Qed.

Lemma build_bare_batch_agree db db' rows :
  Forall names_no_entity_or_year rows →
  forex_master db = forex_master db' →
  _build_forex_cache db rows = _build_forex_cache db' rows.
Proof.
  intros Hrows Hfm. rewrite !build_bare_batch by done. rewrite Hfm.
  unfold collect.
  by destruct (collect_bare (entity_master db) (entity_master db') rows (∅, ∅) Hrows)
    as [_ ->].
Qed.

Lemma find_fx_bare em em' cache r :
  names_no_entity_or_year r → find_fx em cache r = find_fx em' cache r.
Proof.
  intros Hr. unfold find_fx.
  by rewrite (bare_row_entity em r Hr), (bare_row_entity em' r Hr).
Qed.

Lemma calculate_row_bare em em' cache save r :
  names_no_entity_or_year r →
  calculate_row em cache save r = calculate_row em' cache save r.
Proof.
  intros Hr. unfold calculate_row, row_rate. by rewrite (find_fx_bare em em' cache r Hr).
Qed.

Lemma calc_loop_bare em em' cache save rows :
  Forall names_no_entity_or_year rows →
  calc_loop em cache save rows = calc_loop em' cache save rows.
Proof.
  induction 1 as [|r rows Hr _ IH]; [done|]. unfold calc_loop in *. simpl.
  by rewrite IH, (calculate_row_bare em em' cache save r Hr).
Qed.

Lemma calculate_and_save_bare db db' rows save :
  Forall names_no_entity_or_year rows →
  forex_master db = forex_master db' →
  final_structured db = final_structured db' →
  final_structured
    (_calculate_and_save_forex_rates db rows (_build_forex_cache db rows) save).1.2
  = final_structured
      (_calculate_and_save_forex_rates db' rows (_build_forex_cache db' rows) save).1.2.
Proof.
  intros Hrows Hfm Hfs. rewrite !calculate_and_save_unfold. simpl.
  rewrite (build_bare_batch_agree db db' rows Hrows Hfm).
  by rewrite (calc_loop_bare (entity_master db) (entity_master db') _ save rows Hrows), Hfs.
Qed.

Lemma selected_rows_bare (l : list final_structured_row) :
  Forall names_no_entity_or_year (select_fx_columns <$> l).
Proof. apply Forall_fmap, Forall_forall. intros f _. apply selected_row_bare. Qed.

Lemma filter_bare (p : row → bool) (rows : list row) :
  Forall names_no_entity_or_year rows →
  Forall names_no_entity_or_year (List.filter p rows).
Proof.
  rewrite !Forall_forall. intros H r Hr%list_elem_of_In%filter_In.
  apply H, list_elem_of_In, Hr.
Qed.

(** X13.  The FX pass that ends an upload reads the legacy table only: two
    databases with the same [forex_master] and [final_structured] are left
    with the same ledger, whatever their entities and FY-specific rates are,
    since the rows it selects carry no entity and no year. *)
Theorem upload_fx_pass_reads_legacy_rates_only db db' n ec m y :
  forex_master db = forex_master db' →
  final_structured db = final_structured db' →
  final_structured (upload_fx_pass db n ec m y)
  = final_structured (upload_fx_pass db' n ec m y).
Proof.
  intros Hfm Hfs. unfold upload_fx_pass. destruct (0 <? n); [|done].
  rewrite <- Hfs.
  set (new_rows := select_fx_columns <$> List.filter _ (final_structured db)).
  assert (Forall names_no_entity_or_year new_rows) as Hbare
    by apply selected_rows_bare.
  pose proof (calculate_and_save_bare db db' new_rows true Hbare Hfm Hfs) as H.
  destruct new_rows as [|r rows]; [done|].
  destruct (_calculate_and_save_forex_rates db _ _ _) as [[? d1] ?].
  destruct (_calculate_and_save_forex_rates db' _ _ _) as [[? d2] ?].
  exact H.
Qed.

Lemma upload_fx_pass_reads_legacy_rates_only_witness :
  final_structured (upload_fx_pass Sample.db 1 "E1" "April" 2024)
  = final_structured (upload_fx_pass Sample.db_legacy_only 1 "E1" "April" 2024).
Proof.
  apply (upload_fx_pass_reads_legacy_rates_only Sample.db Sample.db_legacy_only).
  - reflexivity.
  - reflexivity.
Defined.

(** X14.  [update_by_particular] reads the legacy table only: two databases
    with the same [forex_master], [final_structured] and [code_master] get
    the same status and the same ledger, whatever their entities and
    FY-specific rates are. *)
Theorem update_by_particular_reads_legacy_rates_only db db' payload :
  forex_master db = forex_master db' →
  final_structured db = final_structured db' →
  code_master db = code_master db' →
  (update_by_particular db payload).1 = (update_by_particular db' payload).1
  ∧ final_structured (update_by_particular db payload).2
    = final_structured (update_by_particular db' payload).2.
Proof.
  intros Hfm Hfs Hcm. unfold update_by_particular.
  destruct (negb (nonempty _)); [done|]. rewrite <- Hcm.
  destruct (latest_code _ _) as [code_result|]; [|done].
  rewrite <- Hfs.
  set (t := _ <$> final_structured db).
  set (rows := List.filter _ (select_fx_columns <$> List.filter _ t)).
  assert (Forall names_no_entity_or_year rows) as Hbare
    by apply filter_bare, selected_rows_bare.
  pose proof (calculate_and_save_bare (with_final_structured db t)
                (with_final_structured db' t) rows true Hbare Hfm eq_refl) as H.
  destruct rows as [|r rows]; [done|].
  destruct (_calculate_and_save_forex_rates (with_final_structured db t) _ _ _)
    as [[? d1] ?].
  destruct (_calculate_and_save_forex_rates (with_final_structured db' t) _ _ _)
    as [[? d2] ?].
  split; [done|exact H].
Qed.

Lemma update_by_particular_reads_legacy_rates_only_witness :
  (update_by_particular Sample.db (Some "Sales")).1
  = (update_by_particular Sample.db_legacy_only (Some "Sales")).1
  ∧ final_structured (update_by_particular Sample.db (Some "Sales")).2
    = final_structured (update_by_particular Sample.db_legacy_only (Some "Sales")).2.
Proof.
  apply (update_by_particular_reads_legacy_rates_only Sample.db Sample.db_legacy_only).
  - reflexivity.
  - reflexivity.
  - reflexivity.
Defined.

(** ** Applying a cache twice *)

Lemma row_rate_set_rate em cache r rate usd :
  row_rate em cache (set_rate r rate usd) = row_rate em cache r.
Proof. reflexivity. Qed.

Lemma apply_row_idem em cache r :
  apply_row em cache (apply_row em cache r).1 = apply_row em cache r.
Proof.
  unfold apply_row at 2. destruct (row_rate em cache r) as [rate|] eqn:E; simpl.
  - unfold apply_row. rewrite row_rate_set_rate, E. simpl.
    unfold set_rate. simpl. f_equal. f_equal.
    by destruct (match row_transactionAmount r with Some v => v | None => row_amount r end).
  - unfold apply_row. by rewrite E.
Qed.

Lemma apply_forex_rates_cons em cache r rows :
  _apply_forex_rates em (r :: rows) cache
  = ((apply_row em cache r).1 :: (_apply_forex_rates em rows cache).1,
     (_apply_forex_rates em rows cache).2 + (apply_row em cache r).2).
Proof.
  unfold _apply_forex_rates. simpl.
  destruct (foldr _ _ rows) as [out updated]. by destruct (apply_row em cache r).
Qed.

(** X15.  Applying a cache to rows that [_apply_forex_rates] has processed
    with it changes nothing: the rows and the count come out the same. *)
Theorem apply_forex_rates_idempotent em cache rows :
  _apply_forex_rates em (_apply_forex_rates em rows cache).1 cache
  = _apply_forex_rates em rows cache.
Proof.
  induction rows as [|r rows IH]; [done|].
  rewrite (apply_forex_rates_cons em cache r rows). cbn [fst].
  rewrite apply_forex_rates_cons, IH, apply_row_idem. done.
Qed.

(** ** The recalculation after a change of the legacy rates *)

Lemma names_pl_defined v : ∃ b, names_pl v = Some b.
Proof.
  destruct v as [s|]; unfold names_pl; simpl; [|by eexists].
  set (v := PyStr.lower (PyStr.sql_trim s)).
  destruct (PyStr.eqb v "profit and loss"), (PyStr.eqb v "profit & loss"),
    (PyStr.eqb v "p&l"); by eexists.
Qed.

Lemma sql_is_pl_defined f : ∃ b, sql_is_pl f = Some b.
Proof.
  unfold sql_is_pl.
  destruct (names_pl_defined (category1 f)) as [b1 ->].
  destruct (names_pl_defined (mainCategory f)) as [b2 ->].
  destruct b1, b2; by eexists.
Qed.

Lemma holds_and_not_pl c f :
  Sql.holds (Sql.and_ c (Sql.not_ (sql_is_pl f)))
  = Sql.holds c && negb (Sql.holds (sql_is_pl f)).
Proof.
  destruct (sql_is_pl_defined f) as [b ->]. by destruct c as [[]|], b.
Qed.

Lemma set_rate_sql_twice a b f : set_rate_sql a (set_rate_sql b f) = set_rate_sql a f.
Proof. reflexivity. Qed.

Lemma update_bs_lookup params l t i :
  update_bs params l t !! i
  = (fun f => if Sql.holds (recalc_scope params f) && negb (Sql.holds (sql_is_pl f))
              then set_rate_sql l f else f) <$> t !! i.
Proof.
  unfold update_bs. rewrite list_lookup_fmap. destruct (t !! i) as [f|]; [|done].
  simpl. by rewrite holds_and_not_pl.
Qed.

Lemma update_pl_lookup params a t i :
  update_pl params a t !! i
  = (fun f => if Sql.holds (recalc_scope params f) && Sql.holds (sql_is_pl f)
              then set_rate_sql a f else f) <$> t !! i.
Proof.
  unfold update_pl. rewrite list_lookup_fmap. destruct (t !! i) as [f|]; [|done].
  simpl. by rewrite holds_and.
Qed.


(** X16.  [recalculate_avg_fx_rate] keeps every ledger row in place and either
    leaves it as it is or, for a categorised row of a matching currency that
    has an amount, sets [Avg_Fx_Rt] to a rate and [transactionAmountUSD] to
    the amount times that rate, and no other column. *)
Theorem recalculation_touches_scope_only db payload i f :
  final_structured db !! i = Some f →
  ∃ f', final_structured (recalculate_avg_fx_rate db payload).2 !! i = Some f'
        ∧ (f' = f
           ∨ (Sql.holds (recalc_scope (recalc_params payload) f) = true
              ∧ ∃ rate, f' = set_rate_sql rate f)).
Proof.
  intros Hf. unfold recalculate_avg_fx_rate.
  fold (recalc_currency payload). fold (recalc_params payload).
  destruct (_get_latest_row_for_currency _ _) as [fx|]; [|by exists f; split; [|left]].
  destruct (fm_initial_rate fx) as [ini|], (fm_latest_rate fx) as [l|]; simpl.
  - rewrite update_pl_lookup, update_bs_lookup, Hf. simpl.
    destruct (Sql.holds (recalc_scope _ f)) eqn:Es; simpl.
    + destruct (Sql.holds (sql_is_pl f)) eqn:Ep; simpl.
      * rewrite Es, Ep. simpl. eexists. split; [done|]. right. split; [done|].
        by eexists.
      * change (recalc_scope ?p (set_rate_sql l f)) with (recalc_scope p f).
        change (sql_is_pl (set_rate_sql l f)) with (sql_is_pl f).
        rewrite Es, Ep. simpl. eexists. split; [done|]. right. split; [done|].
        by eexists.
    + rewrite Es. simpl. eexists. split; [done|]. by left.
  - exists f. split; [done|by left].
  - rewrite update_bs_lookup, Hf. simpl.
    destruct (Sql.holds (recalc_scope _ f)) eqn:Es; simpl.
    + destruct (Sql.holds (sql_is_pl f)) eqn:Ep; simpl.
      * eexists. split; [done|]. by left.
      * eexists. split; [done|]. right. split; [done|]. by eexists.
    + eexists. split; [done|]. by left.
  - exists f. split; [done|by left].
Qed.

Lemma recalculation_touches_scope_only_witness :
  ∃ f', final_structured (recalculate_avg_fx_rate Sample.db (Some "usdin")).2 !! 2%nat
        = Some f'
        ∧ (f' = Sample.ledger_row 3 "Sales" "E1" "USD" "April" "April" (-200)
                  (Some "Profit and Loss") (Some "Income") None
           ∨ (Sql.holds (recalc_scope (recalc_params (Some "usdin"))
                           (Sample.ledger_row 3 "Sales" "E1" "USD" "April" "April" (-200)
                              (Some "Profit and Loss") (Some "Income") None)) = true
              ∧ ∃ rate, f' = set_rate_sql rate
                               (Sample.ledger_row 3 "Sales" "E1" "USD" "April" "April"
                                  (-200) (Some "Profit and Loss") (Some "Income") None))).
Proof.
  apply (recalculation_touches_scope_only Sample.db (Some "usdin") 2).
  reflexivity.
Defined.

(** X17.  When the latest legacy row of the currency has both rates, every row
    in scope receives a rate, the average if the SQL test classifies it as
    Profit and Loss and the latest rate otherwise, and rows out of scope stay
    as they are: the two [UPDATE] statements between them miss no row. *)
Theorem recalculation_rates_every_row_in_scope db payload fx ini l i f :
  _get_latest_row_for_currency (forex_master db) (recalc_currency payload) = Some fx →
  fm_initial_rate fx = Some ini → fm_latest_rate fx = Some l →
  final_structured db !! i = Some f →
  final_structured (recalculate_avg_fx_rate db payload).2 !! i
  = Some (if Sql.holds (recalc_scope (recalc_params payload) f)
          then set_rate_sql
                 (if Sql.holds (sql_is_pl f) then ((ini + l) / 2)%float else l) f
          else f).
Proof.
  intros Hfx Hini Hl Hf. unfold recalculate_avg_fx_rate.
  fold (recalc_currency payload). fold (recalc_params payload).
  rewrite Hfx, Hini, Hl. simpl.
  rewrite update_pl_lookup, update_bs_lookup, Hf. simpl.
  destruct (Sql.holds (recalc_scope _ f)) eqn:Es; simpl.
  - destruct (Sql.holds (sql_is_pl f)) eqn:Ep; simpl.
    + by rewrite Es, Ep.
    + change (recalc_scope ?p (set_rate_sql l f)) with (recalc_scope p f).
      change (sql_is_pl (set_rate_sql l f)) with (sql_is_pl f).
      by rewrite Es, Ep.
  - by rewrite Es.
Qed.

Lemma recalculation_rates_every_row_in_scope_witness :
  final_structured (recalculate_avg_fx_rate Sample.db (Some "usdin")).2 !! 2%nat
  = Some (if Sql.holds (recalc_scope (recalc_params (Some "usdin"))
                          (Sample.ledger_row 3 "Sales" "E1" "USD" "April" "April" (-200)
                             (Some "Profit and Loss") (Some "Income") None))
          then set_rate_sql
                 (if Sql.holds (sql_is_pl (Sample.ledger_row 3 "Sales" "E1" "USD" "April"
                                             "April" (-200) (Some "Profit and Loss")
                                             (Some "Income") None))
                  then ((74 + 76) / 2)%float else 76%float)
                 (Sample.ledger_row 3 "Sales" "E1" "USD" "April" "April" (-200)
                    (Some "Profit and Loss") (Some "Income") None)
          else Sample.ledger_row 3 "Sales" "E1" "USD" "April" "April" (-200)
                 (Some "Profit and Loss") (Some "Income") None).
Proof.
  apply (recalculation_rates_every_row_in_scope Sample.db (Some "usdin")
           {| fx_id := 2; fm_currency := Some "USDIN"; fm_initial_rate := Some 74%float;
              fm_latest_rate := Some 76%float; fm_month := Some "May";
              fm_updated_at := Some 2000 |}).
  - vm_compute. reflexivity.
  - reflexivity.
  - reflexivity.
  - reflexivity.
Defined.

(** ** The two tests for Profit and Loss *)

Lemma map_drop_while (f : ascii → ascii) (p : ascii → bool) (s : string) :
  (∀ c, p (f c) = p c) →
  PyStr.map_chars f (PyStr.drop_while p s) = PyStr.drop_while p (PyStr.map_chars f s).
Proof.
  intros Hp. induction s as [|c s IH]; [done|]. cbn. rewrite Hp.
  by destruct (p c).
Qed.

Lemma map_drop_while_end (f : ascii → ascii) (p : ascii → bool) (s : string) :
  (∀ c, p (f c) = p c) →
  PyStr.map_chars f (PyStr.drop_while_end p s)
  = PyStr.drop_while_end p (PyStr.map_chars f s).
Proof.
  intros Hp. induction s as [|c s IH]; [done|]. cbn. rewrite <- IH, Hp.
  destruct (PyStr.drop_while_end p s); cbn; [by destruct (p c)|done].
Qed.

Lemma lower_char_space c : PyStr.is_space (PyStr.lower_char c) = PyStr.is_space c.
Proof. char_cases c. Qed.

Lemma lower_char_blank c : PyStr.is_blank_char (PyStr.lower_char c) = PyStr.is_blank_char c.
Proof. char_cases c. Qed.

Lemma lower_strip (s : string) : PyStr.lower (PyStr.strip s) = PyStr.strip (PyStr.lower s).
Proof.
  unfold PyStr.lower, PyStr.strip.
  rewrite map_drop_while_end, map_drop_while; [done| |]; apply lower_char_space.
Qed.

Lemma lower_sql_trim (s : string) :
  PyStr.lower (PyStr.sql_trim s) = PyStr.sql_trim (PyStr.lower s).
Proof.
  unfold PyStr.lower, PyStr.sql_trim.
  rewrite map_drop_while_end, map_drop_while; [done| |]; apply lower_char_blank.
Qed.

Lemma drop_while_split p (s : string) :
  ∃ a, s = a +:+ PyStr.drop_while p s ∧ Spec.all_chars p a = true.
Proof.
  induction s as [|c s (a & Hs & Ha)]; [by exists EmptyString|]. cbn.
  destruct (p c) eqn:Ec.
  - exists (String c a). rewrite append_cons, <- Hs. cbn. by rewrite Ec, Ha.
  - by exists EmptyString.
Qed.

Lemma drop_while_end_split p (s : string) :
  ∃ b, s = PyStr.drop_while_end p s +:+ b ∧ Spec.all_chars p b = true.
Proof.
  induction s as [|c s (b & Hs & Hb)]; [by exists EmptyString|]. cbn.
  destruct (PyStr.drop_while_end p s) as [|c' s'] eqn:E.
  - rewrite append_nil in Hs. subst b. destruct (p c) eqn:Ec.
    + exists (String c s). rewrite append_nil. cbn. by rewrite Ec, Hb.
    + exists s. by rewrite !append_cons, append_nil.
  - exists b. by rewrite append_cons, <- Hs.
Qed.

Lemma drop_while_end_all p (s : string) :
  Spec.all_chars p s = true → PyStr.drop_while_end p s = EmptyString.
Proof.
  induction s as [|c s IH]; [done|]. cbn. intros [Hc Hs]%andb_prop.
  by rewrite (IH Hs), Hc.
Qed.

Lemma drop_while_prefix p (a x : string) :
  Spec.all_chars p a = true → starts_without p x → PyStr.drop_while p (a +:+ x) = x.
Proof.
  intros Ha Hx. induction a as [|c a IH].
  - rewrite append_nil. destruct x as [|y x]; [done|]. cbn in *. by rewrite Hx.
  - rewrite append_cons. cbn in *. apply andb_prop in Ha as [-> Ha]. by apply IH.
Qed.

Lemma length_append_s (a b : string) :
  String.length (a +:+ b) = (String.length a + String.length b)%nat.
Proof. induction a as [|c a IH]; [done|]. rewrite append_cons. simpl. by rewrite IH. Qed.

(** A text whose SQL [TRIM] is [k] has the Python [strip] [k] as well, when
    [k] neither starts nor ends with white space. *)
Lemma strip_of_trim (u k : string) :
  PyStr.sql_trim u = k → k ≠ EmptyString → PyStr.strip k = k → PyStr.strip u = k.
Proof.
  intros Hk Hne Hstrip. unfold PyStr.sql_trim in Hk.
  destruct (drop_while_split PyStr.is_blank_char u) as (a & Hu & Ha).
  destruct (drop_while_end_split PyStr.is_blank_char
              (PyStr.drop_while PyStr.is_blank_char u)) as (b & Hv & Hb).
  rewrite Hk in Hv. rewrite Hv in Hu. rewrite Hu.
  apply (all_chars_impl _ PyStr.is_space) in Ha; [|apply blank_is_space].
  apply (all_chars_impl _ PyStr.is_space) in Hb; [|apply blank_is_space].
  assert (starts_without PyStr.is_space k ∧ PyStr.drop_while_end PyStr.is_space k = k)
    as [Hhead Hend].
  { unfold PyStr.strip in Hstrip.
    pose proof (drop_while_head PyStr.is_space k) as Hh.
    destruct (drop_while_split PyStr.is_space k) as (a' & Hk' & Ha').
    destruct (drop_while_end_split PyStr.is_space (PyStr.drop_while PyStr.is_space k))
      as (b' & Hd & Hb').
    rewrite Hstrip in Hd. rewrite Hd in Hk'.
    assert (String.length k
            = (String.length a' + (String.length k + String.length b'))%nat) as Hlen.
    { rewrite Hk' at 1. by rewrite !length_append_s. }
    assert (a' = EmptyString) as -> by (destruct a'; [done|simpl in Hlen; lia]).
    assert (b' = EmptyString) as -> by (destruct b'; [done|simpl in Hlen; lia]).
    rewrite append_empty_r in Hd. rewrite Hd in Hh, Hstrip. done. }
  unfold PyStr.strip. rewrite drop_while_prefix; [|done|].
  - rewrite drop_while_end_app_empty; [done|]. by apply drop_while_end_all.
  - destruct k as [|c k]; [done|]. by rewrite append_cons.
Qed.

Lemma names_pl_substring v :
  Sql.holds (names_pl v) = true →
  let x := PyStr.lower (PyStr.strip (Py.str_or_empty v)) in
  PyStr.contains "profit and loss" x || PyStr.contains "profit & loss" x
  || PyStr.contains "p&l" x = true.
Proof.
  destruct v as [s|]; [|done]. unfold names_pl. simpl.
  rewrite lower_sql_trim, lower_strip. unfold PyStr.eqb.
  assert (∀ k, k ≠ EmptyString → PyStr.strip k = k →
               PyStr.sql_trim (PyStr.lower s) = k →
               PyStr.strip (PyStr.lower (Py.str_or_empty (Some s))) = k) as Hk.
  { intros k Hne Hstrip Htrim.
    assert (Py.str_or_empty (Some s) = s) as -> by by destruct s.
    by apply strip_of_trim. }
  repeat case_bool_decide; try done;
    match goal with
    | H : PyStr.sql_trim _ = ?k |- _ =>
        intros _; rewrite (Hk k);
        [vm_compute; reflexivity|discriminate|vm_compute; reflexivity|exact H]
    end.
Qed.

(** X18.  A row that the SQL test of the recalculation classifies as Profit and
    Loss (an exact name after [TRIM] and [LOWER]) is classified as Profit and
    Loss by the substring test of the Python loops. *)
Theorem sql_pl_rows_are_loop_pl_rows f :
  Sql.holds (sql_is_pl f) = true → is_pl (select_fx_columns f) = true.
Proof.
  unfold sql_is_pl. rewrite holds_or. intros [H|H]%orb_prop.
  - apply names_pl_substring in H. simpl in H. unfold is_pl. simpl.
    apply orb_prop in H as [[H|H]%orb_prop|H]; rewrite H; by rewrite ?orb_true_r.
  - apply names_pl_substring in H. simpl in H. unfold is_pl, main_category. simpl.
    apply orb_prop in H as [[H|H]%orb_prop|H]; rewrite H; by rewrite ?orb_true_r.
Qed.

Lemma sql_pl_rows_are_loop_pl_rows_witness :
  is_pl (select_fx_columns
           (Sample.ledger_row 3 "Sales" "E1" "USD" "April" "April" (-200)
              (Some " Profit And Loss ") (Some "Income") None)) = true.
Proof.
  apply (sql_pl_rows_are_loop_pl_rows
           (Sample.ledger_row 3 "Sales" "E1" "USD" "April" "April" (-200)
              (Some " Profit And Loss ") (Some "Income") None)).
  vm_compute. reflexivity.
Defined.

(** ** [upsert_forex] *)

Lemma latest_after_insert t new_id today cur ini lat m :
  comes_last t new_id today →
  _get_latest_row_for_currency
    (t ++ [ {| fx_id := new_id; fm_currency := Some cur; fm_initial_rate := ini;
               fm_latest_rate := lat; fm_month := m; fm_updated_at := Some today |} ])
    cur
  = Some {| fx_id := new_id; fm_currency := Some cur; fm_initial_rate := ini;
            fm_latest_rate := lat; fm_month := m; fm_updated_at := Some today |}.
Proof.
  intros Hlast. set (r := {| fx_id := new_id |}).
  pose proof (latest_row_spec (t ++ [r]) cur) as Hspec.
  destruct (_get_latest_row_for_currency (t ++ [r]) cur) as [e|].
  - destruct Hspec as (He & _ & Hmax).
    apply elem_of_app in He as [He|He%list_elem_of_singleton]; [|by subst].
    assert (not_newer r e) as Hre.
    { apply Hmax; [|done]. apply elem_of_app. right. by apply list_elem_of_singleton. }
    destruct (Hlast e He) as [Hid Hst]. unfold not_newer in Hre.
    unfold stamp at 1 3 in Hre. simpl in Hre. lia.
  - exfalso. apply (Hspec r); [|done]. apply elem_of_app. right.
    by apply list_elem_of_singleton.
Qed.

(** What a successful call inserted. *)
Lemma upsert_forex_inserted db new_id today currency i l month db' :
  upsert_forex db new_id today currency i l month = (200, db') →
  let cur := PyStr.strip (PyStr.upper currency) in
  let prev := _get_latest_row_for_currency (forex_master db) cur in
  ∃ m,
    db' = recalculate_avg_fx_rate_internal
            (insert_forex db new_id today cur
               (sent_or_carried i (prev ≫= fm_initial_rate))
               (sent_or_carried l (prev ≫= fm_latest_rate)) m) cur
    ∧ (i ≠ No_rate ∨ l ≠ No_rate).
Proof.
  intros H cur prev. unfold upsert_forex in H. fold cur in H. fold prev in H.
  destruct (negb (nonempty cur)); [done|].
  destruct i as [| |i], l as [| |l]; simpl in H; try done.
  - destruct (negb (nonempty _)); [done|].
    destruct (prev ≫= fm_initial_rate) as [pi|] eqn:Epi; simpl in H;
      injection H as <-; eexists; (split; [by rewrite ?Epi|by right]).
  - destruct (prev ≫= fm_latest_rate) as [pl|] eqn:Epl,
      (prev ≫= fm_month) as [pm|] eqn:Epm; simpl in H;
      injection H as <-; eexists; (split; [by rewrite ?Epl|by left]).
  - destruct (negb (nonempty _)); [done|].
    injection H as <-. eexists. split; [done|by left].
Qed.

Lemma recalculate_keeps_forex_master db payload :
  forex_master (recalculate_avg_fx_rate db payload).2 = forex_master db.
Proof.
  unfold recalculate_avg_fx_rate.
  destruct (_get_latest_row_for_currency _ _) as [fx|]; [|done].
  by destruct (fm_initial_rate fx), (fm_latest_rate fx).
Qed.

(** X19.  When the new id and the current date come after those of every
    stored row, a successful [upsert_forex] appends one row to [forex_master],
    that row is the latest of the currency, and a rate that was not sent is
    the rate of the row that was the latest before. *)
Theorem upsert_row_becomes_latest db new_id today currency i l month db' :
  comes_last (forex_master db) new_id today →
  upsert_forex db new_id today currency i l month = (200, db') →
  let cur := PyStr.strip (PyStr.upper currency) in
  let prev := _get_latest_row_for_currency (forex_master db) cur in
  ∃ r, forex_master db' = forex_master db ++ [r]
       ∧ _get_latest_row_for_currency (forex_master db') cur = Some r
       ∧ fx_id r = new_id
       ∧ fm_initial_rate r = sent_or_carried i (prev ≫= fm_initial_rate)
       ∧ fm_latest_rate r = sent_or_carried l (prev ≫= fm_latest_rate).
Proof.
  intros Hlast H cur prev.
  apply upsert_forex_inserted in H as (m & -> & _). fold cur prev.
  unfold recalculate_avg_fx_rate_internal. rewrite recalculate_keeps_forex_master.
  simpl. eexists. split; [done|]. split; [by apply latest_after_insert|]. done.
Qed.

Lemma sample_rates_come_last : comes_last Sample.legacy_rates 4 3000.
Proof.
  intros r Hr.
  repeat (apply elem_of_cons in Hr as [->|Hr]; [unfold stamp; simpl; lia|]).
  by apply elem_of_nil in Hr.
Qed.

Lemma upsert_row_becomes_latest_witness :
  ∃ r, forex_master (upsert_forex Sample.db 4 3000 "usdin" No_rate (Rate 78) (Some "June")).2
       = forex_master Sample.db ++ [r]
       ∧ _get_latest_row_for_currency
           (forex_master
              (upsert_forex Sample.db 4 3000 "usdin" No_rate (Rate 78) (Some "June")).2)
           (PyStr.strip (PyStr.upper "usdin")) = Some r
       ∧ fx_id r = 4
       ∧ fm_initial_rate r
         = sent_or_carried No_rate
             (_get_latest_row_for_currency (forex_master Sample.db)
                (PyStr.strip (PyStr.upper "usdin")) ≫= fm_initial_rate)
       ∧ fm_latest_rate r
         = sent_or_carried (Rate 78)
             (_get_latest_row_for_currency (forex_master Sample.db)
                (PyStr.strip (PyStr.upper "usdin")) ≫= fm_latest_rate).
Proof.
  refine (upsert_row_becomes_latest Sample.db 4 3000 "usdin" No_rate (Rate 78)
            (Some "June") _ sample_rates_come_last _).
  vm_compute. reflexivity.
Defined.

Lemma upper_char_space c : PyStr.is_space (PyStr.upper_char c) = PyStr.is_space c.
Proof. char_cases c. Qed.

Lemma upper_strip (s : string) : PyStr.upper (PyStr.strip s) = PyStr.strip (PyStr.upper s).
Proof.
  unfold PyStr.upper, PyStr.strip.
  rewrite map_drop_while_end, map_drop_while; [done| |]; apply upper_char_space.
Qed.

Lemma drop_while_end_idem p (s : string) :
  PyStr.drop_while_end p (PyStr.drop_while_end p s) = PyStr.drop_while_end p s.
Proof.
  induction s as [|c s IH]; [done|]. cbn.
  destruct (PyStr.drop_while_end p s) as [|c' s'] eqn:E.
  - destruct (p c) eqn:Ec; [done|]. cbn. by rewrite Ec.
  - cbn. cbn in IH. rewrite IH. done.
Qed.

Lemma drop_while_end_head p (s : string) :
  starts_without p s → starts_without p (PyStr.drop_while_end p s).
Proof.
  destruct s as [|c s]; [done|]. cbn. intros Hc.
  destruct (PyStr.drop_while_end p s); [by rewrite Hc|done].
Qed.

Lemma drop_while_started p (s : string) :
  starts_without p s → PyStr.drop_while p s = s.
Proof. destruct s as [|c s]; [done|]. cbn. by intros ->. Qed.

Lemma strip_idem (s : string) : PyStr.strip (PyStr.strip s) = PyStr.strip s.
Proof.
  unfold PyStr.strip.
  rewrite (drop_while_started _ (PyStr.drop_while_end _ _)).
  - apply drop_while_end_idem.
  - apply drop_while_end_head, drop_while_head.
Qed.

Lemma recalc_currency_upsert currency :
  nonempty (PyStr.strip (PyStr.upper currency)) = true →
  recalc_currency (Some (PyStr.strip (PyStr.upper currency)))
  = PyStr.strip (PyStr.upper currency).
Proof.
  intros Hne. unfold recalc_currency.
  assert (Py.or_str (Some (PyStr.strip (PyStr.upper currency))) (Some "USDIN")
          = Some (PyStr.strip (PyStr.upper currency))) as ->.
  { unfold Py.or_str, Py.truthy_str. by destruct (PyStr.strip (PyStr.upper currency)). }
  simpl. by rewrite upper_strip, upper_idem, strip_idem.
Qed.

Lemma recalculate_with_latest db payload fx l k f :
  _get_latest_row_for_currency (forex_master db) (recalc_currency payload) = Some fx →
  fm_latest_rate fx = Some l →
  final_structured db !! k = Some f →
  final_structured (recalculate_avg_fx_rate db payload).2 !! k
  = Some (if Sql.holds (recalc_scope (recalc_params payload) f)
          then if Sql.holds (sql_is_pl f)
               then match fm_initial_rate fx with
                    | Some ini => set_rate_sql ((ini + l) / 2)%float f
                    | None => f
                    end
               else set_rate_sql l f
          else f).
Proof.
  intros Hfx Hl Hf. unfold recalculate_avg_fx_rate.
  fold (recalc_currency payload). fold (recalc_params payload).
  rewrite Hfx, Hl. destruct (fm_initial_rate fx) as [ini|]; simpl.
  - rewrite update_pl_lookup, update_bs_lookup, Hf. simpl.
    destruct (Sql.holds (recalc_scope _ f)) eqn:Es; simpl.
    + destruct (Sql.holds (sql_is_pl f)) eqn:Ep; simpl.
      * by rewrite Es, Ep.
      * change (recalc_scope ?p (set_rate_sql l f)) with (recalc_scope p f).
        change (sql_is_pl (set_rate_sql l f)) with (sql_is_pl f).
        by rewrite Es, Ep.
    + by rewrite Es.
  - rewrite update_bs_lookup, Hf. simpl.
    destruct (Sql.holds (recalc_scope _ f)) eqn:Es; simpl; [|done].
    by destruct (Sql.holds (sql_is_pl f)).
Qed.

(** X20.  After a successful [upsert_forex] that sends a latest rate, a ledger
    row in the scope of the currency carries that rate, or, when the SQL test
    classifies it as Profit and Loss, its average with the initial rate sent
    or carried (the row is unchanged when there is none); a row out of scope
    is unchanged. *)
Theorem upsert_rates_reach_ledger db new_id today currency i x month db' k f :
  comes_last (forex_master db) new_id today →
  upsert_forex db new_id today currency i (Rate x) month = (200, db') →
  final_structured db !! k = Some f →
  let cur := PyStr.strip (PyStr.upper currency) in
  let prev := _get_latest_row_for_currency (forex_master db) cur in
  final_structured db' !! k
  = Some (if Sql.holds (recalc_scope (PyStr.upper <$> matching_currencies cur) f)
          then if Sql.holds (sql_is_pl f)
               then match sent_or_carried i (prev ≫= fm_initial_rate) with
                    | Some ini => set_rate_sql ((ini + x) / 2)%float f
                    | None => f
                    end
               else set_rate_sql x f
          else f).
Proof.
  intros Hlast H Hf cur prev.
  assert (nonempty cur = true) as Hne.
  { unfold upsert_forex in H. fold cur in H. by destruct (nonempty cur). }
  apply upsert_forex_inserted in H as (m & -> & _). fold cur prev.
  unfold recalculate_avg_fx_rate_internal.
  pose proof (recalc_currency_upsert currency Hne) as Hcur. fold cur in Hcur.
  set (r := {| fx_id := new_id; fm_currency := Some cur;
               fm_initial_rate := sent_or_carried i (prev ≫= fm_initial_rate);
               fm_latest_rate := Some x; fm_month := m;
               fm_updated_at := Some today |}).
  rewrite (recalculate_with_latest _ (Some cur) r x k f); [|
    rewrite Hcur; by apply latest_after_insert | done | exact Hf].
  unfold recalc_params. rewrite Hcur. done.
Qed.

Lemma upsert_rates_reach_ledger_witness :
  final_structured
    (upsert_forex Sample.db 4 3000 "usdin" No_rate (Rate 78) (Some "June")).2 !! 2%nat
  = Some (set_rate_sql ((74 + 78) / 2)%float
            (Sample.ledger_row 3 "Sales" "E1" "USD" "April" "April" (-200)
               (Some "Profit and Loss") (Some "Income") None)).
Proof.
  refine (upsert_rates_reach_ledger Sample.db 4 3000 "usdin" No_rate 78
            (Some "June") _ 2
            (Sample.ledger_row 3 "Sales" "E1" "USD" "April" "April" (-200)
               (Some "Profit and Loss") (Some "Income") None)
            sample_rates_come_last _ _).
  - vm_compute. reflexivity.
  - reflexivity.
Defined.

(** ** Clearing a period before an upload *)

Lemma count_after_delete {A} (c : A → Sql.cond) (t : list A) :
  count_where c (delete_where c t) = 0.
Proof.
  unfold count_where, delete_where.
  induction t as [|r t IH]; [done|]. simpl.
  destruct (Sql.holds (c r)) eqn:E; simpl; [done|]. by rewrite E.
Qed.

Lemma count_delete_length {A} (c : A → Sql.cond) (t : list A) :
  count_where c t = Z.of_nat (length t) - Z.of_nat (length (delete_where c t)).
Proof.
  unfold count_where, delete_where.
  induction t as [|r t IH]; [done|]. simpl.
  destruct (Sql.holds (c r)); simpl; lia.
Qed.

Lemma delete_nothing {A} (c : A → Sql.cond) (t : list A) :
  count_where c t = 0 → delete_where c t = t.
Proof.
  unfold count_where, delete_where.
  induction t as [|r t IH]; [done|]. simpl.
  destruct (Sql.holds (c r)); simpl; [lia|]. intros H. by rewrite IH.
Qed.

Lemma count_nonneg {A} (c : A → Sql.cond) (t : list A) : 0 ≤ count_where c t.
Proof. unfold count_where. lia. Qed.

(** X21.  [delete_existing_data_for_entity_month_year] removes the rows of the
    period from both tables and no other row, leaves none of them behind (a
    second attempt has nothing to delete), and reports the numbers removed. *)
Theorem delete_existing_data_clears_period raw structured entity_id entity_code
    month_name year :
  let '(result, raw', structured') :=
    delete_existing_data_for_entity_month_year raw structured entity_id entity_code
      month_name year in
  raw' = delete_where (raw_in_scope entity_id month_name year) raw
  ∧ structured' = delete_where (in_scope entity_code month_name year) structured
  ∧ count_where (raw_in_scope entity_id month_name year) raw' = 0
  ∧ count_where (in_scope entity_code month_name year) structured' = 0
  ∧ raw_data_deleted result = Z.of_nat (length raw) - Z.of_nat (length raw')
  ∧ structured_data_deleted result
    = Z.of_nat (length structured) - Z.of_nat (length structured')
  ∧ total_deleted result = raw_data_deleted result + structured_data_deleted result.
Proof.
  unfold delete_existing_data_for_entity_month_year. simpl.
  set (cr := raw_in_scope entity_id month_name year).
  set (cs := in_scope entity_code month_name year).
  assert ((if 0 <? count_where cr raw
           then if count_where cr (delete_where cr raw) =? 0
                then delete_where cr raw
                else delete_where cr (delete_where cr raw)
           else raw) = delete_where cr raw) as ->.
  { rewrite count_after_delete. simpl.
    destruct (Z.ltb_spec 0 (count_where cr raw)) as [|Hle]; [done|].
    symmetry. apply delete_nothing. pose proof (count_nonneg cr raw). lia. }
  assert ((if 0 <? count_where cs structured
           then delete_where cs structured else structured)
          = delete_where cs structured) as ->.
  { destruct (Z.ltb_spec 0 (count_where cs structured)) as [|Hle]; [done|].
    symmetry. apply delete_nothing. pose proof (count_nonneg cs structured). lia. }
  rewrite !count_after_delete, <- !count_delete_length. done.
Qed.

(** ** The mapping of an upload and the mapping of the sync *)

Lemma eqb_sym (a b : string) : PyStr.eqb a b = PyStr.eqb b a.
Proof. unfold PyStr.eqb. apply bool_decide_ext. split; by intros ->. Qed.

Lemma eq_str_sym a b : Sql.eq_str a b = Sql.eq_str b a.
Proof. destruct a, b; simpl; try done. by rewrite eqb_sym. Qed.

Lemma find_ext {A} (p q : A → bool) (l : list A) :
  (∀ x, p x = q x) → List.find p l = List.find q l.
Proof. intros H. induction l as [|x l IH]; [done|]. simpl. by rewrite H, IH. Qed.

(** X22.  For a ledger row that an upload stored (its [Particular] is the
    stripped cell) and that lacks a category, the sync writes the categories
    [get_coa_mapping] returns for that particular, and leaves the row as it
    is when [get_coa_mapping] finds no mapping. *)
Theorem sync_applies_upload_mapping cms f cell :
  Particular f = Some (PyStr.strip cell) →
  Sql.holds (some_category_missing f) = true →
  sync_row cms f
  = match get_coa_mapping cms (Some (PyStr.strip cell)) with
    | Some m => with_categories f (std_code m) (brd_cls m) (brd_cls_2 m)
                  (ctg_code m) (cafl_fnfl m) (cat_5 m)
    | None => f
    end.
Proof.
  intros Hp Hmiss. unfold sync_row, get_coa_mapping. rewrite Hmiss.
  assert (PyStr.strip (Py.str_or_empty (Some (PyStr.strip cell))) = PyStr.strip cell)
    as ->.
  { rewrite <- (strip_idem cell) at 2. by destruct (PyStr.strip cell). }
  rewrite (find_ext (fun cm => Sql.holds (particular_matches f cm))
             (fun cm => Sql.holds (Sql.eq_str (Sql.lower_trim (RawParticulars cm))
                                     (Sql.lower_trim (Some (PyStr.strip cell)))))).
  - by destruct (List.find _ cms).
  - intros cm. unfold particular_matches. by rewrite Hp, eq_str_sym.
Qed.

Lemma sync_applies_upload_mapping_witness :
  sync_row Sample.mappings
    (Sample.ledger_row 1 "Cash" "E1" "USD" "Opening" "April" 1000 None None None)
  = match get_coa_mapping Sample.mappings (Some (PyStr.strip " Cash ")) with
    | Some m =>
        with_categories
          (Sample.ledger_row 1 "Cash" "E1" "USD" "Opening" "April" 1000 None None None)
          (std_code m) (brd_cls m) (brd_cls_2 m) (ctg_code m) (cafl_fnfl m) (cat_5 m)
    | None => Sample.ledger_row 1 "Cash" "E1" "USD" "Opening" "April" 1000 None None None
    end.
Proof.
  apply (sync_applies_upload_mapping Sample.mappings
           (Sample.ledger_row 1 "Cash" "E1" "USD" "Opening" "April" 1000 None None None)
           " Cash ").
  - vm_compute. reflexivity.
  - vm_compute. reflexivity.
Defined.

(** ** The two loops *)

Lemma calculate_row_dry em cache r :
  has_amount_key r →
  calculate_row em cache false r
  = ((apply_row em cache r).1, [], (apply_row em cache r).2).
Proof.
  intros [v Hv]. unfold calculate_row, apply_row. rewrite Hv.
  by destruct (row_rate em cache r).
Qed.

Lemma calc_loop_dry em cache rows :
  Forall has_amount_key rows →
  calc_loop em cache false rows
  = ((_apply_forex_rates em rows cache).1, [], (_apply_forex_rates em rows cache).2).
Proof.
  induction 1 as [|r rows Hr _ IH]; [done|].
  rewrite apply_forex_rates_cons. unfold calc_loop in *. simpl. rewrite IH.
  by rewrite (calculate_row_dry em cache r Hr).
Qed.

(** X23.  With [save_to_db] false, [_calculate_and_save_forex_rates] leaves the
    database as it is and gives the rows and the count of
    [_apply_forex_rates], for rows that hold the key ["transactionAmount"]. *)
Theorem dry_run_equals_apply db rows cache :
  Forall has_amount_key rows →
  _calculate_and_save_forex_rates db rows cache false
  = ((_apply_forex_rates (entity_master db) rows cache).1,
     db,
     (_apply_forex_rates (entity_master db) rows cache).2).
Proof.
  intros Hrows. rewrite calculate_and_save_unfold, (calc_loop_dry _ _ _ Hrows). simpl.
  by destruct db.
Qed.

Lemma dry_run_equals_apply_witness :
  _calculate_and_save_forex_rates Sample.db [Sample.pl_row; Sample.bs_row]
    (_build_forex_cache Sample.db [Sample.pl_row; Sample.bs_row]) false
  = ((_apply_forex_rates (entity_master Sample.db) [Sample.pl_row; Sample.bs_row]
        (_build_forex_cache Sample.db [Sample.pl_row; Sample.bs_row])).1,
     Sample.db,
     (_apply_forex_rates (entity_master Sample.db) [Sample.pl_row; Sample.bs_row]
        (_build_forex_cache Sample.db [Sample.pl_row; Sample.bs_row])).2).
Proof.
  apply (dry_run_equals_apply Sample.db [Sample.pl_row; Sample.bs_row]).
  repeat constructor; by eexists.
Defined.

(** ** What the batch update leaves alone *)

Lemma save_update_lookup u t i :
  save_update u t !! i
  = (fun f => if sl_no f =? upd_sl_no u
              then with_fx f (Some (upd_avg_fx_rt u)) (upd_transaction_amount_usd u)
              else f) <$> t !! i.
Proof. unfold save_update. by rewrite list_lookup_fmap. Qed.

Lemma same_but_fx_refl f : same_but_fx f f.
Proof. unfold same_but_fx. by destruct f. Qed.

Lemma same_but_fx_trans f g h : same_but_fx f g → same_but_fx g h → same_but_fx f h.
Proof. unfold same_but_fx. intros -> ->. done. Qed.

Lemma save_updates_frame (us : list fx_update) : ∀ t i f,
  t !! i = Some f →
  ∃ f', foldl (fun t u => save_update u t) t us !! i = Some f'
        ∧ same_but_fx f f'
        ∧ ((∀ u, u ∈ us → upd_sl_no u ≠ sl_no f) → f' = f).
Proof.
  induction us as [|u us IH]; intros t i f Hf; simpl.
  - exists f. split; [done|]. split; [apply same_but_fx_refl|done].
  - set (g := if sl_no f =? upd_sl_no u
              then with_fx f (Some (upd_avg_fx_rt u)) (upd_transaction_amount_usd u)
              else f).
    assert (save_update u t !! i = Some g) as Hg.
    { by rewrite save_update_lookup, Hf. }
    assert (same_but_fx f g ∧ sl_no g = sl_no f) as [Hfg Hsl].
    { unfold g. destruct (sl_no f =? upd_sl_no u); [done|].
      split; [apply same_but_fx_refl|done]. }
    destruct (IH _ _ _ Hg) as (f' & Hf' & Hsame & Hframe).
    exists f'. split; [done|]. split; [by apply (same_but_fx_trans f g)|].
    intros Hnone. rewrite Hframe.
    + unfold g. destruct (Z.eqb_spec (sl_no f) (upd_sl_no u)) as [E|]; [|done].
      destruct (Hnone u); [left|done].
    + intros u' Hu'. rewrite Hsl. apply Hnone. by right.
Qed.

(** X24.  [_calculate_and_save_forex_rates] keeps every ledger row in place,
    changes no column but [Avg_Fx_Rt] and [transactionAmountUSD], and leaves
    unchanged a ledger row whose [sl_no] no row of the batch has. *)
Theorem batch_update_frame db rows cache save i f :
  final_structured db !! i = Some f →
  ∃ f', final_structured (_calculate_and_save_forex_rates db rows cache save).1.2 !! i
        = Some f'
        ∧ same_but_fx f f'
        ∧ ((∀ r, r ∈ rows → row_sl_no r ≠ Some (sl_no f)) → f' = f).
Proof.
  intros Hf. rewrite calculate_and_save_unfold. simpl.
  destruct (save_updates_frame
              (calc_loop (entity_master db) cache save rows).1.2 _ _ _ Hf)
    as (f' & Hf' & Hsame & Hframe).
  exists f'. split; [done|]. split; [done|]. intros Hnone. apply Hframe.
  intros u Hu. rewrite calc_loop_updates in Hu.
  apply list_elem_of_join in Hu as (us & Hu & Hus).
  apply list_elem_of_fmap in Hus as (r & -> & Hr).
  apply calculate_row_update_sl in Hu as (Hsl & _ & _).
  intros E. apply (Hnone r Hr). by rewrite Hsl, E.
Qed.

Lemma batch_update_frame_witness :
  ∃ f', final_structured
          (_calculate_and_save_forex_rates Sample.db [Sample.pl_row]
             (_build_forex_cache Sample.db [Sample.pl_row]) true).1.2 !! 0%nat
        = Some f'
        ∧ same_but_fx
            (Sample.ledger_row 1 "Cash" "E1" "USD" "Opening" "April" 1000 None None None) f'
        ∧ ((∀ r, r ∈ [Sample.pl_row]
                 → row_sl_no r
                   ≠ Some (sl_no (Sample.ledger_row 1 "Cash" "E1" "USD" "Opening" "April"
                                    1000 None None None)))
           → f' = Sample.ledger_row 1 "Cash" "E1" "USD" "Opening" "April" 1000
                    None None None).
Proof.
  apply (batch_update_frame Sample.db [Sample.pl_row]
           (_build_forex_cache Sample.db [Sample.pl_row]) true 0).
  reflexivity.
Defined.

(** ** The codes of a currency in the two directions *)

Lemma substring_all (s : string) : String.substring 0 (String.length s) s = s.
Proof. induction s as [|c s IH]; [done|]. simpl. by rewrite IH. Qed.

Lemma substring_prefix (a b : string) :
  String.substring 0 (String.length a) (a +:+ b) = a.
Proof.
  induction a as [|c a IH].
  - rewrite append_nil. by destruct b.
  - rewrite append_cons. simpl. by rewrite IH.
Qed.

Lemma substring_skip (a b : string) n :
  String.substring (String.length a) n (a +:+ b) = String.substring 0 n b.
Proof.
  induction a as [|c a IH]; [by rewrite append_nil|]. rewrite append_cons. simpl.
  exact IH.
Qed.

Lemma last2_with_IN (c : string) : PyStr.last2 (c +:+ "IN") = "IN".
Proof.
  unfold PyStr.last2. rewrite length_append_s. simpl.
  replace (String.length c + 2 - 2)%nat with (String.length c) by lia.
  by rewrite substring_skip.
Qed.

Lemma drop_last2_with_IN (c : string) : drop_last2 (c +:+ "IN") = c.
Proof.
  unfold drop_last2. rewrite length_append_s. simpl.
  replace (String.length c + 2 - 2)%nat with (String.length c) by lia.
  apply substring_prefix.
Qed.

Lemma matching_currencies_with_IN (c : string) :
  matching_currencies (c +:+ "IN") = [c; c +:+ "IN"].
Proof.
  unfold matching_currencies, ends_with_IN.
  by rewrite last2_with_IN, drop_last2_with_IN.
Qed.

Lemma matching_currencies_self (c : string) : c ∈ matching_currencies c.
Proof.
  unfold matching_currencies. destruct (ends_with_IN c).
  - right. left.
  - left.
Qed.

(** X25.  A code of its own that the cache builder tries in the legacy table
    for a ledger currency (the currency, or a three-letter currency followed
    by IN) is a code whose recalculation lists that ledger currency among the
    codes it matches. *)
Theorem own_codes_are_recalculated (c v : string) :
  v ∈ variants c → v ≠ "USDIN" → v ≠ "USD" → c ∈ matching_currencies v.
Proof.
  unfold variants. intros Hv H1 H2.
  apply elem_of_cons in Hv as [->|Hv]; [apply matching_currencies_self|].
  apply elem_of_app in Hv as [Hv|Hv].
  - destruct (String.length c =? 3)%nat; [|by apply elem_of_nil in Hv].
    apply list_elem_of_singleton in Hv as ->.
    rewrite matching_currencies_with_IN. left.
  - apply elem_of_cons in Hv as [->|Hv]; [done|].
    by apply list_elem_of_singleton in Hv.
Qed.

Lemma own_codes_are_recalculated_witness : "EUR" ∈ matching_currencies "EURIN".
Proof.
  apply (own_codes_are_recalculated "EUR" "EURIN").
  - right. left.
  - discriminate.
  - discriminate.
Defined.

(** ** The label suggested for a date *)

Lemma suggested_fy_is_formatted year month day :
  suggested_fy_of (year, month, day)
  = format_financial_year (if month <=? 3 then year - 1 else year).
Proof.
  unfold suggested_fy_of, format_financial_year.
  destruct (month <=? 3); [|done]. by replace (year - 1 + 1) with year by lia.
Qed.

(** X26.  The label [check_if_previous_fy] suggests for a date parses to the
    year the financial year starts in: the year before for a date in January
    to March, the year of the date otherwise. *)
Theorem suggested_label_parses year month day :
  1 ≤ year →
  parse_financial_year (suggested_fy_of (year, month, day))
  = Some (if month <=? 3 then year - 1 else year).
Proof.
  intros Hy. rewrite suggested_fy_is_formatted.
  apply parse_format_fy. destruct (month <=? 3); lia.
Qed.

Lemma suggested_label_parses_witness :
  parse_financial_year (suggested_fy_of (2025, 2, 15)) = Some 2024.
Proof. apply (suggested_label_parses 2025 2 15). lia. Defined.

(** ** Cache keys *)

(** X27.  For currency codes without an underscore the keys of the cache are
    unambiguous: entity keys of different (entity, currency, year) triples
    differ, no entity key is a legacy key or a bare currency code, no legacy
    key is a bare currency code, and legacy keys of different currencies
    differ. *)
Theorem cache_keys_unambiguous e c fy e' c' fy' x :
  Spec.no_underscore c → Spec.no_underscore c' →
  (entity_key e c fy = entity_key e' c' fy' → e = e' ∧ c = c' ∧ fy = fy')
  ∧ entity_key e c fy ≠ legacy_key x
  ∧ entity_key e c fy ≠ c'
  ∧ legacy_key x ≠ c'
  ∧ (legacy_key c = legacy_key c' → c = c').
Proof.
  intros Hc Hc'. split; [by apply entity_key_inj|].
  split; [apply entity_key_not_legacy|].
  split; [by apply entity_key_not_bare|].
  split; [by apply legacy_key_not_bare|apply legacy_key_inj].
Qed.

Lemma cache_keys_unambiguous_witness :
  (entity_key 1 "USD" 2024 = entity_key 12 "USD" 24 → 1 = 12 ∧ "USD" = "USD" ∧ 2024 = 24)
  ∧ entity_key 1 "USD" 2024 ≠ legacy_key "USD"
  ∧ entity_key 1 "USD" 2024 ≠ "USD"
  ∧ legacy_key "USD" ≠ "USD"
  ∧ (legacy_key "USD" = legacy_key "USD" → "USD" = "USD").
Proof.
  apply (cache_keys_unambiguous 1 "USD" 2024 12 "USD" 24 "USD").
  - reflexivity.
  - reflexivity.
Defined.

(** ** The progress tracker *)

Lemma update_progress_lookup st op kw op' :
  update_progress st op kw !! op'
  = if bool_decide (op' = op) then (fun d => kw ∪ d) <$> st !! op else st !! op'.
Proof.
  unfold update_progress. case_bool_decide as E.
  - subst. destruct (st !! op) as [d|] eqn:Hd; [by rewrite lookup_insert_eq|].
    by rewrite Hd.
  - destruct (st !! op) as [d|]; [by rewrite lookup_insert_ne|done].
Qed.

Lemma updates_keep_unknown (us : list (string * gmap string progress_value)) :
  ∀ st op, st !! op = None →
           foldl (fun st u => update_progress st u.1 u.2) st us !! op = None.
Proof.
  induction us as [|[o kw] us IH]; intros st op Hst; [done|]. simpl. apply IH.
  rewrite update_progress_lookup. case_bool_decide as E; [|done].
  rewrite <- E. by rewrite Hst.
Qed.

Lemma updates_keep_status (us : list (string * gmap string progress_value)) :
  ∀ st op d, st !! op = Some d → is_Some (d !! "status") →
    ∃ d', foldl (fun st u => update_progress st u.1 u.2) st us !! op = Some d'
          ∧ is_Some (d' !! "status").
Proof.
  induction us as [|[o kw] us IH]; intros st op d Hst Hd; [by exists d|]. simpl.
  destruct (decide (op = o)) as [<-|Hne].
  - apply (IH _ op (kw ∪ d)).
    + rewrite update_progress_lookup, bool_decide_eq_true_2 by done. by rewrite Hst.
    + apply lookup_union_is_Some. by right.
  - apply (IH _ op d); [|done].
    by rewrite update_progress_lookup, bool_decide_eq_false_2.
Qed.

(** X28.  Once [init_progress] has registered an operation, the polling route
    answers 200 for it after any sequence of [update_progress] calls, and an
    operation that was never registered keeps its 404: [update_progress]
    creates no entry. *)
Theorem progress_of_started_upload st op meta
    (us : list (string * gmap string progress_value)) :
  let st' :=
    foldl (fun st u => update_progress st u.1 u.2) (init_progress st op meta) us in
  (get_upload_progress st' op).1 = 200
  ∧ ∀ op', op' ≠ op → st !! op' = None → get_upload_progress st' op' = (404, None).
Proof.
  intros st'. split.
  - destruct (updates_keep_status us (init_progress st op meta) op _
                (lookup_insert_eq _ _ _)) as (d' & Hd' & [v Hv]).
    { by rewrite lookup_insert_eq. }
    unfold get_upload_progress, get_progress. fold st' in Hd'. rewrite Hd'.
    case_bool_decide as E; [|done]. subst d'. by rewrite lookup_empty in Hv.
  - intros op' Hne Hnone. unfold get_upload_progress, get_progress, st'.
    rewrite updates_keep_unknown; [done|].
    unfold init_progress. by rewrite lookup_insert_ne.
Qed.
